(** * Trading-Agent-Template: portfolio-constrained sizing and orchestration

    A shallow embedding of the trading bot's entry module ([loop],
    [adjustTradeForPortfolio], [getTokenInfo], [getTopTokens], the TapTools
    helpers, the swap executor), of [token-lists.ts], of
    [config/portfolio-settings.ts] and of the two services, together with the
    valuation step of the older entry module.

    Numbers.  A JavaScript [number] is embedded as a rational ([Q]) with
    exact arithmetic: the embedding covers the finite, non-NaN numbers and
    does not round.  [Math.min] and [Math.max] are [Qmin] and [Qmax]; the
    comparisons and the truthiness fallback [x || d] are in module [Js].
    The one place where the outcome of the code turns on the rounding is the
    conversion of an ADA amount to lovelace in the swap executors
    ([BigInt(quantityAda * 1_000_000)] throws unless the product is a whole
    number): there the product is taken in binary64 ([Js.mul64]).

    Effects.  The outcome of every external call (TapTools, OpenAI, Iris) is
    given by a [World]; a call either answers or throws ([Exc]).  The loop
    runs in a small writer-and-exception monad [M] whose trace records what
    the loop logs and which swaps it hands to [executeDexSwap]. *)

From Stdlib Require Import QArith Qminmax Qabs Qround Qpower Lqa ZArith List String Bool Lia.
From Stdlib Require Qcanon.
Import ListNotations.

Local Open Scope string_scope.
Local Open Scope list_scope.
Local Open Scope Q_scope.

(** ** JavaScript values *)

Module Js.

(** [a <= b] *)
Definition leb (a b : Q) : bool := Qle_bool a b.

(** [a < b] *)
Definition ltb (a b : Q) : bool := negb (Qle_bool b a).

(** [a === 0]; also the falsiness of a number (NaN is outside the model). *)
Definition is_zero (a : Q) : bool := Qeq_bool a 0.

(** [x || d] on numbers. *)
Definition or_num (x d : Q) : Q := if is_zero x then d else x.

(** [x || d] for an optional numeric field: [undefined] and [0] give [d]. *)
Definition opt_or_num (x : option Q) (d : Q) : Q :=
  match x with
  | Some a => or_num a d
  | None => d
  end.

(** [x || d] for an optional integer field. *)
Definition opt_or_int (x : option Z) (d : Z) : Z :=
  match x with
  | Some a => if Z.eqb a 0 then d else a
  | None => d
  end.

(** Truthiness of an optional string (an environment variable). *)
Definition truthy_string (x : option string) : option string :=
  match x with
  | Some s => if String.eqb s "" then None else Some s
  | None => None
  end.

(** [s.slice(0, n)] *)
Definition slice0 (n : nat) (s : string) : string := substring 0 n s.

(** [o[key]] on an object used as a map from strings. *)
Fixpoint get {A : Type} (o : list (string * A)) (key : string) : option A :=
  match o with
  | [] => None
  | (k, v) :: o' => if String.eqb k key then Some v else get o' key
  end.

(** *** Binary64

    The numbers of the language are the binary64 numbers: 53 significant
    bits, exponents from -1022 to 1023, round to nearest with ties to the
    even significand.  [round64 x] is the number that stands for the real
    [x], and [None] when that is an infinity. *)

(** The integer part of the binary logarithm of a positive number. *)
Definition ilog2 (x : Q) : Z :=
  let e := (Z.log2 (Qnum x) - Z.log2 (Zpos (Qden x)))%Z in
  if Qle_bool (2 ^ e) x then e else (e - 1)%Z.

(** The exponent of the last place of the numbers of the size of a positive
    [x]: 52 places below its own, and never below -1074 (the numbers under
    2^-1022 are subnormal).  [ulp x] is the unit in that place. *)
Definition lastPlace (x : Q) : Z := (Z.max (ilog2 x) (-1022) - 52)%Z.

Definition ulp (x : Q) : Q := 2 ^ lastPlace (Qabs x).

(** The nearest integer, a tie going to the even one. *)
Definition roundHalfEven (m : Q) : Z :=
  let f := Qfloor m in
  match Qcompare (m - inject_Z f) (1 # 2) with
  | Lt => f
  | Gt => (f + 1)%Z
  | Eq => if Z.even f then f else (f + 1)%Z
  end.

Definition round64 (x : Q) : option Q :=
  if Qeq_bool x 0 then Some 0
  else
    let r := inject_Z (roundHalfEven (x / ulp x)) * ulp x in
    if Qle_bool (2 ^ 1024) (Qabs r) then None else Some r.

(** [a * b] on numbers: the product of the two binary64 numbers, rounded.
    A product with an infinity is an infinity or NaN. *)
Definition mul64 (a b : Q) : option Q :=
  match round64 a, round64 b with
  | Some a', Some b' => round64 (a' * b')
  | _, _ => None
  end.

End Js.

(** ** Calls that may throw, and the loop's monad *)

Inductive Exc (A : Type) : Type :=
| Ok (a : A)
| Throw.
Arguments Ok {A} a.
Arguments Throw {A}.

(** An axios response: the HTTP status and the body. *)
Record Response (A : Type) : Type := mkResponse { status : Z; data : A }.
Arguments mkResponse {A} status data.
Arguments status {A} r.
Arguments data {A} r.

(** ** config/portfolio-settings.ts *)

Inductive Category : Type :=
| ada | meme_coins | ai | gaming | stable | defi | depin | other.

Definition Category_eqb (a b : Category) : bool :=
  match a, b with
  | ada, ada | meme_coins, meme_coins | ai, ai | gaming, gaming
  | stable, stable | defi, defi | depin, depin | other, other => true
  | _, _ => false
  end.

(** [TARGET_RATIOS], imported by the entry module as [targetRatios]. *)
Definition targetRatios (c : Category) : Q :=
  match c with
  | ada => 20 # 100
  | stable => 15 # 100
  | defi => 15 # 100
  | ai => 15 # 100
  | gaming => 10 # 100
  | meme_coins => 10 # 100
  | depin => 10 # 100
  | other => 5 # 100
  end.

(** ** token-lists.ts *)

(** [TokenConfig]; the profit-target, stop and hold-time fields are read
    nowhere in the entry module and are left out. *)
Record TokenConfig : Type := mkTokenConfig {
  tc_unit : string;
  tc_ticker : string;
  tc_decimals : option Z;
  tc_category : Category;
  tc_minTradeSize : option Q;
  tc_maxTradeSize : option Q
}.

Definition TRADING_TOKENS : list TokenConfig :=
  [ mkTokenConfig
      "97bbb7db0baef89caefce61b8107ac74c7a7340166b39d906f174bec54616c6f73"
      "TALOS" None ai (Some 10) (Some 200);
    mkTokenConfig
      "6787a47e9f73efe4002d763337140da27afa8eb9a39413d2c39d4286524144546f6b656e73"
      "RAD" None gaming (Some 10) (Some 200);
    mkTokenConfig
      "8db269c3ec630e06ae29f74bc39edd1f87c819f1056206e879a1cd61446a65644d6963726f555344"
      "DJED" None stable (Some 10) (Some 200);
    mkTokenConfig
      "e5a42a1a1d3d1da71b0449663c32798725888d2eb0843c4dabeca05a576f726c644d6f62696c65546f6b656e58"
      "WMTX" None depin (Some 10) (Some 200);
    mkTokenConfig
      "da8c30857834c6ae7203935b89278c532b3995245295456f993e1d244c51"
      "LQ" None defi (Some 10) (Some 200);
    mkTokenConfig
      "279c909f348e533da5808898f87f9a14bb2c3dfbbacccd631d927a3f534e454b"
      "SNEK" None meme_coins (Some 10) (Some 200) ].

(** The functions of [token-lists.ts] read the module constant
    [TRADING_TOKENS]; here they take the table as [table], and the shipped
    table is the constant above. *)
Section TokenLists.

Variable table : list TokenConfig.

Definition getTokensByCategory (category : Category) : list TokenConfig :=
  filter (fun token => Category_eqb (tc_category token) category) table.

Definition getAllTradingTokens : list TokenConfig := table.

Definition getTokenConfig (unit : string) : option TokenConfig :=
  find (fun token => String.eqb (tc_unit token) unit) table.

Definition getTokenConfigByTicker (ticker : string) : option TokenConfig :=
  find (fun token => String.eqb (tc_ticker token) ticker) table.

End TokenLists.

(** ** Portfolio logic *)

Inductive Direction : Type := buy | sell.

(** [adjustTradeForPortfolio]: for a buy, the room left under the category's
    target, capped by the spendable balance (2 ADA kept for fees), and 0 when
    no room is left or less than 1 ADA would be traded; for a sell, the
    recommended amount as it is. *)
Definition adjustTradeForPortfolio
    (direction : Direction) (category : Category)
    (recommendedAda totalAdaValue currentCategoryValue userAdaBalance : Q) : Q :=
  match direction with
  | buy =>
      let maxAllowedCategory := targetRatios category * totalAdaValue in
      let roomLeft := maxAllowedCategory - currentCategoryValue in
      if Js.leb roomLeft 0 then 0
      else
        let maxUserCanSpend := Qmax 0 (userAdaBalance - 2) in
        let finalAda := Qmin recommendedAda (Qmin roomLeft maxUserCanSpend) in
        if Js.ltb finalAda 1 then 0 else finalAda
  | sell => recommendedAda
  end.

(** The local [roomLeft] of [adjustTradeForPortfolio]. *)
Definition roomLeft (category : Category) (totalAdaValue currentCategoryValue : Q) : Q :=
  targetRatios category * totalAdaValue - currentCategoryValue.

(** ** External data *)

(** An opaque JSON body of a market-data answer; the loop only forwards it
    to the decision source. *)
Inductive Json : Type :=
| JEmptyObject
| JEmptyArray
| JData (body : string).

Record TapToolsVolumeToken : Type := mkVolumeToken {
  vt_price : Q;
  vt_ticker : string;
  vt_unit : string;
  vt_volume : Q
}.

(** An entry of [addressInfo.assets]; [wa_quantity] is the integer that
    [parseInt(asset.quantity, 10)] reads. *)
Record WalletAsset : Type := mkWalletAsset {
  wa_unit : string;
  wa_quantity : Z
}.

(** The body of the address-info answer; [ai_lovelace] is the integer that
    [parseInt] reads from [addressInfo.lovelace], when the field is there. *)
Record AddressInfo : Type := mkAddressInfo {
  ai_lovelace : option Z;
  ai_assets : option (list WalletAsset)
}.

(** [LlmDecision] without its free-text [reasoning].  [trade] is [false] for
    the string ['false'].  The reply is [JSON.parse(text) as LlmDecision], an
    unchecked cast: [direction] is [None] when the parsed object carries no
    such field, the one field the loop dereferences
    ([decision.direction.toUpperCase()]). *)
Record LlmDecision : Type := mkLlmDecision {
  trade : bool;
  direction : option Direction;
  confidence : Q;
  size : Q
}.

(** The local [tokenData] of the loop. *)
Record TokenData : Type := mkTokenData {
  td_ticker : string;
  td_unit : string;
  td_volume_24h : Q;
  td_price : Q;
  td_aggregated_price : option Q;
  td_price_change : Json;
  td_pools : Json;
  td_ohlcv : Json;
  td_trading_stats : Json;
  td_mcap : Json
}.

(** What the outside answers during one iteration. *)
Record World : Type := mkWorld {
  http_topVolume : Exc (Response (list TapToolsVolumeToken));
  http_addressInfo : string -> Exc (Response AddressInfo);
  http_tokenPrices : list string -> Exc (Response (list (string * Q)));
  http_priceChg : string -> Exc (Response Json);
  http_pools : string -> Exc (Response Json);
  http_ohlcv : string -> Exc (Response Json);
  http_tradingStats : string -> Exc (Response Json);
  http_mcap : string -> Exc (Response Json);
  (** the chat completion followed by [JSON.parse]; [Throw] when either fails *)
  openai_decision : TokenData -> Exc LlmDecision;
  (** [iris.assets().match({policyId, nameHex})]: the decimals of each match *)
  iris_assets : string -> string -> Exc (list (option Z))
}.

Inductive TokenSource : Type := PREDEFINED_LIST | TOP_VOLUME | COMBINED.

(** The source the entry module is shipped with. *)
Definition ACTIVE_TOKEN_SOURCE : TokenSource := PREDEFINED_LIST.

(** What the loop logs, and the calls it makes to the sizer and to the swap
    executor. *)
Inductive Event : Type :=
| LogNoTokens
| LogDecision (ticker : string) (decision : LlmDecision)
| LogSkipNoTrade (ticker : string)
| LogSkipConfidence (ticker : string) (c : Q)
| LogSkipNoConfig (ticker : string)
(** the call [adjustTradeForPortfolio(direction, category, recommended,
    totalAdaValue, catValueNow, userAdaBal)] *)
| CallSizer (d : option Direction) (category : Category)
            (recommended totalAdaValue catValueNow userAdaBal : Q)
| LogSkipFinalAmount
| LogExecuting (d : Direction) (finalAmount : Q) (ticker : string)
(** the call [executeDexSwap(direction, finalAmount, unit)] *)
| CallDexSwap (d : Direction) (quantityAda : Q) (unit : string)
| LogMainLoopError.

(** A computation of the loop: the events so far, and a value or a throw. *)
Definition M (A : Type) : Type := (list Event * Exc A)%type.

Definition ret {A : Type} (a : A) : M A := ([], Ok a).

Definition bind {A B : Type} (m : M A) (f : A -> M B) : M B :=
  match m with
  | (t, Ok a) => let (t', r) := f a in (t ++ t', r)
  | (t, Throw) => (t, Throw)
  end.

Definition emit (e : Event) : M unit := ([e], Ok tt).

Definition throw {A : Type} : M A := ([], Throw).

(** [try { m } catch (err) { h }] *)
Definition try_catch {A : Type} (m : M A) (h : M A) : M A :=
  match m with
  | (t, Ok a) => (t, Ok a)
  | (t, Throw) => let (t', r) := h in (t ++ t', r)
  end.

Notation "x <- m ;; k" := (bind m (fun x => k))
  (at level 61, m at next level, right associativity).
Notation "m ;; k" := (bind m (fun _ => k))
  (at level 61, right associativity).

(** [for (const a of l) { f a }] *)
Fixpoint forEach {A : Type} (f : A -> M unit) (l : list A) : M unit :=
  match l with
  | [] => ret tt
  | a :: l' => f a ;; forEach f l'
  end.

Definition trace {A : Type} (m : M A) : list Event := fst m.

(** The per-category values of one iteration: the locals [totalAdaValue] and
    [categoryValues] of [loop]. *)
Record Portfolio : Type := mkPortfolio {
  totalAdaValue : Q;
  categoryValues : Category -> Q
}.

Definition all_categories : list Category :=
  [ada; stable; defi; ai; gaming; meme_coins; depin; other].

(** [categoryValues[c] += v] *)
Definition add_to (cv : Category -> Q) (c : Category) (v : Q) : Category -> Q :=
  fun c' => if Category_eqb c' c then cv c' + v else cv c'.

(** The sum of the values of all categories. *)
Definition sum_categories (cv : Category -> Q) : Q :=
  fold_right (fun c acc => cv c + acc) 0 all_categories.

(** ** The entry module *)

Section Bot.

(** The table of [token-lists.ts], the token source chosen at the top of
    the entry module, the environment variable and the outside world. *)
Variable table : list TokenConfig.
Variable tokenSource : TokenSource.
Variable CARDANO_ADDRESS : option string.
Variable w : World.

(** *** TapTools calls: each catches what its request throws *)

Definition taptoolsGetTopVolumeTokens (perPage : nat) : list TapToolsVolumeToken :=
  match http_topVolume w with
  | Ok resp => firstn perPage (data resp)
  | Throw => []
  end.

Definition taptoolsGetAddressInfo (address : string) : option AddressInfo :=
  match http_addressInfo w address with
  | Ok resp => Some (data resp)
  | Throw => None
  end.

Definition taptoolsGetTokenPrices (units : list string) : list (string * Q) :=
  match http_tokenPrices w units with
  | Ok resp => data resp
  | Throw => []
  end.

(** The shape shared by the five per-token calls: the body when the status
    is 200, the empty default otherwise and when the request throws. *)
Definition body_or (r : Exc (Response Json)) (default : Json) : Json :=
  match r with
  | Ok resp => if Z.eqb (status resp) 200 then data resp else default
  | Throw => default
  end.

Definition taptoolsGetTokenPriceChg (unit : string) : Json :=
  body_or (http_priceChg w unit) JEmptyObject.

Definition taptoolsGetTokenPools (unit : string) : Json :=
  body_or (http_pools w unit) JEmptyArray.

Definition taptoolsGetTokenOhlcv (unit : string) : Json :=
  body_or (http_ohlcv w unit) JEmptyArray.

Definition taptoolsGetTokenTradingStats (unit : string) : Json :=
  body_or (http_tradingStats w unit) JEmptyObject.

Definition taptoolsGetTokenMcap (unit : string) : Json :=
  body_or (http_mcap w unit) JEmptyObject.

(** *** The decision *)

(** What [getLlmTradingDecision] returns from its [catch]. *)
Definition llm_error_decision : LlmDecision :=
  mkLlmDecision false (Some buy) 0 0.

Definition getLlmTradingDecision (tokenData : TokenData) : LlmDecision :=
  match openai_decision w tokenData with
  | Ok decision => decision
  | Throw => llm_error_decision
  end.

(** *** Decimals *)

Definition getAssetDecimals (unit : string) : Z :=
  let policyId := Js.slice0 56 unit in
  let nameHex := substring 56 (String.length unit - 56) unit in
  match iris_assets w policyId nameHex with
  | Ok (d :: _) => Js.opt_or_int d 0
  | Ok [] => 0%Z
  | Throw => 0%Z
  end.

(** *** The token universe *)

Definition uses_predefined : bool :=
  match tokenSource with PREDEFINED_LIST | COMBINED => true | TOP_VOLUME => false end.

Definition uses_top_volume : bool :=
  match tokenSource with TOP_VOLUME | COMBINED => true | PREDEFINED_LIST => false end.

Definition set_price (token : TapToolsVolumeToken) (p : Q) : TapToolsVolumeToken :=
  mkVolumeToken p (vt_ticker token) (vt_unit token) (vt_volume token).

Definition getTopTokens : list TapToolsVolumeToken :=
  let configuredTokens :=
    if uses_predefined
    then map (fun token => mkVolumeToken 0 (tc_ticker token) (tc_unit token) 0)
             (getAllTradingTokens table)
    else [] in
  let combinedTokens :=
    if uses_top_volume
    then fold_left
           (fun acc token =>
              if existsb (fun t => String.eqb (vt_unit t) (vt_unit token)) acc
              then acc else acc ++ [token])
           (taptoolsGetTopVolumeTokens 10) configuredTokens
    else configuredTokens in
  let tokenUnits :=
    map vt_unit (filter (fun t => Js.is_zero (vt_price t)) combinedTokens) in
  match tokenUnits with
  | [] => combinedTokens
  | _ :: _ =>
      let prices := taptoolsGetTokenPrices tokenUnits in
      map (fun token =>
             if Js.is_zero (vt_price token)
             then set_price token (Js.opt_or_num (Js.get prices (vt_unit token)) 0)
             else token)
          combinedTokens
  end.

(** The basic config [getTokenInfo] creates for a unit it does not find. *)
Definition fallbackConfig (unit : string) : TokenConfig :=
  mkTokenConfig unit (Js.slice0 10 unit ++ "...")%string None other
                (Some 10) (Some 200).

(** [getTokenInfo]: the lookup is by ticker, with the unit as the key. *)
Definition getTokenInfo (unit : string) : option TokenConfig :=
  match getTokenConfigByTicker table unit with
  | Some configuredToken => Some configuredToken
  | None => Some (fallbackConfig unit)
  end.

(** *** Valuation: the portfolio part of [loop] *)

Definition emptyPortfolio : Portfolio := mkPortfolio 0 (fun _ => 0).

(** The decimals of a wallet asset: [tokenInfo?.decimals || await
    getAssetDecimals(asset.unit)]. *)
Definition resolveDecimals (tokenInfo : option TokenConfig) (unit : string) : Z :=
  Js.opt_or_int
    (match tokenInfo with Some t => tc_decimals t | None => None end)
    (getAssetDecimals unit).

(** [valueInAda] of one asset at a given price. *)
Definition valueInAda (asset : WalletAsset) (price : Q) : Q :=
  let tokenInfo := getTokenConfig table (wa_unit asset) in
  let decimals := resolveDecimals tokenInfo (wa_unit asset) in
  let quantity := inject_Z (wa_quantity asset) / (10 ^ decimals) in
  quantity * price.

(** One turn of the loop over [addressInfo.assets]. *)
Definition valueAsset (tokenPrices : list (string * Q))
    (p : Portfolio) (asset : WalletAsset) : Portfolio :=
  let price := Js.opt_or_num (Js.get tokenPrices (wa_unit asset)) 0 in
  if Js.leb price 0 then p
  else
    let tokenInfo := getTokenConfig table (wa_unit asset) in
    let category :=
      match tokenInfo with Some t => tc_category t | None => other end in
    mkPortfolio (totalAdaValue p + valueInAda asset price)
                (add_to (categoryValues p) category (valueInAda asset price)).

Definition walletAssets (addressInfo : AddressInfo) : list WalletAsset :=
  match ai_assets addressInfo with Some l => l | None => [] end.

(** The portfolio the loop builds: zeros without address info. *)
Definition buildPortfolio (addressInfo : option AddressInfo) : Portfolio :=
  match addressInfo with
  | None => emptyPortfolio
  | Some info =>
      let userAda :=
        inject_Z (match ai_lovelace info with Some n => n | None => 0%Z end)
        / 1000000 in
      let seeded :=
        mkPortfolio (0 + userAda)
                    (fun c => if Category_eqb c ada then userAda else 0) in
      let allUnitsInWallet := map wa_unit (walletAssets info) in
      let tokenPrices := taptoolsGetTokenPrices allUnitsInWallet in
      fold_left (valueAsset tokenPrices) (walletAssets info) seeded
  end.

(** *** The per-token part of [loop] *)

(** [tokenData] with the advanced data from TapTools. *)
Definition fetchTokenData (tokenInfo : TapToolsVolumeToken) : TokenData :=
  let unit := vt_unit tokenInfo in
  mkTokenData (vt_ticker tokenInfo) unit (vt_volume tokenInfo) (vt_price tokenInfo)
    (Js.get (taptoolsGetTokenPrices [unit]) unit)
    (taptoolsGetTokenPriceChg unit)
    (taptoolsGetTokenPools unit)
    (taptoolsGetTokenOhlcv unit)
    (taptoolsGetTokenTradingStats unit)
    (taptoolsGetTokenMcap unit).

(** The locals [minSize], [maxSize] and [recommended]. *)
Definition minSize (tokenConfig : TokenConfig) : Q :=
  Js.opt_or_num (tc_minTradeSize tokenConfig) 50.

Definition maxSize (tokenConfig : TokenConfig) : Q :=
  Js.opt_or_num (tc_maxTradeSize tokenConfig) 500.

Definition recommended (tokenConfig : TokenConfig) (decision : LlmDecision) : Q :=
  Qmin (Qmax (Js.or_num (size decision) (minSize tokenConfig)) (minSize tokenConfig))
       (maxSize tokenConfig).

(** The confidence threshold of the loop. *)
Definition confidenceThreshold : Q := 6 # 10.

(** The last two statements of the loop body: the log line, which reads
    [decision.direction.toUpperCase()] and so throws a TypeError when the
    decision has no direction, and the swap. *)
Definition execute (decision : LlmDecision) (finalAmount : Q)
    (ticker unit : string) : M Datatypes.unit :=
  match direction decision with
  | None => throw
  | Some d =>
      emit (LogExecuting d finalAmount ticker) ;;
      emit (CallDexSwap d finalAmount unit)
  end.

(** The sizer as the loop calls it.  A decision without direction fails the
    test [direction === 'buy'] and takes the sell branch. *)
Definition callSizer (decision : LlmDecision) (category : Category)
    (recommendedAda total catValueNow userAdaBal : Q) : Q :=
  match direction decision with
  | Some d =>
      adjustTradeForPortfolio d category recommendedAda total catValueNow userAdaBal
  | None => recommendedAda
  end.

(** The body of [for (const tokenInfo of tokens)]. *)
Definition tokenStep (addressInfo : option AddressInfo) (p : Portfolio)
    (tokenInfo : TapToolsVolumeToken) : M unit :=
  let ticker := vt_ticker tokenInfo in
  let unit := vt_unit tokenInfo in
  let tokenData := fetchTokenData tokenInfo in
  let decision := getLlmTradingDecision tokenData in
  emit (LogDecision ticker decision) ;;
  if negb (trade decision) then emit (LogSkipNoTrade ticker)
  else if Js.ltb (confidence decision) confidenceThreshold
  then emit (LogSkipConfidence ticker (confidence decision))
  else
    match getTokenInfo unit with
    | None => emit (LogSkipNoConfig ticker)
    | Some tokenConfig =>
        let recommendedNow := recommended tokenConfig decision in
        match addressInfo with
        | Some _ =>
            let catValueNow := categoryValues p (tc_category tokenConfig) in
            let userAdaBal := categoryValues p ada in
            emit (CallSizer (direction decision) (tc_category tokenConfig) recommendedNow
                            (totalAdaValue p) catValueNow userAdaBal) ;;
            let finalAmount :=
              callSizer decision (tc_category tokenConfig) recommendedNow
                        (totalAdaValue p) catValueNow userAdaBal in
            if Js.ltb finalAmount 1 then emit LogSkipFinalAmount
            else execute decision finalAmount ticker unit
        | None => execute decision recommendedNow ticker unit
        end
    end.

(** The address info of the iteration: asked for only when the address is
    configured, and [null] when the request throws. *)
Definition addressInfoOfIteration : option AddressInfo :=
  match Js.truthy_string CARDANO_ADDRESS with
  | Some address => taptoolsGetAddressInfo address
  | None => None
  end.

(** [loop]: one iteration, inside its single [try]/[catch]. *)
Definition loop : M unit :=
  try_catch
    (let tokens := getTopTokens in
     match tokens with
     | [] => emit LogNoTokens
     | _ :: _ =>
         let addressInfo := addressInfoOfIteration in
         let p := buildPortfolio addressInfo in
         forEach (tokenStep addressInfo p) tokens
     end)
    (emit LogMainLoopError).

End Bot.

(** ** The older entry module: its valuation

    The older [loop] sums six categories and classifies with
    [classifyToken]; the [portfolio-settings.ts] it was written against is
    not in the repository, so the classifier is a parameter here. *)

Module Legacy.

Inductive Category : Type :=
| ada | meme_coins | shards_talos | indy | big_others | new_positions.

Definition Category_eqb (a b : Category) : bool :=
  match a, b with
  | ada, ada | meme_coins, meme_coins | shards_talos, shards_talos
  | indy, indy | big_others, big_others | new_positions, new_positions => true
  | _, _ => false
  end.

Definition all_categories : list Category :=
  [ada; meme_coins; shards_talos; indy; big_others; new_positions].

Record Portfolio : Type := mkPortfolio {
  totalAdaValue : Q;
  categoryValues : Category -> Q
}.

Definition add_to (cv : Category -> Q) (c : Category) (v : Q) : Category -> Q :=
  fun c' => if Category_eqb c' c then cv c' + v else cv c'.

Section Valuation.

Variable classifyToken : string -> Category.
Variable w : World.

(** [valueInAda]: the raw quantity times the price. *)
Definition valueInAda (asset : WalletAsset) (price : Q) : Q :=
  let quantity := inject_Z (wa_quantity asset) in
  quantity * price.

Definition valueAsset (tokenPrices : list (string * Q))
    (cv : Category -> Q) (asset : WalletAsset) : Category -> Q :=
  let price := Js.opt_or_num (Js.get tokenPrices (wa_unit asset)) 0 in
  if Js.leb price 0 then cv
  else add_to cv (classifyToken (wa_unit asset)) (valueInAda asset price).

(** [Object.values(categoryValues).reduce((a,b) => a + b, 0)] *)
Definition sumValues (cv : Category -> Q) : Q :=
  fold_left (fun a c => a + cv c) all_categories 0.

Definition buildPortfolio (addressInfo : option AddressInfo) : Portfolio :=
  match addressInfo with
  | None => mkPortfolio 0 (fun _ => 0)
  | Some info =>
      let userAda :=
        inject_Z (match ai_lovelace info with Some n => n | None => 0%Z end)
        / 1000000 in
      let seeded := fun c => if Category_eqb c ada then userAda else 0 in
      let assets := match ai_assets info with Some l => l | None => [] end in
      let tokenPrices := taptoolsGetTokenPrices w (map wa_unit assets) in
      let cv := fold_left (valueAsset tokenPrices) assets seeded in
      mkPortfolio (sumValues cv) cv
  end.

End Valuation.

End Legacy.

(** ** The vocabulary of the statements *)

(** The loop's invariant: the running total is the sum of the categories. *)
Definition balanced (p : Portfolio) : Prop :=
  totalAdaValue p == sum_categories (categoryValues p).

(** The sum over the six categories of the older module. *)
Definition legacy_sum_categories (cv : Legacy.Category -> Q) : Q :=
  cv Legacy.ada + cv Legacy.meme_coins + cv Legacy.shards_talos
  + cv Legacy.indy + cv Legacy.big_others + cv Legacy.new_positions.

(** The decimals as the claim words them: those of the token's TokenConfig
    when present, the external lookup otherwise. *)
Definition decimals_config_when_present (table : list TokenConfig) (w : World)
    (unit : string) : Z :=
  match getTokenConfig table unit with
  | Some t =>
      match tc_decimals t with
      | Some d => d
      | None => getAssetDecimals w unit
      end
  | None => getAssetDecimals w unit
  end.

(** The decimals the loop uses: those of the TokenConfig when present and not
    zero, the external lookup otherwise. *)
Definition decimals_config_when_nonzero (table : list TokenConfig) (w : World)
    (unit : string) : Z :=
  match getTokenConfig table unit with
  | Some t =>
      match tc_decimals t with
      | Some d => if Z.eqb d 0 then getAssetDecimals w unit else d
      | None => getAssetDecimals w unit
      end
  | None => getAssetDecimals w unit
  end.

(** A world in which every request throws, but for the given answers of the
    decision source and of the Iris asset lookup. *)
Definition offlineWorld (decide : TokenData -> Exc LlmDecision)
    (assets : string -> string -> Exc (list (option Z))) : World :=
  mkWorld Throw (fun _ => Throw) (fun _ => Throw) (fun _ => Throw) (fun _ => Throw)
          (fun _ => Throw) (fun _ => Throw) (fun _ => Throw) decide assets.

(** The decision the step acts on. *)
Definition decisionFor (w : World) (tokenInfo : TapToolsVolumeToken) : LlmDecision :=
  getLlmTradingDecision w (fetchTokenData w tokenInfo).

(** Every configured token trades at least 1 ADA. *)
Definition sizes_at_least_1 (table : list TokenConfig) : bool :=
  forallb (fun t => Js.leb 1 (minSize t) && Js.leb 1 (maxSize t)) table.

(** Every market-data request about a unit throws. *)
Definition market_data_fails (w : World) (unit : string) : Prop :=
  http_tokenPrices w [unit] = Throw /\
  http_priceChg w unit = Throw /\
  http_pools w unit = Throw /\
  http_ohlcv w unit = Throw /\
  http_tradingStats w unit = Throw /\
  http_mcap w unit = Throw.

(** The token data the loop is left with when every request throws. *)
Definition defaultTokenData (tokenInfo : TapToolsVolumeToken) : TokenData :=
  mkTokenData (vt_ticker tokenInfo) (vt_unit tokenInfo)
              (vt_volume tokenInfo) (vt_price tokenInfo)
              None JEmptyObject JEmptyArray JEmptyArray JEmptyObject JEmptyObject.

(** A token is skipped by an iteration when no swap is called for its unit. *)
Definition skipped (unit : string) (events : list Event) : Prop :=
  forall d quantityAda, ~ In (CallDexSwap d quantityAda unit) events.

(** ** config/portfolio-settings.ts: the classifier *)

(** [s.includes(sub)]: [sub] occurs somewhere in [s]. *)
Fixpoint includes (s sub : string) : bool :=
  if String.prefix sub s then true
  else match s with
       | EmptyString => false
       | String _ s' => includes s' sub
       end.

(** [TOKEN_POLICIES]: the policy ids of each group. *)
Record TokenPolicies : Type := mkTokenPolicies {
  policies_stable : list string;
  policies_defi : list string;
  policies_governance : list string;
  policies_other : list string
}.

Definition TOKEN_POLICIES : TokenPolicies :=
  mkTokenPolicies ["policy1"; "policy2"] ["policy3"] ["policy4"] [].

(** [ids.some(id => unit.includes(id))] *)
Definition some_included (ids : list string) (unit : string) : bool :=
  existsb (fun id => includes unit id) ids.

(** [classifyToken] of [portfolio-settings.ts], over the policy table. *)
Definition classifyToken (policies : TokenPolicies) (unit : string) : Category :=
  if some_included (policies_stable policies) unit then stable
  else if some_included (policies_defi policies) unit then defi
  else other.

(** [portfolio-settings.template.ts]: four categories, and a classifier that
    also knows the governance group. *)
Module Template.

Inductive Category : Type := stable | defi | governance | other.

Definition TARGET_RATIOS (c : Category) : Q :=
  match c with
  | stable => 40 # 100
  | defi => 30 # 100
  | governance => 20 # 100
  | other => 10 # 100
  end.

Definition classifyToken (policies : TokenPolicies) (unit : string) : Category :=
  if some_included (policies_stable policies) unit then stable
  else if some_included (policies_defi policies) unit then defi
  else if some_included (policies_governance policies) unit then governance
  else other.

End Template.

(** ** The swap executor *)

(** A token of a pool as Iris gives it: ['lovelace'] or an asset. *)
Inductive IrisToken : Type :=
| IrisLovelace
| IrisAsset (policyId nameHex : string) (decimals : option Z).

(** A token as Dexter takes it. *)
Inductive DexterToken : Type :=
| DexterLovelace
| DexterAsset (policyId nameHex : string) (decimals : Z).

(** The state of an Iris pool; every field may be missing. *)
Record IrisPoolState : Type := mkIrisPoolState {
  ps_reserveA : option Z;
  ps_reserveB : option Z;
  ps_tvl : option Z;
  ps_feePercent : option Q;
  ps_lpToken : option (string * string)
}.

Record IrisLiquidityPool : Type := mkIrisLiquidityPool {
  ip_dex : string;
  ip_tokenA : IrisToken;
  ip_tokenB : IrisToken;
  ip_state : option IrisPoolState;
  ip_address : string;
  ip_orderAddress : string;
  ip_identifier : string;
  ip_lpToken : option (string * string)
}.

(** A Dexter pool: the arguments of its constructor, then the fields set
    after construction. *)
Record DexterLiquidityPool : Type := mkDexterLiquidityPool {
  dp_dex : string;
  dp_assetA : DexterToken;
  dp_assetB : DexterToken;
  dp_reserveA : Z;
  dp_reserveB : Z;
  dp_address : string;
  dp_marketOrderAddress : string;
  dp_limitOrderAddress : string;
  dp_poolFeePercent : Q;
  dp_identifier : string;
  dp_lpToken : option (string * string)
}.

(** [x ?? d] *)
Definition nullish {A : Type} (x : option A) (d : A) : A :=
  match x with Some a => a | None => d end.

(** [liquidityPool.state?.field] *)
Definition stateField {A : Type} (pool : IrisLiquidityPool)
    (field : IrisPoolState -> option A) : option A :=
  match ip_state pool with Some st => field st | None => None end.

Definition toDexterToken (token : IrisToken) : DexterToken :=
  match token with
  | IrisLovelace => DexterLovelace
  | IrisAsset policyId nameHex decimals => DexterAsset policyId nameHex (nullish decimals 0%Z)
  end.

(** The pool conversion, over the name of the conversion's dex:
    [rename] is what the function does to [liquidityPool.dex]. *)
Definition convertPool (rename : string -> string) (liquidityPool : IrisLiquidityPool)
    : DexterLiquidityPool :=
  let lpToken0 := ip_lpToken liquidityPool in
  let lpToken :=
    match stateField liquidityPool ps_lpToken with
    | Some t => Some t
    | None => lpToken0
    end in
  mkDexterLiquidityPool
    (rename (ip_dex liquidityPool))
    (toDexterToken (ip_tokenA liquidityPool))
    (toDexterToken (ip_tokenB liquidityPool))
    (nullish (stateField liquidityPool ps_reserveA) 0%Z)
    (nullish (stateField liquidityPool ps_reserveB) 0%Z)
    (ip_address liquidityPool)
    (ip_orderAddress liquidityPool)
    (ip_orderAddress liquidityPool)
    (nullish (stateField liquidityPool ps_feePercent) 0)
    (ip_identifier liquidityPool)
    lpToken.

(** The TVL the sort compares: [state?.tvl ?? 0n]. *)
Definition tvlOf (pool : IrisLiquidityPool) : Z :=
  nullish (stateField pool ps_tvl) 0%Z.

(** [pools.sort((a, b) => Number(tvl(b) - tvl(a)))]: the sort of the
    language is stable, so the pools come by decreasing TVL and pools of the
    same TVL keep their order; written as an insertion from the right. *)
Fixpoint insertByTvl (pool : IrisLiquidityPool) (sorted : list IrisLiquidityPool)
    : list IrisLiquidityPool :=
  match sorted with
  | [] => [pool]
  | q :: rest =>
      if (tvlOf q <=? tvlOf pool)%Z then pool :: q :: rest
      else q :: insertByTvl pool rest
  end.

Definition sortByTvl (pools : list IrisLiquidityPool) : list IrisLiquidityPool :=
  fold_right insertByTvl [] pools.

(** [BigInt(x)] of a number: the integer when the number is whole, a
    RangeError otherwise. *)
Definition toBigInt (x : Q) : Exc Z :=
  let r := Qred x in
  if Pos.eqb (Qden r) 1 then Ok (Qnum r) else Throw.

(** [BigInt(quantityAda * 1_000_000)]: the product is the binary64 product,
    and the conversion throws a RangeError when it is no whole number (an
    infinity is none). *)
Definition lovelaceOf (quantityAda : Q) : Exc Z :=
  match Js.mul64 quantityAda 1000000 with
  | Some product => toBigInt product
  | None => Throw
  end.

(** The two ways the executor fills a swap request. *)
Inductive SwapSide : Type :=
| SwapInLovelace (amount : Z)
| SwapOutLovelace (amount : Z).

(** The swap request handed to Dexter's [submit]. *)
Record SwapRequest : Type := mkSwapRequest {
  sr_pool : DexterLiquidityPool;
  sr_slippagePercent : Q;
  sr_side : SwapSide
}.

(** What the executor does that can be seen from outside. *)
Inductive DexEvent : Type :=
| LogNoPool (unit : string)
| Submit (request : SwapRequest)
| LogSwapError (unit : string).

Section Executor.

(** The identifier Dexter gives SundaeSwap's first version, the answer of
    Iris to a pool query, and the world of the decimals lookup. *)
Variable SundaeSwapV1_identifier : string.
Variable irisPools : string -> Exc (list IrisLiquidityPool).
Variable w : World.

(** [toDexterLiquidityPool] of the entry module: SundaeSwap is renamed. *)
Definition toDexterLiquidityPool (liquidityPool : IrisLiquidityPool)
    : DexterLiquidityPool :=
  convertPool (fun dex => if String.eqb dex "SundaeSwap"
                          then SundaeSwapV1_identifier else dex)
              liquidityPool.

(** [findDexPoolForToken]: it has no [try] of its own. *)
Definition findDexPoolForToken (unit : string) : Exc (option DexterLiquidityPool) :=
  match irisPools unit with
  | Throw => Throw
  | Ok allPools =>
      let dexterPools := map toDexterLiquidityPool (sortByTvl allPools) in
      match dexterPools with
      | pool :: _ => Ok (Some pool)
      | [] => Ok None
      end
  end.

(** [executeDexSwap]: everything happens inside one [try], so the function
    returns normally whatever is thrown. *)
Definition executeDexSwap (d : Direction) (quantityAda : Q) (unit : string)
    : list DexEvent :=
  match findDexPoolForToken unit with
  | Throw => [LogSwapError unit]
  | Ok None => [LogNoPool unit]
  | Ok (Some pool) =>
      let decimals := getAssetDecimals w unit in
      match lovelaceOf quantityAda with
      | Throw => [LogSwapError unit]
      | Ok lovelace =>
          [Submit (mkSwapRequest pool 2
                     (match d with
                      | buy => SwapInLovelace lovelace
                      | sell => SwapOutLovelace lovelace
                      end))]
      end
  end.

End Executor.

(** ** The services *)

(** [DexterService]: the pool conversion without the renaming, and the
    decimals lookup written with optional chaining. *)
Module DexterService.

(** The receiver of a method call: the service, or [undefined] when the
    method is called as a plain function. *)
Inductive Receiver : Type :=
| this_service
| this_undefined.

(** The method [toDexterLiquidityPool]: it reads [this.toDexterToken], which
    is a TypeError without a receiver (a class body is strict code). *)
Definition toDexterLiquidityPool (this : Receiver) (liquidityPool : IrisLiquidityPool)
    : Exc DexterLiquidityPool :=
  match this with
  | this_service => Ok (convertPool (fun dex => dex) liquidityPool)
  | this_undefined => Throw
  end.

(** [array.map(f)]: [f] on every element in order, up to the first throw. *)
Fixpoint mapExc {A B : Type} (f : A -> Exc B) (l : list A) : Exc (list B) :=
  match l with
  | [] => Ok []
  | a :: l' =>
      match f a with
      | Throw => Throw
      | Ok b =>
          match mapExc f l' with
          | Throw => Throw
          | Ok bs => Ok (b :: bs)
          end
      end
  end.

(** [findPoolForToken]: the method is handed to [map] as
    [this.toDexterLiquidityPool], without its receiver, and [map] calls it
    with [this] undefined. *)
Definition findPoolForToken (irisPools : string -> Exc (list IrisLiquidityPool))
    (unit : string) : Exc (option DexterLiquidityPool) :=
  match irisPools unit with
  | Throw => Throw
  | Ok allPools =>
      match mapExc (toDexterLiquidityPool this_undefined) (sortByTvl allPools) with
      | Throw => Throw
      | Ok (pool :: _) => Ok (Some pool)
      | Ok [] => Ok None
      end
  end.

(** [response.data[0]?.decimals || 0] *)
Definition getAssetDecimals (w : World) (unit : string) : Z :=
  let policyId := Js.slice0 56 unit in
  let nameHex := substring 56 (String.length unit - 56) unit in
  match iris_assets w policyId nameHex with
  | Ok data =>
      Js.opt_or_int (match data with d :: _ => d | [] => None end) 0
  | Throw => 0%Z
  end.

(** [executeSwap]: as [executeDexSwap] of the entry module, around the
    service's own pool search. *)
Definition executeSwap (irisPools : string -> Exc (list IrisLiquidityPool))
    (w : World) (d : Direction) (quantityAda : Q) (unit : string)
    : list DexEvent :=
  match findPoolForToken irisPools unit with
  | Throw => [LogSwapError unit]
  | Ok None => [LogNoPool unit]
  | Ok (Some pool) =>
      let decimals := getAssetDecimals w unit in
      match lovelaceOf quantityAda with
      | Throw => [LogSwapError unit]
      | Ok lovelace =>
          [Submit (mkSwapRequest pool 2
                     (match d with
                      | buy => SwapInLovelace lovelace
                      | sell => SwapOutLovelace lovelace
                      end))]
      end
  end.

End DexterService.

(** [TapToolsService]: the methods that have a counterpart in the entry
    module.  Five of them return the body whatever the status is. *)
Module TapToolsService.

Section Methods.

Variable w : World.

Definition getTopVolumeTokens (perPage : nat) : list TapToolsVolumeToken :=
  match http_topVolume w with
  | Ok resp => firstn perPage (data resp)
  | Throw => []
  end.

Definition getAddressInfo (address : string) : option AddressInfo :=
  match http_addressInfo w address with
  | Ok resp => Some (data resp)
  | Throw => None
  end.

Definition getTokenPrices (units : list string) : list (string * Q) :=
  match http_tokenPrices w units with
  | Ok resp => data resp
  | Throw => []
  end.

(** The shape of the five: the body, or the default when the request throws. *)
Definition data_or (r : Exc (Response Json)) (default : Json) : Json :=
  match r with
  | Ok resp => data resp
  | Throw => default
  end.

Definition getTokenPriceChg (unit : string) : Json :=
  data_or (http_priceChg w unit) JEmptyObject.

Definition getTokenPools (unit : string) : Json :=
  data_or (http_pools w unit) JEmptyArray.

Definition getTokenOhlcv (unit : string) : Json :=
  data_or (http_ohlcv w unit) JEmptyArray.

Definition getTokenTradingStats (unit : string) : Json :=
  data_or (http_tradingStats w unit) JEmptyObject.

Definition getTokenMcap (unit : string) : Json :=
  data_or (http_mcap w unit) JEmptyObject.

End Methods.

End TapToolsService.

(** ** The vocabulary of the further properties *)

(** The sum of a list of numbers. *)
Definition sumQ (l : list Q) : Q := fold_right Qplus 0 l.

(** The ADA of a wallet: its lovelace divided by one million. *)
Definition userAdaOf (info : AddressInfo) : Q :=
  inject_Z (match ai_lovelace info with Some n => n | None => 0%Z end) / 1000000.

(** What a wallet asset adds to the portfolio: its value at its price, and
    nothing when its price is missing or not positive. *)
Definition contribution (table : list TokenConfig) (w : World)
    (tokenPrices : list (string * Q)) (asset : WalletAsset) : Q :=
  let price := Js.opt_or_num (Js.get tokenPrices (wa_unit asset)) 0 in
  if Js.leb price 0 then 0 else valueInAda table w asset price.

(** The category a wallet asset is counted in. *)
Definition assetCategory (table : list TokenConfig) (asset : WalletAsset) : Category :=
  match getTokenConfig table (wa_unit asset) with
  | Some t => tc_category t
  | None => other
  end.

(** The contributions of the assets counted in a category. *)
Definition contributionsIn (table : list TokenConfig) (w : World)
    (tokenPrices : list (string * Q)) (category : Category)
    (assets : list WalletAsset) : list Q :=
  map (contribution table w tokenPrices)
      (filter (fun asset => Category_eqb (assetCategory table asset) category) assets).

(** The prices the valuation of a wallet works with. *)
Definition walletPrices (w : World) (info : AddressInfo) : list (string * Q) :=
  taptoolsGetTokenPrices w (map wa_unit (walletAssets info)).

(** A wallet without negative amounts. *)
Definition nonneg_wallet (info : AddressInfo) : Prop :=
  (0 <= match ai_lovelace info with Some n => n | None => 0 end)%Z /\
  Forall (fun asset => (0 <= wa_quantity asset)%Z) (walletAssets info).

(** The swap calls of a trace. *)
Definition swapCalls (events : list Event) : list (Direction * Q * string) :=
  flat_map (fun e => match e with
                     | CallDexSwap d q unit => [(d, q, unit)]
                     | _ => []
                     end) events.

(** [x.toFixed(2)] as the number it prints: the magnitude rounded to the
    nearest hundredth, a tie going up, with the sign of [x]. *)
Definition toFixed2 (x : Q) : Q :=
  let magnitude := Qabs x in
  let n := Qfloor (magnitude * 100 + (1 # 2)) in
  if Js.ltb x 0 then - (inject_Z n / 100) else inject_Z n / 100.

(** [logPortfolioBreakdown]: for each category, in the order the function
    lists them, the value and the percentage it prints (both through
    [toFixed(2)]; the percentage is ['0.00'] when the total is not positive),
    and the total it prints last. *)
Definition breakdownPercentage (portfolioValues : Category -> Q) (totalValue : Q)
    (category : Category) : Q :=
  if Js.ltb 0 totalValue
  then toFixed2 (portfolioValues category / totalValue * 100)
  else 0.

Definition logPortfolioBreakdown (portfolioValues : Category -> Q) (totalValue : Q)
    : list (Category * Q * Q) * Q :=
  (map (fun category =>
          (category, toFixed2 (portfolioValues category),
           breakdownPercentage portfolioValues totalValue category))
       [ada; stable; defi; ai; gaming; meme_coins; depin; other],
   toFixed2 totalValue).

(** What an iteration does at the executor: its swap calls, in order, each
    run through [executeDexSwap]. *)
Definition submissions (SundaeSwapV1_identifier : string)
    (irisPools : string -> Exc (list IrisLiquidityPool))
    (table : list TokenConfig) (tokenSource : TokenSource)
    (CARDANO_ADDRESS : option string) (w : World) : list DexEvent :=
  flat_map (fun call =>
              match call with
              | (d, q, unit) =>
                  executeDexSwap SundaeSwapV1_identifier irisPools w d q unit
              end)
           (swapCalls (trace (loop table tokenSource CARDANO_ADDRESS w))).

(** A request that throws or is answered with status 200. *)
Definition plain_answer (r : Exc (Response Json)) : Prop :=
  forall resp, r = Ok resp -> status resp = 200%Z.

(** How the result of a service method and the result of the entry module's
    helper compare on one request [r], [default] being the helper's empty
    default: they are equal on a plain answer; on any other status the helper
    gives the default and the service the body; so they are equal exactly
    when the status is 200 or the body is the default itself. *)
Definition same_but_for_status (r : Exc (Response Json)) (default : Json)
    (service helper : Json) : Prop :=
  (plain_answer r -> service = helper) /\
  (forall resp,
     r = Ok resp -> status resp <> 200%Z ->
     helper = default /\ service = data resp) /\
  (service = helper
   <-> forall resp, r = Ok resp -> status resp = 200%Z \/ data resp = default).

(** The template's categories seen from the current settings, which have no
    governance category. *)
Definition withoutGovernance (c : Template.Category) : Category :=
  match c with
  | Template.stable => stable
  | Template.defi => defi
  | Template.governance => other
  | Template.other => other
  end.

(** The side of a swap request: lovelace in for a buy, out for a sell. *)
Definition sideOf (d : Direction) (lovelace : Z) : SwapSide :=
  match d with
  | buy => SwapInLovelace lovelace
  | sell => SwapOutLovelace lovelace
  end.

(** * Properties *)

(** ** Comparisons, minimum and maximum *)

Module JsFacts.

Lemma leb_true (a b : Q) : Js.leb a b = true <-> a <= b.
Proof. apply Qle_bool_iff. Qed.

Lemma leb_false (a b : Q) : Js.leb a b = false <-> b < a.
Proof.
  unfold Js.leb. split; intro H.
  - apply Qnot_le_lt. intro Hle. apply Qle_bool_iff in Hle. congruence.
  - destruct (Qle_bool a b) eqn:E; [|reflexivity].
    apply Qle_bool_iff in E. lra.
Qed.

Lemma ltb_true (a b : Q) : Js.ltb a b = true <-> a < b.
Proof. unfold Js.ltb. rewrite negb_true_iff. apply (leb_false b a). Qed.

Lemma ltb_false (a b : Q) : Js.ltb a b = false <-> b <= a.
Proof. unfold Js.ltb. rewrite negb_false_iff. apply (leb_true b a). Qed.

Lemma is_zero_true (a : Q) : Js.is_zero a = true <-> a == 0.
Proof. apply Qeq_bool_iff. Qed.

Lemma or_num_cases (x d : Q) :
  (x == 0 /\ Js.or_num x d = d) \/ (~ x == 0 /\ Js.or_num x d = x).
Proof.
  unfold Js.or_num. destruct (Js.is_zero x) eqn:E.
  - left. split; [now apply is_zero_true|reflexivity].
  - right. split; [|reflexivity]. intro H. apply is_zero_true in H. congruence.
Qed.

End JsFacts.

(** Replace every minimum and maximum of the goal by a fresh number
    constrained by its specification, then decide linear arithmetic. *)
Ltac bound_minmax :=
  repeat match goal with
  | |- context [Qmin ?a ?b] =>
      let m := fresh "m" in
      let H := fresh "H" in
      pose proof (Q.min_spec a b) as H;
      set (m := Qmin a b) in *; clearbody m; revert H
  | |- context [Qmax ?a ?b] =>
      let m := fresh "m" in
      let H := fresh "H" in
      pose proof (Q.max_spec a b) as H;
      set (m := Qmax a b) in *; clearbody m; revert H
  end;
  intros; lra.

(** ** The position sizer *)

Section Sizer.

Variables (category : Category).
Variables (recommendedAda total currentCategoryValue userAdaBalance : Q).

(** The three outcomes of a buy. *)
Lemma buy_cases :
  let r := adjustTradeForPortfolio buy category recommendedAda total
                                   currentCategoryValue userAdaBalance in
  let room := roomLeft category total currentCategoryValue in
  let finalAda := Qmin recommendedAda (Qmin room (Qmax 0 (userAdaBalance - 2))) in
  (room <= 0 /\ r = 0) \/
  (0 < room /\ finalAda < 1 /\ r = 0) \/
  (0 < room /\ 1 <= finalAda /\ r = finalAda).
Proof.
  cbn zeta. unfold adjustTradeForPortfolio, roomLeft.
  destruct (Js.leb _ 0) eqn:Hroom.
  - left. split; [now apply JsFacts.leb_true|reflexivity].
  - right. apply JsFacts.leb_false in Hroom.
    destruct (Js.ltb _ 1) eqn:Hdust.
    + left. repeat split; [assumption|now apply JsFacts.ltb_true].
    + right. repeat split; [assumption|now apply JsFacts.ltb_false].
Qed.

End Sizer.

(** C1. On a buy, when the category's current value is at or above its
    target share of the total ([targetRatios[category] * totalAdaValue], that
    is when the room left is not positive), the sizer returns exactly 0. *)
Theorem buy_at_or_over_target_returns_0
    (category : Category) (recommendedAda total currentCategoryValue userAdaBalance : Q) :
  targetRatios category * total <= currentCategoryValue ->
  adjustTradeForPortfolio buy category recommendedAda total
                          currentCategoryValue userAdaBalance = 0.
Proof.
  intro H. unfold adjustTradeForPortfolio.
  assert (Hroom : Js.leb (targetRatios category * total - currentCategoryValue) 0 = true)
    by (apply JsFacts.leb_true; lra).
  now rewrite Hroom.
Qed.

(** The category defi holds exactly its cap of 150 out of 1000. *)
Lemma buy_at_or_over_target_returns_0_witness :
  targetRatios defi * 1000 <= 150 /\
  adjustTradeForPortfolio buy defi 100 1000 150 500 = 0.
Proof.
  split.
  - unfold targetRatios. lra.
  - apply (buy_at_or_over_target_returns_0 defi 100 1000 150 500).
    unfold targetRatios. lra.
Defined.

(** C2, as stated, fails: with defi at 300 of a 1000 total the room left is
    -150, the sizer returns 0, and 0 is above the claimed bound
    min(100, -150, 498). *)
Lemma buy_result_above_claimed_min :
  adjustTradeForPortfolio buy defi 100 1000 300 500 = 0 /\
  Qmin 100 (Qmin (roomLeft defi 1000 300) (500 - 2)) == -150 /\
  ~ (adjustTradeForPortfolio buy defi 100 1000 300 500
     <= Qmin 100 (Qmin (roomLeft defi 1000 300) (500 - 2))).
Proof.
  split; [reflexivity|]. split; [reflexivity|].
  intro H. vm_compute in H. apply H. reflexivity.
Qed.

(** C2, amended. On a buy the sizer never returns a negative amount; what it
    returns is at most min(recommendedAda, roomLeft, userAdaBalance - 2)
    whenever that minimum is not negative, and is 0 whenever it is negative. *)
Theorem buy_result_bounds
    (category : Category) (recommendedAda total currentCategoryValue userAdaBalance : Q) :
  let r := adjustTradeForPortfolio buy category recommendedAda total
                                   currentCategoryValue userAdaBalance in
  let bound := Qmin recommendedAda
                 (Qmin (roomLeft category total currentCategoryValue)
                       (userAdaBalance - 2)) in
  0 <= r /\ (0 <= bound -> r <= bound) /\ (bound < 0 -> r = 0).
Proof.
  cbn zeta.
  pose proof (buy_cases category recommendedAda total currentCategoryValue
                        userAdaBalance) as H.
  cbn zeta in H.
  set (room := roomLeft category total currentCategoryValue) in *.
  set (r := adjustTradeForPortfolio _ _ _ _ _ _) in *.
  destruct H as [[Hroom Hr]|[(Hroom & Hdust & Hr)|(Hroom & Hfinal & Hr)]].
  - rewrite Hr. split; [lra|]. split; [tauto|reflexivity].
  - rewrite Hr. split; [lra|]. split; [tauto|reflexivity].
  - rewrite Hr. clear Hr r. split; [|split].
    + lra.
    + revert Hfinal. bound_minmax.
    + revert Hfinal. bound_minmax.
Qed.

(** C9. A sell returns the recommended amount unchanged, whatever the total,
    the category value and the balance are; no holdings are looked at. *)
Theorem sell_returns_recommended
    (category : Category) (recommendedAda total currentCategoryValue userAdaBalance : Q) :
  adjustTradeForPortfolio sell category recommendedAda total
                          currentCategoryValue userAdaBalance = recommendedAda.
Proof. reflexivity. Qed.

(** ** Valuation *)

Lemma sum_categories_add_to (cv : Category -> Q) (c : Category) (v : Q) :
  sum_categories (add_to cv c v) == sum_categories cv + v.
Proof.
  unfold sum_categories, add_to, all_categories.
  destruct c; cbn; ring.
Qed.

Section ValuationInvariant.

Variable table : list TokenConfig.
Variable w : World.

Lemma valueAsset_balanced tokenPrices p asset :
  balanced p -> balanced (valueAsset table w tokenPrices p asset).
Proof.
  unfold balanced, valueAsset. intro H.
  destruct (Js.leb _ 0); [exact H|].
  cbn [totalAdaValue categoryValues].
  rewrite sum_categories_add_to, H. reflexivity.
Qed.

Lemma fold_valueAsset_balanced tokenPrices assets :
  forall p, balanced p ->
    balanced (fold_left (valueAsset table w tokenPrices) assets p).
Proof.
  induction assets as [|asset assets IH]; intros p H; cbn.
  - exact H.
  - apply IH, valueAsset_balanced, H.
Qed.

Lemma buildPortfolio_balanced addressInfo :
  balanced (buildPortfolio table w addressInfo).
Proof.
  destruct addressInfo as [info|]; cbn [buildPortfolio].
  - apply fold_valueAsset_balanced.
    unfold balanced, sum_categories, all_categories. cbn. ring.
  - unfold balanced, sum_categories, all_categories. cbn. ring.
Qed.

End ValuationInvariant.

(** C3. The portfolio an iteration builds has a total equal to the sum of its
    category values, for every address info (present or not) and every
    answer of the price and decimals lookups; in exact arithmetic the equality
    is exact.  It holds for the loop that keeps a running total and for the
    older loop that sums the categories at the end. *)
Theorem total_is_sum_of_categories :
  (forall table w addressInfo,
     let p := buildPortfolio table w addressInfo in
     totalAdaValue p == sum_categories (categoryValues p)) /\
  (forall classifyToken w addressInfo,
     let p := Legacy.buildPortfolio classifyToken w addressInfo in
     Legacy.totalAdaValue p == legacy_sum_categories (Legacy.categoryValues p)).
Proof.
  split.
  - intros table w addressInfo. apply buildPortfolio_balanced.
  - intros classifyToken w [info|]; cbn.
    + unfold Legacy.sumValues, legacy_sum_categories. cbn. ring.
    + unfold legacy_sum_categories. ring.
Qed.

(** C8, as stated, fails: a token configured with [decimals: 0] whose Iris
    metadata says 6.  The loop takes the metadata (0 is falsy), so one million
    raw units at price 2 are worth 2, not the 2000000 the claim gives. *)
Lemma zero_config_decimals_not_used :
  let table := [mkTokenConfig "aa" "A" (Some 0%Z) ai (Some 10) (Some 200)] in
  let w := offlineWorld (fun _ => Throw) (fun _ _ => Ok [Some 6%Z]) in
  let asset := mkWalletAsset "aa" 1000000 in
  decimals_config_when_present table w "aa" = 0%Z /\
  valueInAda table w asset 2 == 2 /\
  ~ (valueInAda table w asset 2
     == inject_Z 1000000 / 10 ^ decimals_config_when_present table w "aa" * 2).
Proof.
  cbn zeta. split; [reflexivity|]. split; [reflexivity|].
  intro H. vm_compute in H. discriminate H.
Qed.

(** C8, amended. A wallet asset with a positive price adds
    (rawQuantity / 10^decimals) * price to the total and to its category,
    where the decimals are those of the token's TokenConfig when present and
    not zero, and otherwise those of the external metadata lookup; the older
    loop applies no decimals and adds rawQuantity * price. *)
Theorem asset_contribution
    (table : list TokenConfig) (w : World) (tokenPrices : list (string * Q))
    (asset : WalletAsset) (price : Q) :
  Js.get tokenPrices (wa_unit asset) = Some price ->
  0 < price ->
  let decimals := decimals_config_when_nonzero table w (wa_unit asset) in
  let value := inject_Z (wa_quantity asset) / 10 ^ decimals * price in
  let category :=
    match getTokenConfig table (wa_unit asset) with
    | Some t => tc_category t
    | None => other
    end in
  (forall p,
     valueAsset table w tokenPrices p asset
     = mkPortfolio (totalAdaValue p + value) (add_to (categoryValues p) category value))
  /\
  (forall classifyToken cv,
     Legacy.valueAsset classifyToken tokenPrices cv asset
     = Legacy.add_to cv (classifyToken (wa_unit asset))
                     (inject_Z (wa_quantity asset) * price)).
Proof.
  intros Hget Hpos. cbn zeta.
  assert (Hprice : Js.opt_or_num (Js.get tokenPrices (wa_unit asset)) 0 = price).
  { rewrite Hget. cbn. destruct (JsFacts.or_num_cases price 0) as [[H _]|[_ H]].
    - lra.
    - exact H. }
  assert (Hskip : Js.leb price 0 = false) by (apply JsFacts.leb_false; exact Hpos).
  split.
  - intro p. unfold valueAsset. rewrite Hprice, Hskip.
    unfold valueInAda, resolveDecimals, decimals_config_when_nonzero, Js.opt_or_int.
    destruct (getTokenConfig table (wa_unit asset)) as [t|]; [|reflexivity].
    destruct (tc_decimals t) as [d|]; reflexivity.
  - intros classifyToken cv. unfold Legacy.valueAsset.
    rewrite Hprice, Hskip. reflexivity.
Qed.

(** One million raw units of a token configured with 6 decimals, at price 2. *)
Lemma asset_contribution_witness :
  let table := [mkTokenConfig "aa" "A" (Some 6%Z) ai (Some 10) (Some 200)] in
  let w := offlineWorld (fun _ => Throw) (fun _ _ => Throw) in
  let asset := mkWalletAsset "aa" 1000000 in
  Js.get [("aa", 2)] (wa_unit asset) = Some 2 /\
  0 < 2 /\
  forall p,
    valueAsset table w [("aa", 2)] p asset
    = mkPortfolio (totalAdaValue p + inject_Z 1000000 / 10 ^ 6 * 2)
                  (add_to (categoryValues p) ai (inject_Z 1000000 / 10 ^ 6 * 2)).
Proof.
  cbn zeta. split; [reflexivity|]. split; [lra|].
  apply (asset_contribution
           [mkTokenConfig "aa" "A" (Some 6%Z) ai (Some 10) (Some 200)]
           (offlineWorld (fun _ => Throw) (fun _ _ => Throw))
           [("aa", 2)] (mkWalletAsset "aa" 1000000) 2);
    [reflexivity|lra].
Defined.

(** ** The loop's monad *)

Lemma trace_bind {A B : Type} (m : M A) (f : A -> M B) :
  trace (bind m f)
  = trace m ++ match snd m with Ok a => trace (f a) | Throw => [] end.
Proof.
  destruct m as [t [a|]]; cbn.
  - destruct (f a); reflexivity.
  - now rewrite app_nil_r.
Qed.

Lemma bind_ok {A B : Type} (m : M A) (f : A -> M B) (a : A) :
  snd m = Ok a -> bind m f = (trace m ++ trace (f a), snd (f a)).
Proof.
  destruct m as [t r]; cbn. intros ->. destruct (f a); reflexivity.
Qed.

(** An event of a [for] loop is an event of one of its turns. *)
Lemma forEach_event {A : Type} (f : A -> M unit) (l : list A) (e : Event) :
  In e (trace (forEach f l)) -> exists a, In a l /\ In e (trace (f a)).
Proof.
  induction l as [|a l IH]; cbn [forEach].
  - intros [].
  - rewrite trace_bind. intro H. apply in_app_or in H. destruct H as [H|H].
    + exists a. split; [now left|exact H].
    + destruct (snd (f a)) as [[]|]; [|destruct H].
      destruct (IH H) as (a' & Hin & He). exists a'. split; [now right|exact He].
Qed.

(** When no turn throws, the loop runs every turn, in order. *)
Lemma forEach_all_ok {A : Type} (f : A -> M unit) (l : list A) :
  (forall a, In a l -> snd (f a) = Ok tt) ->
  forEach f l = (flat_map (fun a => trace (f a)) l, Ok tt).
Proof.
  induction l as [|a l IH]; intro H; cbn [forEach flat_map].
  - reflexivity.
  - rewrite (bind_ok (f a) _ tt) by (apply H; now left).
    rewrite IH by (intros a' Ha'; apply H; now right).
    reflexivity.
Qed.

(** A throwing turn ends the loop: the turns after it do not run. *)
Lemma forEach_throw {A : Type} (f : A -> M unit) (l1 l2 : list A) (a : A) :
  (forall x, In x l1 -> snd (f x) = Ok tt) ->
  snd (f a) = Throw ->
  forEach f (l1 ++ a :: l2)
  = (flat_map (fun x => trace (f x)) l1 ++ trace (f a), Throw).
Proof.
  induction l1 as [|x l1 IH]; intros Hok Hthrow; cbn [forEach flat_map app].
  - destruct (f a) as [t r]; cbn in *. subst r. reflexivity.
  - rewrite (bind_ok (f x) _ tt) by (apply Hok; now left).
    rewrite IH by (try assumption; intros y Hy; apply Hok; now right).
    cbn. now rewrite app_assoc.
Qed.

Lemma trace_try_catch {A : Type} (m h : M A) (e : Event) :
  In e (trace (try_catch m h)) -> In e (trace m) \/ In e (trace h).
Proof.
  destruct m as [t [a|]]; cbn.
  - now left.
  - destruct h as [t' r]; cbn. intro H. apply in_app_or in H. exact H.
Qed.

(** ** One token *)

Section TokenStep.

Variable table : list TokenConfig.
Variable w : World.
Variable addressInfo : option AddressInfo.
Variable p : Portfolio.
Variable tokenInfo : TapToolsVolumeToken.

Local Abbreviation decision := (decisionFor w tokenInfo).

Let step : M unit := tokenStep table w addressInfo p tokenInfo.

(** Split a goal about the step along the branches of the loop body. *)
Ltac step_cases :=
  unfold step, tokenStep, execute, callSizer;
  fold decision;
  destruct (trade decision) eqn:Htrade; cbn [negb];
  [ destruct (Js.ltb (confidence decision) confidenceThreshold) eqn:Hconf;
    [ | destruct (getTokenInfo table (vt_unit tokenInfo)) as [tokenConfig|] eqn:Hcfg;
        [ destruct addressInfo as [info|];
          [ destruct (Js.ltb _ 1) eqn:Hfinal | ];
          destruct (direction decision) as [dir|] eqn:Hdir
        | ] ]
  | ];
  cbn.

(** Split a membership in an explicit trace into the events it can be. *)
Ltac in_cases H :=
  repeat match type of H with
  | _ \/ _ => destruct H as [H|H]
  | False => destruct H
  | _ = _ => discriminate H
  end.

(** The step always starts by logging the decision: the token is evaluated. *)
Lemma tokenStep_logs_decision :
  exists rest, trace step = LogDecision (vt_ticker tokenInfo) decision :: rest.
Proof. step_cases; eexists; reflexivity. Qed.

(** The step throws only on a decision without direction. *)
Lemma tokenStep_ok :
  direction decision <> None -> snd step = Ok tt.
Proof. intro H. step_cases; congruence. Qed.

(** A decision that is no trade, or below the threshold, is only logged. *)
Lemma tokenStep_no_trade :
  trade decision = false ->
  step = ([LogDecision (vt_ticker tokenInfo) decision;
           LogSkipNoTrade (vt_ticker tokenInfo)], Ok tt).
Proof. intro H. step_cases; congruence. Qed.

Lemma tokenStep_low_confidence :
  confidence decision < confidenceThreshold ->
  step = ([LogDecision (vt_ticker tokenInfo) decision;
           LogSkipNoTrade (vt_ticker tokenInfo)], Ok tt) \/
  step = ([LogDecision (vt_ticker tokenInfo) decision;
           LogSkipConfidence (vt_ticker tokenInfo) (confidence decision)], Ok tt).
Proof.
  intro H. apply JsFacts.ltb_true in H.
  step_cases; try congruence; auto.
Qed.

(** What a call to the sizer was given. *)
Lemma tokenStep_sizer d category r total catValueNow userAdaBal :
  In (CallSizer d category r total catValueNow userAdaBal) (trace step) ->
  exists tokenConfig,
    getTokenInfo table (vt_unit tokenInfo) = Some tokenConfig /\
    trade decision = true /\
    confidenceThreshold <= confidence decision /\
    addressInfo <> None /\
    d = direction decision /\
    category = tc_category tokenConfig /\
    r = recommended tokenConfig decision /\
    total = totalAdaValue p /\
    catValueNow = categoryValues p (tc_category tokenConfig) /\
    userAdaBal = categoryValues p ada.
Proof.
  step_cases; intro H; in_cases H;
    injection H as <- <- <- <- <- <-;
    apply JsFacts.ltb_false in Hconf;
    exists tokenConfig; repeat split; congruence || assumption.
Qed.

(** What a call to the swap executor was given. *)
Lemma tokenStep_swap d quantityAda unit :
  In (CallDexSwap d quantityAda unit) (trace step) ->
  exists tokenConfig,
    getTokenInfo table (vt_unit tokenInfo) = Some tokenConfig /\
    trade decision = true /\
    confidenceThreshold <= confidence decision /\
    direction decision = Some d /\
    unit = vt_unit tokenInfo /\
    ((addressInfo = None /\ quantityAda = recommended tokenConfig decision) \/
     (addressInfo <> None /\ 1 <= quantityAda /\
      quantityAda
      = adjustTradeForPortfolio d (tc_category tokenConfig)
          (recommended tokenConfig decision) (totalAdaValue p)
          (categoryValues p (tc_category tokenConfig)) (categoryValues p ada))).
Proof.
  step_cases; intro H; in_cases H;
    injection H as <- <- <-;
    apply JsFacts.ltb_false in Hconf;
    exists tokenConfig; repeat split; try assumption.
  - right. apply JsFacts.ltb_false in Hfinal.
    repeat split; [discriminate|exact Hfinal].
  - left. split; reflexivity.
Qed.

(** The step never reports a missing token config. *)
Lemma tokenStep_no_missing_config ticker :
  ~ In (LogSkipNoConfig ticker) (trace step).
Proof.
  step_cases; intro H; in_cases H.
  unfold getTokenInfo in Hcfg.
  destruct (getTokenConfigByTicker table (vt_unit tokenInfo)); discriminate Hcfg.
Qed.

(** The step throws when a decision without direction passes the gate and
    is not stopped by the sizing. *)
Lemma tokenStep_throws :
  trade decision = true ->
  confidenceThreshold <= confidence decision ->
  direction decision = None ->
  (addressInfo = None \/
   forall tokenConfig,
     getTokenInfo table (vt_unit tokenInfo) = Some tokenConfig ->
     1 <= recommended tokenConfig decision) ->
  snd step = Throw.
Proof.
  intros Ht Hc Hd Hsize. apply JsFacts.ltb_false in Hc.
  step_cases; try congruence.
  - apply JsFacts.ltb_true in Hfinal.
    destruct Hsize as [Hnone|Hrec]; [discriminate Hnone|].
    specialize (Hrec tokenConfig eq_refl). lra.
  - unfold getTokenInfo in Hcfg.
    destruct (getTokenConfigByTicker table (vt_unit tokenInfo)); discriminate Hcfg.
Qed.

(** Without address info, a decision that passes the gate and carries a
    direction is handed to the swap executor with its recommended size. *)
Lemma tokenStep_executes_unconstrained d :
  addressInfo = None ->
  trade decision = true ->
  confidenceThreshold <= confidence decision ->
  direction decision = Some d ->
  exists tokenConfig,
    getTokenInfo table (vt_unit tokenInfo) = Some tokenConfig /\
    In (CallDexSwap d (recommended tokenConfig decision) (vt_unit tokenInfo))
       (trace step).
Proof.
  step_cases; intros Ha Ht Hc Hd;
    try discriminate;
    try (apply JsFacts.ltb_true in Hconf; lra);
    try (unfold getTokenInfo in Hcfg;
         destruct (getTokenConfigByTicker table (vt_unit tokenInfo));
         discriminate Hcfg).
  injection Hd as <-. exists tokenConfig. split; [reflexivity|].
  right. right. left. reflexivity.
Qed.

(** The step calls the swap executor at most once, for the unit of its
    token. *)
Lemma tokenStep_swapCalls :
  swapCalls (trace step) = [] \/
  exists d quantityAda,
    swapCalls (trace step) = [(d, quantityAda, vt_unit tokenInfo)].
Proof.
  step_cases; (left; reflexivity) || (right; eexists _, _; reflexivity).
Qed.

End TokenStep.

(** ** One iteration *)

Section Iteration.

Variable table : list TokenConfig.
Variable tokenSource : TokenSource.
Variable CARDANO_ADDRESS : option string.
Variable w : World.

Let tokens := getTopTokens table tokenSource w.
Let addressInfo := addressInfoOfIteration CARDANO_ADDRESS w.
Let p := buildPortfolio table w addressInfo.
Let run := loop table tokenSource CARDANO_ADDRESS w.

(** The iteration, with its locals named. *)
Lemma loop_unfold :
  run = try_catch
          (match tokens with
           | [] => emit LogNoTokens
           | _ :: _ => forEach (tokenStep table w addressInfo p) tokens
           end)
          (emit LogMainLoopError).
Proof. reflexivity. Qed.

(** With tokens to evaluate, the iteration is the loop over them. *)
Lemma loop_nonempty :
  tokens <> [] ->
  run = try_catch (forEach (tokenStep table w addressInfo p) tokens)
                  (emit LogMainLoopError).
Proof.
  intro H. rewrite loop_unfold. destruct tokens; [contradiction|reflexivity].
Qed.

(** An event of the iteration is one of the two loop-level logs or an event
    of the step of one of the iteration's tokens. *)
Lemma loop_event (e : Event) :
  In e (trace run) ->
  e = LogNoTokens \/ e = LogMainLoopError \/
  exists tokenInfo,
    In tokenInfo tokens /\ In e (trace (tokenStep table w addressInfo p tokenInfo)).
Proof.
  rewrite loop_unfold. intro H. apply trace_try_catch in H. destruct H as [H|H].
  - destruct tokens as [|t ts] eqn:E.
    + cbn in H. destruct H as [<-|[]]. now left.
    + rewrite <- E in H. apply forEach_event in H. right. right.
      rewrite <- E. exact H.
  - cbn in H. destruct H as [<-|[]]. right. now left.
Qed.

(** When every decision of the iteration carries a direction, the iteration
    runs the step of every token, in order, and does not reach its catch. *)
Lemma loop_all_tokens :
  tokens <> [] ->
  (forall tokenInfo, In tokenInfo tokens ->
     direction (decisionFor w tokenInfo) <> None) ->
  run = (flat_map (fun tokenInfo => trace (tokenStep table w addressInfo p tokenInfo))
                  tokens, Ok tt).
Proof.
  intros Hne Hdir. rewrite loop_unfold.
  assert (H : forEach (tokenStep table w addressInfo p) tokens
              = (flat_map (fun tokenInfo =>
                   trace (tokenStep table w addressInfo p tokenInfo)) tokens, Ok tt)).
  { apply forEach_all_ok. intros t Ht. apply tokenStep_ok, Hdir, Ht. }
  destruct tokens as [|t ts] eqn:E; [congruence|].
  rewrite H. reflexivity.
Qed.

End Iteration.

(** ** The configuration a token is sized with *)

Section TokenInfo.

Variable table : list TokenConfig.

Lemma getTokenInfo_cases (unit : string) :
  (exists configuredToken,
     getTokenInfo table unit = Some configuredToken /\
     In configuredToken table /\ tc_ticker configuredToken = unit) \/
  (getTokenInfo table unit = Some (fallbackConfig unit) /\
   forall t, In t table -> tc_ticker t <> unit).
Proof.
  unfold getTokenInfo, getTokenConfigByTicker.
  destruct (find _ table) as [t|] eqn:E.
  - left. exists t. apply find_some in E. destruct E as [Hin Heq].
    apply String.eqb_eq in Heq. auto.
  - right. split; [reflexivity|]. intros t Hin Heq.
    apply (find_none _ _ E) in Hin. apply String.eqb_neq in Hin. contradiction.
Qed.

Lemma getTokenInfo_of_no_ticker (unit : string) :
  (forall t, In t table -> tc_ticker t <> unit) ->
  getTokenInfo table unit = Some (fallbackConfig unit).
Proof.
  intro H. destruct (getTokenInfo_cases unit) as [(t & _ & Hin & Heq)|[E _]].
  - exfalso. exact (H t Hin Heq).
  - exact E.
Qed.

(** Clamping: with ordered bounds the recommended size lies between them. *)
Lemma recommended_clamped (tokenConfig : TokenConfig) (decision : LlmDecision) :
  minSize tokenConfig <= maxSize tokenConfig ->
  minSize tokenConfig <= recommended tokenConfig decision <= maxSize tokenConfig.
Proof.
  unfold recommended. intro H.
  set (x := Js.or_num (size decision) (minSize tokenConfig)) in *. clearbody x.
  set (lo := minSize tokenConfig) in *. clearbody lo.
  set (hi := maxSize tokenConfig) in *. clearbody hi.
  bound_minmax.
Qed.

(** Whatever the order of the bounds, the recommended size is at least the
    smaller of the two. *)
Lemma recommended_ge (tokenConfig : TokenConfig) (decision : LlmDecision) (b : Q) :
  b <= minSize tokenConfig -> b <= maxSize tokenConfig ->
  b <= recommended tokenConfig decision.
Proof.
  unfold recommended. intros Hlo Hhi.
  set (x := Js.or_num (size decision) (minSize tokenConfig)) in *. clearbody x.
  set (lo := minSize tokenConfig) in *. clearbody lo.
  set (hi := maxSize tokenConfig) in *. clearbody hi.
  bound_minmax.
Qed.

Lemma getTokenInfo_sizes (unit : string) (tokenConfig : TokenConfig) :
  sizes_at_least_1 table = true ->
  getTokenInfo table unit = Some tokenConfig ->
  1 <= minSize tokenConfig /\ 1 <= maxSize tokenConfig.
Proof.
  intros Hall Hcfg.
  destruct (getTokenInfo_cases unit) as [(t & E & Hin & _)|[E _]];
    rewrite E in Hcfg; injection Hcfg as <-.
  - unfold sizes_at_least_1 in Hall. rewrite forallb_forall in Hall.
    specialize (Hall t Hin). apply andb_true_iff in Hall.
    destruct Hall as [H1 H2].
    split; now apply JsFacts.leb_true.
  - split; vm_compute; discriminate.
Qed.

End TokenInfo.

(** A trade size that is set and not zero is the bound the loop uses. *)
Lemma opt_or_num_set (a d : Q) : ~ a == 0 -> Js.opt_or_num (Some a) d = a.
Proof.
  intro H. cbn. destruct (JsFacts.or_num_cases a d) as [[H0 _]|[_ E]];
    [contradiction|exact E].
Qed.

(** Every config of the shipped table, and the fallback config, is sized
    between 10 and 200. *)
Lemma shipped_sizes (unit : string) (tokenConfig : TokenConfig) :
  getTokenInfo TRADING_TOKENS unit = Some tokenConfig ->
  minSize tokenConfig = 10 /\ maxSize tokenConfig = 200.
Proof.
  intro H.
  destruct (getTokenInfo_cases TRADING_TOKENS unit) as [(t & E & Hin & _)|[E _]];
    rewrite E in H; injection H as <-.
  - cbn in Hin.
    repeat (destruct Hin as [<-|Hin]; [split; reflexivity|]). destruct Hin.
  - split; reflexivity.
Qed.

(** With sizes of at least 1 ADA in the table, every swap of an iteration is
    for at least 1 ADA. *)
Lemma swap_at_least_1_of_sizes
    (table : list TokenConfig) (tokenSource : TokenSource)
    (CARDANO_ADDRESS : option string) (w : World)
    (d : Direction) (quantityAda : Q) (unit : string) :
  sizes_at_least_1 table = true ->
  In (CallDexSwap d quantityAda unit)
     (trace (loop table tokenSource CARDANO_ADDRESS w)) ->
  1 <= quantityAda.
Proof.
  intros Hsizes H. apply loop_event in H.
  destruct H as [H|[H|(tokenInfo & _ & H)]]; try discriminate H.
  apply tokenStep_swap in H.
  destruct H as (cfg & Hcfg & _ & _ & _ & _ & [[_ ->]|(_ & Hge & _)]).
  - destruct (getTokenInfo_sizes table _ _ Hsizes Hcfg) as [Hlo Hhi].
    now apply recommended_ge.
  - exact Hge.
Qed.

(** ** The claims about the gate, the token configuration and the swaps *)

(** C4. A decision whose confidence is below 0.6 is rejected whatever its
    direction and size: the step only logs, it calls neither the sizer nor the
    swap executor, and it ends normally.  For a decision that passes, the
    size handed to the sizer is the clamped one: it lies between the token's
    minimum and maximum trade size (50 and 500 where a size is not set or is
    zero), the two being ordered as the TokenConfig invariant requires; they
    are ordered for every config the shipped table or the fallback gives. *)
Theorem gate_rejects_and_clamps
    (table : list TokenConfig) (w : World) (addressInfo : option AddressInfo)
    (p : Portfolio) (tokenInfo : TapToolsVolumeToken) :
  let decision := decisionFor w tokenInfo in
  let step := tokenStep table w addressInfo p tokenInfo in
  (confidence decision < 6 # 10 ->
     snd step = Ok tt /\
     (forall d category r total catValueNow userAdaBal,
        ~ In (CallSizer d category r total catValueNow userAdaBal) (trace step)) /\
     (forall d quantityAda unit, ~ In (CallDexSwap d quantityAda unit) (trace step)))
  /\
  (forall d category r total catValueNow userAdaBal,
     In (CallSizer d category r total catValueNow userAdaBal) (trace step) ->
     exists tokenConfig,
       getTokenInfo table (vt_unit tokenInfo) = Some tokenConfig /\
       6 # 10 <= confidence decision /\
       r = recommended tokenConfig decision /\
       (minSize tokenConfig <= maxSize tokenConfig ->
        minSize tokenConfig <= r <= maxSize tokenConfig) /\
       (forall lo hi,
          tc_minTradeSize tokenConfig = Some lo ->
          tc_maxTradeSize tokenConfig = Some hi ->
          0 < lo -> lo <= hi -> lo <= r <= hi))
  /\
  (forall unit tokenConfig,
     getTokenInfo TRADING_TOKENS unit = Some tokenConfig ->
     minSize tokenConfig <= maxSize tokenConfig).
Proof.
  cbn zeta. split; [|split].
  - intro Hlow.
    destruct (tokenStep_low_confidence table w addressInfo p tokenInfo Hlow)
      as [-> | ->]; cbn;
      (split; [reflexivity|]); split; intros; intros [H|[H|[]]]; discriminate H.
  - intros d category r total catValueNow userAdaBal H.
    apply tokenStep_sizer in H.
    destruct H as (cfg & Hcfg & _ & Hconf & _ & _ & _ & -> & _).
    exists cfg. split; [exact Hcfg|]. split; [exact Hconf|]. split; [reflexivity|].
    split; [apply recommended_clamped|].
    intros lo hi Hlo Hhi Hpos Hle.
    assert (Emin : minSize cfg = lo)
      by (unfold minSize; rewrite Hlo; apply opt_or_num_set; lra).
    assert (Emax : maxSize cfg = hi)
      by (unfold maxSize; rewrite Hhi; apply opt_or_num_set; lra).
    rewrite <- Emin, <- Emax in *. now apply recommended_clamped.
  - intros unit cfg Hcfg. destruct (shipped_sizes unit cfg Hcfg) as [-> ->]. lra.
Qed.

(** A decision of confidence 0.9 asking for 1000 ADA of a token that is sized
    between 10 and 200: the sizer is handed 200; the same decision at
    confidence 0.4 reaches neither the sizer nor the swap executor. *)
Lemma gate_rejects_and_clamps_witness :
  let decide c := fun _ : TokenData => Ok (mkLlmDecision true (Some buy) c 1000) in
  let info := Some (mkAddressInfo (Some 1000000000%Z) None) in
  let tokenInfo := mkVolumeToken 0 "A" "aa" 0 in
  let w := offlineWorld (decide (9 # 10)) (fun _ _ => Throw) in
  let w' := offlineWorld (decide (4 # 10)) (fun _ _ => Throw) in
  In (CallSizer (Some buy) other 200 (1000000000 # 1000000) 0
                (1000000000 # 1000000))
     (trace (tokenStep [] w info (buildPortfolio [] w info) tokenInfo)) /\
  minSize (fallbackConfig "aa") <= 200 <= maxSize (fallbackConfig "aa") /\
  confidence (decisionFor w' tokenInfo) < 6 # 10 /\
  snd (tokenStep [] w' info (buildPortfolio [] w' info) tokenInfo) = Ok tt.
Proof.
  cbn zeta.
  set (decide := fun (c : Q) (_ : TokenData) =>
                   Ok (mkLlmDecision true (Some buy) c 1000)).
  set (info := Some (mkAddressInfo (Some 1000000000%Z) None)).
  set (tokenInfo := mkVolumeToken 0 "A" "aa" 0).
  set (w := offlineWorld (decide (9 # 10)) (fun _ _ => Throw)).
  set (w' := offlineWorld (decide (4 # 10)) (fun _ _ => Throw)).
  assert (Hin : In (CallSizer (Some buy) other 200 (1000000000 # 1000000) 0
                (1000000000 # 1000000))
                   (trace (tokenStep [] w info (buildPortfolio [] w info) tokenInfo))).
  { vm_compute. right. left. reflexivity. }
  assert (Hlow : confidence (decisionFor w' tokenInfo) < 6 # 10)
    by (vm_compute; reflexivity).
  split; [exact Hin|].
  destruct (proj1 (proj2 (gate_rejects_and_clamps [] w info (buildPortfolio [] w info)
                            tokenInfo)) _ _ _ _ _ _ Hin)
    as (cfg & Hcfg & _ & _ & Hclamp & _).
  injection Hcfg as <-.
  split; [apply Hclamp; vm_compute; discriminate|].
  split; [exact Hlow|].
  exact (proj1 (proj1 (gate_rejects_and_clamps [] w' info (buildPortfolio [] w' info)
                         tokenInfo) Hlow)).
Defined.

(** C7. Whenever an iteration calls the swap executor, the ADA amount it
    passes is at least 1.  With address info the loop skips a sized amount
    below 1; without it the amount is the recommended size, which the shipped
    token table and the fallback config keep between 10 and 200. *)
Theorem swap_amount_at_least_1
    (tokenSource : TokenSource) (CARDANO_ADDRESS : option string) (w : World)
    (d : Direction) (quantityAda : Q) (unit : string) :
  In (CallDexSwap d quantityAda unit)
     (trace (loop TRADING_TOKENS tokenSource CARDANO_ADDRESS w)) ->
  1 <= quantityAda.
Proof. apply swap_at_least_1_of_sizes. reflexivity. Qed.

(** The units of the shipped table, all bought for 100 ADA without address. *)
Lemma swap_amount_at_least_1_witness :
  let w := offlineWorld (fun _ => Ok (mkLlmDecision true (Some buy) (9 # 10) 100))
                        (fun _ _ => Throw) in
  let unit := "279c909f348e533da5808898f87f9a14bb2c3dfbbacccd631d927a3f534e454b" in
  In (CallDexSwap buy 100 unit) (trace (loop TRADING_TOKENS PREDEFINED_LIST None w)) /\
  1 <= 100.
Proof.
  cbn zeta.
  assert (H : In (CallDexSwap buy 100
                    "279c909f348e533da5808898f87f9a14bb2c3dfbbacccd631d927a3f534e454b")
                 (trace (loop TRADING_TOKENS PREDEFINED_LIST None
                           (offlineWorld
                              (fun _ => Ok (mkLlmDecision true (Some buy) (9 # 10) 100))
                              (fun _ _ => Throw))))).
  { vm_compute. repeat (first [left; reflexivity | right]). }
  split; [exact H|].
  exact (swap_amount_at_least_1 _ _ _ _ _ _ H).
Defined.

(** C10. [getTokenInfo] compares its unit argument with the configured
    tickers: a unit that is no configured ticker gets the fallback config,
    of category other and sized between 10 and 200.  It returns a config for
    every unit, so no iteration logs a missing token config. *)
Theorem getTokenInfo_falls_back (table : list TokenConfig) :
  (forall unit,
     getTokenInfo table unit
     = match getTokenConfigByTicker table unit with
       | Some configuredToken => Some configuredToken
       | None => Some (fallbackConfig unit)
       end) /\
  (forall unit,
     (forall t, In t table -> tc_ticker t <> unit) ->
     getTokenInfo table unit = Some (fallbackConfig unit) /\
     tc_category (fallbackConfig unit) = other /\
     tc_minTradeSize (fallbackConfig unit) = Some 10 /\
     tc_maxTradeSize (fallbackConfig unit) = Some 200) /\
  (forall unit, getTokenInfo table unit <> None) /\
  (forall tokenSource CARDANO_ADDRESS w ticker,
     ~ In (LogSkipNoConfig ticker)
          (trace (loop table tokenSource CARDANO_ADDRESS w))).
Proof.
  split; [reflexivity|]. split; [|split].
  - intros unit Hno. repeat split. now apply getTokenInfo_of_no_ticker.
  - intro unit. unfold getTokenInfo.
    destruct (getTokenConfigByTicker table unit); discriminate.
  - intros tokenSource CARDANO_ADDRESS w ticker H.
    apply loop_event in H.
    destruct H as [H|[H|(tokenInfo & _ & H)]]; try discriminate H.
    exact (tokenStep_no_missing_config _ _ _ _ _ _ H).
Qed.

(** The unit of SNEK is a configured unit but no configured ticker: the
    lookup by ticker misses it and SNEK is sized as category other. *)
Lemma getTokenInfo_falls_back_witness :
  let unit := "279c909f348e533da5808898f87f9a14bb2c3dfbbacccd631d927a3f534e454b" in
  (forall t, In t TRADING_TOKENS -> tc_ticker t <> unit) /\
  getTokenInfo TRADING_TOKENS unit = Some (fallbackConfig unit) /\
  tc_category (fallbackConfig unit) = other.
Proof.
  cbn zeta.
  assert (Hno : forall t, In t TRADING_TOKENS ->
                  tc_ticker t
                  <> "279c909f348e533da5808898f87f9a14bb2c3dfbbacccd631d927a3f534e454b").
  { intros t Hin. cbn in Hin.
    repeat (destruct Hin as [<-|Hin]; [discriminate|]). destruct Hin. }
  split; [exact Hno|].
  destruct (proj1 (proj2 (getTokenInfo_falls_back TRADING_TOKENS)) _ Hno)
    as (H1 & H2 & _).
  split; [exact H1|exact H2].
Defined.

(** ** Failures *)

Lemma fetchTokenData_default (w : World) (tokenInfo : TapToolsVolumeToken) :
  market_data_fails w (vt_unit tokenInfo) ->
  fetchTokenData w tokenInfo = defaultTokenData tokenInfo.
Proof.
  intros (H1 & H2 & H3 & H4 & H5 & H6).
  unfold fetchTokenData, defaultTokenData, taptoolsGetTokenPrices,
    taptoolsGetTokenPriceChg, taptoolsGetTokenPools, taptoolsGetTokenOhlcv,
    taptoolsGetTokenTradingStats, taptoolsGetTokenMcap.
  rewrite H1, H2, H3, H4, H5, H6. reflexivity.
Qed.

Lemma tokenStep_decision_throws
    (table : list TokenConfig) (w : World) (addressInfo : option AddressInfo)
    (p : Portfolio) (tokenInfo : TapToolsVolumeToken) :
  openai_decision w (fetchTokenData w tokenInfo) = Throw ->
  tokenStep table w addressInfo p tokenInfo
  = ([LogDecision (vt_ticker tokenInfo) (llm_error_decision);
      LogSkipNoTrade (vt_ticker tokenInfo)], Ok tt).
Proof.
  intro H.
  assert (Hd : decisionFor w tokenInfo = llm_error_decision).
  { unfold decisionFor, getLlmTradingDecision. now rewrite H. }
  rewrite <- Hd. apply tokenStep_no_trade. now rewrite Hd.
Qed.

(** C5, as stated, fails: every market-data request about the token throws,
    the decision source still answers (on the default data) with a buy, and
    the token is not skipped: the swap executor is called for it. *)
Lemma failed_fetch_token_not_skipped :
  let table := [mkTokenConfig "aa" "A" None ai (Some 10) (Some 200)] in
  let w := offlineWorld (fun _ => Ok (mkLlmDecision true (Some buy) (9 # 10) 100))
                        (fun _ _ => Throw) in
  market_data_fails w "aa" /\
  loop table PREDEFINED_LIST None w
  = ([LogDecision "A" (mkLlmDecision true (Some buy) (9 # 10) 100);
      LogExecuting buy 100 "A";
      CallDexSwap buy 100 "aa"], Ok tt) /\
  ~ skipped "aa" (trace (loop table PREDEFINED_LIST None w)).
Proof.
  cbn zeta. split; [repeat split|]. split; [reflexivity|].
  intro H. apply (H buy 100). vm_compute. right. right. left. reflexivity.
Qed.

(** C5, amended. A failing market-data request is caught inside its helper
    and replaced by an empty default, and the token is still evaluated, on
    that data; a failing decision request is caught and replaced by a
    no-trade decision, so that token is skipped.  Neither failure ends the
    iteration: as long as every decision of the iteration carries a
    direction, the iteration evaluates every token, in order, and ends
    without reaching its catch. *)
Theorem failures_are_contained
    (table : list TokenConfig) (tokenSource : TokenSource)
    (CARDANO_ADDRESS : option string) (w : World) :
  let tokens := getTopTokens table tokenSource w in
  let addressInfo := addressInfoOfIteration CARDANO_ADDRESS w in
  let p := buildPortfolio table w addressInfo in
  let run := loop table tokenSource CARDANO_ADDRESS w in
  (forall tokenInfo,
     market_data_fails w (vt_unit tokenInfo) ->
     fetchTokenData w tokenInfo = defaultTokenData tokenInfo /\
     exists rest,
       trace (tokenStep table w addressInfo p tokenInfo)
       = LogDecision (vt_ticker tokenInfo)
                     (getLlmTradingDecision w (defaultTokenData tokenInfo)) :: rest) /\
  (forall tokenInfo,
     openai_decision w (fetchTokenData w tokenInfo) = Throw ->
     tokenStep table w addressInfo p tokenInfo
     = ([LogDecision (vt_ticker tokenInfo) llm_error_decision;
         LogSkipNoTrade (vt_ticker tokenInfo)], Ok tt)) /\
  ((forall tokenInfo, In tokenInfo tokens ->
      direction (decisionFor w tokenInfo) <> None) ->
   snd run = Ok tt /\
   trace run
   = match tokens with
     | [] => [LogNoTokens]
     | _ :: _ =>
         flat_map (fun tokenInfo => trace (tokenStep table w addressInfo p tokenInfo))
                  tokens
     end /\
   (forall tokenInfo, In tokenInfo tokens ->
      In (LogDecision (vt_ticker tokenInfo) (decisionFor w tokenInfo)) (trace run))).
Proof.
  cbn zeta. split; [|split].
  - intros tokenInfo Hfail. split; [now apply fetchTokenData_default|].
    destruct (tokenStep_logs_decision table w
                (addressInfoOfIteration CARDANO_ADDRESS w)
                (buildPortfolio table w (addressInfoOfIteration CARDANO_ADDRESS w))
                tokenInfo) as [rest Hrest].
    exists rest. rewrite Hrest. unfold decisionFor.
    now rewrite fetchTokenData_default.
  - intros tokenInfo Hthrow. now apply tokenStep_decision_throws.
  - intro Hdir.
    assert (Hrun :
      loop table tokenSource CARDANO_ADDRESS w
      = (match getTopTokens table tokenSource w with
         | [] => [LogNoTokens]
         | _ :: _ =>
             flat_map
               (fun tokenInfo =>
                  trace (tokenStep table w (addressInfoOfIteration CARDANO_ADDRESS w)
                           (buildPortfolio table w
                              (addressInfoOfIteration CARDANO_ADDRESS w)) tokenInfo))
               (getTopTokens table tokenSource w)
         end, Ok tt)).
    { destruct (getTopTokens table tokenSource w) as [|t ts] eqn:E.
      - unfold loop. rewrite E. reflexivity.
      - rewrite <- E. apply loop_all_tokens; [congruence|].
        intros tokenInfo Hin. apply Hdir. rewrite <- E. exact Hin. }
    rewrite Hrun. split; [reflexivity|]. split; [reflexivity|].
    intros tokenInfo Hin. cbn [trace fst].
    destruct (getTopTokens table tokenSource w) as [|t ts] eqn:E; [destruct Hin|].
    rewrite <- E in *. apply in_flat_map. exists tokenInfo. split; [exact Hin|].
    destruct (tokenStep_logs_decision table w
                (addressInfoOfIteration CARDANO_ADDRESS w)
                (buildPortfolio table w (addressInfoOfIteration CARDANO_ADDRESS w))
                tokenInfo) as [rest ->].
    now left.
Qed.

(** Two tokens: the decision request about the first throws, the second is
    bought; the first is skipped and the second is still evaluated. *)
Lemma failures_are_contained_witness :
  let table := [mkTokenConfig "aa" "A" None ai (Some 10) (Some 200);
                mkTokenConfig "bb" "B" None defi (Some 10) (Some 200)] in
  let w := offlineWorld
             (fun tokenData =>
                if String.eqb (td_unit tokenData) "aa" then Throw
                else Ok (mkLlmDecision true (Some buy) (9 # 10) 100))
             (fun _ _ => Throw) in
  (forall tokenInfo, In tokenInfo (getTopTokens table PREDEFINED_LIST w) ->
     direction (decisionFor w tokenInfo) <> None) /\
  snd (loop table PREDEFINED_LIST None w) = Ok tt /\
  trace (loop table PREDEFINED_LIST None w)
  = [LogDecision "A" (mkLlmDecision false (Some buy) 0 0);
     LogSkipNoTrade "A";
     LogDecision "B" (mkLlmDecision true (Some buy) (9 # 10) 100);
     LogExecuting buy 100 "B";
     CallDexSwap buy 100 "bb"].
Proof.
  cbn zeta.
  set (table := [mkTokenConfig "aa" "A" None ai (Some 10) (Some 200);
                 mkTokenConfig "bb" "B" None defi (Some 10) (Some 200)]).
  set (w := offlineWorld
              (fun tokenData =>
                 if String.eqb (td_unit tokenData) "aa" then Throw
                 else Ok (mkLlmDecision true (Some buy) (9 # 10) 100))
              (fun _ _ => Throw)).
  assert (Hdir : forall tokenInfo,
             In tokenInfo (getTopTokens table PREDEFINED_LIST w) ->
             direction (decisionFor w tokenInfo) <> None).
  { intros tokenInfo Hin. cbn in Hin.
    destruct Hin as [<-|[<-|[]]]; cbn; discriminate. }
  split; [exact Hdir|].
  destruct (proj2 (proj2 (failures_are_contained table PREDEFINED_LIST None w)) Hdir)
    as (Hok & Htrace & _).
  split; [exact Hok|]. rewrite Htrace. reflexivity.
Defined.


(** C6, as stated, fails: an address is configured, the address-info request
    throws, and the iteration does not end early: the token is evaluated and
    bought for its recommended 100 ADA. *)
Lemma failed_address_lookup_still_trades :
  let table := [mkTokenConfig "aa" "A" None ai (Some 10) (Some 200)] in
  let w := offlineWorld (fun _ => Ok (mkLlmDecision true (Some buy) (9 # 10) 100))
                        (fun _ _ => Throw) in
  Js.truthy_string (Some "addr1qxy") = Some "addr1qxy" /\
  taptoolsGetAddressInfo w "addr1qxy" = None /\
  loop table PREDEFINED_LIST (Some "addr1qxy") w
  = ([LogDecision "A" (mkLlmDecision true (Some buy) (9 # 10) 100);
      LogExecuting buy 100 "A";
      CallDexSwap buy 100 "aa"], Ok tt).
Proof. cbn zeta. repeat split. Qed.

(** C6, amended. When the address-info lookup returns no data, whether an
    address is configured or not, the iteration does not end early: it runs
    exactly as it does without a configured address.  The portfolio stays at
    zero, the sizer is not called, and every swap the iteration calls is for
    the recommended size of a decision that passed the gate.  As long as
    every decision of the iteration carries a direction, the iteration ends
    without reaching its catch, every token of its list is evaluated, and
    every token whose decision passes the gate is handed to the swap executor
    with its recommended size. *)
Theorem no_address_info_runs_unconstrained
    (table : list TokenConfig) (tokenSource : TokenSource)
    (CARDANO_ADDRESS : option string) (w : World) :
  addressInfoOfIteration CARDANO_ADDRESS w = None ->
  let tokens := getTopTokens table tokenSource w in
  let run := loop table tokenSource CARDANO_ADDRESS w in
  run = loop table tokenSource None w /\
  buildPortfolio table w (addressInfoOfIteration CARDANO_ADDRESS w) = emptyPortfolio /\
  (forall d category r total catValueNow userAdaBal,
     ~ In (CallSizer d category r total catValueNow userAdaBal) (trace run)) /\
  (forall d quantityAda unit,
     In (CallDexSwap d quantityAda unit) (trace run) ->
     exists tokenInfo tokenConfig,
       In tokenInfo tokens /\
       unit = vt_unit tokenInfo /\
       getTokenInfo table unit = Some tokenConfig /\
       6 # 10 <= confidence (decisionFor w tokenInfo) /\
       quantityAda = recommended tokenConfig (decisionFor w tokenInfo)) /\
  ((forall tokenInfo, In tokenInfo tokens ->
      direction (decisionFor w tokenInfo) <> None) ->
   snd run = Ok tt /\
   (forall tokenInfo, In tokenInfo tokens ->
      In (LogDecision (vt_ticker tokenInfo) (decisionFor w tokenInfo)) (trace run)) /\
   (forall tokenInfo d, In tokenInfo tokens ->
      trade (decisionFor w tokenInfo) = true ->
      6 # 10 <= confidence (decisionFor w tokenInfo) ->
      direction (decisionFor w tokenInfo) = Some d ->
      exists tokenConfig,
        getTokenInfo table (vt_unit tokenInfo) = Some tokenConfig /\
        In (CallDexSwap d (recommended tokenConfig (decisionFor w tokenInfo))
                        (vt_unit tokenInfo))
           (trace run))).
Proof.
  intro Hnone. cbn zeta. split; [|split; [|split; [|split]]].
  - unfold loop. rewrite Hnone. reflexivity.
  - rewrite Hnone. reflexivity.
  - intros d category r total catValueNow userAdaBal H.
    apply loop_event in H.
    destruct H as [H|[H|(tokenInfo & _ & H)]]; try discriminate H.
    apply tokenStep_sizer in H.
    destruct H as (_ & _ & _ & _ & Hsome & _). apply Hsome, Hnone.
  - intros d quantityAda unit H.
    apply loop_event in H.
    destruct H as [H|[H|(tokenInfo & Hin & H)]]; try discriminate H.
    apply tokenStep_swap in H.
    destruct H as (cfg & Hcfg & _ & Hconf & _ & -> & [[_ ->]|(Hsome & _)]).
    + exists tokenInfo, cfg. repeat split; assumption.
    + exfalso. apply Hsome, Hnone.
  - intro Hdir.
    assert (Hne : forall tokenInfo,
              In tokenInfo (getTopTokens table tokenSource w) ->
              getTopTokens table tokenSource w <> [])
      by (intros tokenInfo Hin E; rewrite E in Hin; destruct Hin).
    assert (Hrun : forall tokenInfo,
              In tokenInfo (getTopTokens table tokenSource w) ->
              loop table tokenSource CARDANO_ADDRESS w
              = (flat_map
                   (fun tokenInfo =>
                      trace (tokenStep table w
                               (addressInfoOfIteration CARDANO_ADDRESS w)
                               (buildPortfolio table w
                                  (addressInfoOfIteration CARDANO_ADDRESS w))
                               tokenInfo))
                   (getTopTokens table tokenSource w), Ok tt))
      by (intros tokenInfo Hin; apply loop_all_tokens;
          [exact (Hne tokenInfo Hin)|exact Hdir]).
    split; [|split].
    + destruct (getTopTokens table tokenSource w) as [|t ts] eqn:E.
      * unfold loop. rewrite E. reflexivity.
      * rewrite (Hrun t) by now left. reflexivity.
    + intros tokenInfo Hin. rewrite (Hrun tokenInfo Hin). cbn [trace fst].
      apply in_flat_map. exists tokenInfo. split; [exact Hin|].
      destruct (tokenStep_logs_decision table w
                  (addressInfoOfIteration CARDANO_ADDRESS w)
                  (buildPortfolio table w (addressInfoOfIteration CARDANO_ADDRESS w))
                  tokenInfo) as [rest ->].
      now left.
    + intros tokenInfo d Hin Ht Hc Hd.
      destruct (tokenStep_executes_unconstrained table w
                  (addressInfoOfIteration CARDANO_ADDRESS w)
                  (buildPortfolio table w (addressInfoOfIteration CARDANO_ADDRESS w))
                  tokenInfo d Hnone Ht Hc Hd) as (cfg & Hcfg & Hcall).
      exists cfg. split; [exact Hcfg|].
      rewrite (Hrun tokenInfo Hin). cbn [trace fst].
      apply in_flat_map. exists tokenInfo. split; [exact Hin|exact Hcall].
Qed.

(** An address is configured and its lookup throws: the iteration runs as
    without address, ends normally, and the token, whose decision passes the
    gate, is handed to the swap executor. *)
Lemma no_address_info_runs_unconstrained_witness :
  let table := [mkTokenConfig "aa" "A" None ai (Some 10) (Some 200)] in
  let w := offlineWorld (fun _ => Ok (mkLlmDecision true (Some buy) (9 # 10) 100))
                        (fun _ _ => Throw) in
  let tokenInfo := mkVolumeToken 0 "A" "aa" 0 in
  addressInfoOfIteration (Some "addr1qxy") w = None /\
  (forall tokenInfo, In tokenInfo (getTopTokens table PREDEFINED_LIST w) ->
     direction (decisionFor w tokenInfo) <> None) /\
  loop table PREDEFINED_LIST (Some "addr1qxy") w = loop table PREDEFINED_LIST None w /\
  snd (loop table PREDEFINED_LIST (Some "addr1qxy") w) = Ok tt /\
  In (LogDecision "A" (decisionFor w tokenInfo))
     (trace (loop table PREDEFINED_LIST (Some "addr1qxy") w)) /\
  exists tokenConfig,
    getTokenInfo table "aa" = Some tokenConfig /\
    In (CallDexSwap buy (recommended tokenConfig (decisionFor w tokenInfo)) "aa")
       (trace (loop table PREDEFINED_LIST (Some "addr1qxy") w)).
Proof.
  intros table w tokenInfo.
  assert (Hnone : addressInfoOfIteration (Some "addr1qxy") w = None) by reflexivity.
  assert (Hdir : forall t, In t (getTopTokens table PREDEFINED_LIST w) ->
                   direction (decisionFor w t) <> None).
  { intros t Hin. cbn in Hin. destruct Hin as [<-|[]]. cbn. discriminate. }
  assert (Hin : In tokenInfo (getTopTokens table PREDEFINED_LIST w))
    by (left; reflexivity).
  destruct (no_address_info_runs_unconstrained table PREDEFINED_LIST
              (Some "addr1qxy") w Hnone)
    as (Hsame & _ & _ & _ & Hall).
  destruct (Hall Hdir) as (Hok & Hlog & Hswap).
  split; [exact Hnone|]. split; [exact Hdir|]. split; [exact Hsame|].
  split; [exact Hok|]. split; [exact (Hlog tokenInfo Hin)|].
  apply (Hswap tokenInfo buy Hin); [reflexivity|discriminate|reflexivity].
Defined.


(** ** Further properties of the sizer and of the iteration *)

(** On a buy the sizer returns 0 or at least 1 ADA: nothing below the dust
    threshold of 1 ADA is ever sized. *)
Theorem buy_is_0_or_at_least_1
    (category : Category) (recommendedAda total currentCategoryValue userAdaBalance : Q) :
  let r := adjustTradeForPortfolio buy category recommendedAda total
                                   currentCategoryValue userAdaBalance in
  r = 0 \/ 1 <= r.
Proof.
  cbn zeta.
  destruct (buy_cases category recommendedAda total currentCategoryValue
                      userAdaBalance) as [[_ ->]|[(_ & _ & ->)|(_ & H & ->)]]; auto.
Qed.

(** A decision whose trade flag is false is rejected: the step logs it and
    calls neither the sizer nor the swap executor. *)
Theorem no_trade_flag_rejects
    (table : list TokenConfig) (w : World) (addressInfo : option AddressInfo)
    (p : Portfolio) (tokenInfo : TapToolsVolumeToken) :
  trade (decisionFor w tokenInfo) = false ->
  tokenStep table w addressInfo p tokenInfo
  = ([LogDecision (vt_ticker tokenInfo) (decisionFor w tokenInfo);
      LogSkipNoTrade (vt_ticker tokenInfo)], Ok tt).
Proof. apply tokenStep_no_trade. Qed.

(** The decision request about the token throws: the default decision has a
    false trade flag. *)
Lemma no_trade_flag_rejects_witness :
  let w := offlineWorld (fun _ => Throw) (fun _ _ => Throw) in
  let tokenInfo := mkVolumeToken 0 "A" "aa" 0 in
  trade (decisionFor w tokenInfo) = false /\
  tokenStep [] w None emptyPortfolio tokenInfo
  = ([LogDecision "A" llm_error_decision; LogSkipNoTrade "A"], Ok tt).
Proof.
  cbn zeta. split; [reflexivity|].
  exact (no_trade_flag_rejects [] (offlineWorld (fun _ => Throw) (fun _ _ => Throw))
           None emptyPortfolio (mkVolumeToken 0 "A" "aa" 0) eq_refl).
Defined.

(** The portfolio is valued once per iteration: every call to the sizer in
    an iteration is given the total, the category value and the ADA balance
    of that one portfolio, whatever was sized for the tokens before it. *)
Theorem tokens_sized_against_one_portfolio
    (table : list TokenConfig) (tokenSource : TokenSource)
    (CARDANO_ADDRESS : option string) (w : World)
    (d : option Direction) (category : Category)
    (r total catValueNow userAdaBal : Q) :
  In (CallSizer d category r total catValueNow userAdaBal)
     (trace (loop table tokenSource CARDANO_ADDRESS w)) ->
  let p := buildPortfolio table w (addressInfoOfIteration CARDANO_ADDRESS w) in
  total = totalAdaValue p /\
  catValueNow = categoryValues p category /\
  userAdaBal = categoryValues p ada.
Proof.
  intro H. cbn zeta. apply loop_event in H.
  destruct H as [H|[H|(tokenInfo & _ & H)]]; try discriminate H.
  apply tokenStep_sizer in H.
  destruct H as (cfg & _ & _ & _ & _ & _ & -> & _ & -> & -> & ->).
  repeat split.
Qed.

(** Two tokens of category other are bought in one iteration: both calls to
    the sizer see the same total and the same category value. *)
Lemma tokens_sized_against_one_portfolio_witness :
  let table := [mkTokenConfig "aa" "A" None ai (Some 10) (Some 200);
                mkTokenConfig "bb" "B" None ai (Some 10) (Some 200)] in
  let w :=
    mkWorld Throw
            (fun _ => Ok (mkResponse 200 (mkAddressInfo (Some 1000000000%Z) None)))
            (fun _ => Throw) (fun _ => Throw) (fun _ => Throw)
            (fun _ => Throw) (fun _ => Throw) (fun _ => Throw)
            (fun _ => Ok (mkLlmDecision true (Some buy) (9 # 10) 40))
            (fun _ _ => Throw) in
  let run := loop table PREDEFINED_LIST (Some "addr1qxy") w in
  In (CallSizer (Some buy) other 40 (1000000000 # 1000000) 0 (1000000000 # 1000000))
     (trace run) /\
  In (CallDexSwap buy 40 "aa") (trace run) /\
  In (CallDexSwap buy 40 "bb") (trace run) /\
  (1000000000 # 1000000)
  = totalAdaValue (buildPortfolio table w (addressInfoOfIteration (Some "addr1qxy") w)).
Proof.
  cbn zeta.
  set (table := [mkTokenConfig "aa" "A" None ai (Some 10) (Some 200);
                 mkTokenConfig "bb" "B" None ai (Some 10) (Some 200)]).
  set (w := mkWorld _ _ _ _ _ _ _ _ _ _).
  assert (H : In (CallSizer (Some buy) other 40 (1000000000 # 1000000) 0
                            (1000000000 # 1000000))
                 (trace (loop table PREDEFINED_LIST (Some "addr1qxy") w))).
  { vm_compute. right. left. reflexivity. }
  split; [exact H|].
  split; [vm_compute; repeat (first [left; reflexivity | right])|].
  split; [vm_compute; repeat (first [left; reflexivity | right])|].
  exact (proj1 (tokens_sized_against_one_portfolio table PREDEFINED_LIST
                  (Some "addr1qxy") w _ _ _ _ _ _ H)).
Defined.

(** A throw in the body of the loop ends the iteration: the tokens before the
    throwing one have run, the loop-level catch logs the error, and the
    tokens after it are not evaluated.  The body throws on a decision that
    passes the gate without a direction. *)
Theorem throwing_step_ends_iteration
    (table : list TokenConfig) (tokenSource : TokenSource)
    (CARDANO_ADDRESS : option string) (w : World)
    (before after : list TapToolsVolumeToken) (tokenInfo : TapToolsVolumeToken) :
  let addressInfo := addressInfoOfIteration CARDANO_ADDRESS w in
  let p := buildPortfolio table w addressInfo in
  let step := tokenStep table w addressInfo p in
  getTopTokens table tokenSource w = before ++ tokenInfo :: after ->
  (forall t, In t before -> direction (decisionFor w t) <> None) ->
  trade (decisionFor w tokenInfo) = true ->
  6 # 10 <= confidence (decisionFor w tokenInfo) ->
  direction (decisionFor w tokenInfo) = None ->
  (addressInfo = None \/
   forall tokenConfig,
     getTokenInfo table (vt_unit tokenInfo) = Some tokenConfig ->
     1 <= recommended tokenConfig (decisionFor w tokenInfo)) ->
  loop table tokenSource CARDANO_ADDRESS w
  = (flat_map (fun t => trace (step t)) before
     ++ trace (step tokenInfo) ++ [LogMainLoopError], Ok tt).
Proof.
  cbn zeta. intros Htokens Hbefore Ht Hc Hd Hsize.
  rewrite loop_nonempty by (rewrite Htokens; destruct before; discriminate).
  rewrite Htokens, forEach_throw.
  - cbn. now rewrite <- app_assoc.
  - intros t Hin. apply tokenStep_ok, Hbefore, Hin.
  - now apply tokenStep_throws.
Qed.

(** Two tokens; the decision about the first has no direction: the second is
    never evaluated. *)
Lemma throwing_step_ends_iteration_witness :
  let table := [mkTokenConfig "aa" "A" None ai (Some 10) (Some 200);
                mkTokenConfig "bb" "B" None defi (Some 10) (Some 200)] in
  let w := offlineWorld (fun _ => Ok (mkLlmDecision true None (9 # 10) 100))
                        (fun _ _ => Throw) in
  getTopTokens table PREDEFINED_LIST w
  = [] ++ mkVolumeToken 0 "A" "aa" 0 :: [mkVolumeToken 0 "B" "bb" 0] /\
  loop table PREDEFINED_LIST None w
  = ([LogDecision "A" (mkLlmDecision true None (9 # 10) 100); LogMainLoopError],
     Ok tt).
Proof.
  cbn zeta. split; [reflexivity|].
  refine (throwing_step_ends_iteration
            [mkTokenConfig "aa" "A" None ai (Some 10) (Some 200);
             mkTokenConfig "bb" "B" None defi (Some 10) (Some 200)]
            PREDEFINED_LIST None
            (offlineWorld (fun _ => Ok (mkLlmDecision true None (9 # 10) 100))
                          (fun _ _ => Throw))
            [] [mkVolumeToken 0 "B" "bb" 0] (mkVolumeToken 0 "A" "aa" 0)
            eq_refl _ eq_refl _ eq_refl (or_introl eq_refl)).
  - intros t [].
  - vm_compute. discriminate.
Defined.

(** ** What an iteration trades *)

(** Every swap an iteration calls is for a token of the iteration's list,
    for that token's unit, decided by a decision that passed the gate (trade
    flag set, confidence at least 0.6) and in the direction of that
    decision. *)
Theorem swaps_only_for_gated_tokens
    (table : list TokenConfig) (tokenSource : TokenSource)
    (CARDANO_ADDRESS : option string) (w : World)
    (d : Direction) (quantityAda : Q) (unit : string) :
  In (CallDexSwap d quantityAda unit)
     (trace (loop table tokenSource CARDANO_ADDRESS w)) ->
  exists tokenInfo,
    In tokenInfo (getTopTokens table tokenSource w) /\
    unit = vt_unit tokenInfo /\
    trade (decisionFor w tokenInfo) = true /\
    6 # 10 <= confidence (decisionFor w tokenInfo) /\
    direction (decisionFor w tokenInfo) = Some d.
Proof.
  intro H. apply loop_event in H.
  destruct H as [H|[H|(tokenInfo & Hin & H)]]; try discriminate H.
  apply tokenStep_swap in H.
  destruct H as (cfg & _ & Ht & Hc & Hd & Hu & _).
  exists tokenInfo. repeat split; assumption.
Qed.

(** One configured token, bought on a decision of confidence 0.9. *)
Lemma swaps_only_for_gated_tokens_witness :
  let table := [mkTokenConfig "aa" "A" None ai (Some 10) (Some 200)] in
  let w := offlineWorld (fun _ => Ok (mkLlmDecision true (Some buy) (9 # 10) 100))
                        (fun _ _ => Throw) in
  In (CallDexSwap buy 100 "aa") (trace (loop table PREDEFINED_LIST None w)) /\
  exists tokenInfo,
    In tokenInfo (getTopTokens table PREDEFINED_LIST w) /\
    "aa" = vt_unit tokenInfo /\
    trade (decisionFor w tokenInfo) = true /\
    6 # 10 <= confidence (decisionFor w tokenInfo) /\
    direction (decisionFor w tokenInfo) = Some buy.
Proof.
  cbn zeta.
  assert (H : In (CallDexSwap buy 100 "aa")
                 (trace (loop [mkTokenConfig "aa" "A" None ai (Some 10) (Some 200)]
                           PREDEFINED_LIST None
                           (offlineWorld
                              (fun _ => Ok (mkLlmDecision true (Some buy) (9 # 10) 100))
                              (fun _ _ => Throw))))).
  { vm_compute. right. right. left. reflexivity. }
  split; [exact H|].
  exact (swaps_only_for_gated_tokens _ _ _ _ _ _ _ H).
Defined.

(** With address info, a buy that an iteration hands to the swap executor is
    at most the recommended size, at most the ADA balance less the 2 ADA fee
    reserve, and at most the room left in the category the token is sized
    with: the buy alone does not take that category above its target share
    of the valued total.  The category the token is sized with is the one of
    the config [getTokenInfo] returns for the unit; it need not be the
    category the table configures for the token, in which the token's value
    is counted: for a unit that is no ticker of the table it is other. *)
Theorem buys_within_balance_and_room
    (table : list TokenConfig) (tokenSource : TokenSource)
    (CARDANO_ADDRESS : option string) (w : World)
    (quantityAda : Q) (unit : string) :
  addressInfoOfIteration CARDANO_ADDRESS w <> None ->
  In (CallDexSwap buy quantityAda unit)
     (trace (loop table tokenSource CARDANO_ADDRESS w)) ->
  let p := buildPortfolio table w (addressInfoOfIteration CARDANO_ADDRESS w) in
  exists tokenInfo tokenConfig,
    In tokenInfo (getTopTokens table tokenSource w) /\
    unit = vt_unit tokenInfo /\
    getTokenInfo table unit = Some tokenConfig /\
    quantityAda <= recommended tokenConfig (decisionFor w tokenInfo) /\
    quantityAda <= categoryValues p ada - 2 /\
    categoryValues p (tc_category tokenConfig) + quantityAda
    <= targetRatios (tc_category tokenConfig) * totalAdaValue p.
Proof.
  intros Hinfo H. cbn zeta. apply loop_event in H.
  destruct H as [H|[H|(tokenInfo & Hin & H)]]; try discriminate H.
  apply tokenStep_swap in H.
  destruct H as (cfg & Hcfg & _ & _ & _ & -> & [[Hnone _]|(_ & Hge & Heq)]);
    [contradiction|].
  exists tokenInfo, cfg. split; [exact Hin|]. split; [reflexivity|].
  split; [exact Hcfg|].
  set (p := buildPortfolio table w (addressInfoOfIteration CARDANO_ADDRESS w)) in *.
  pose proof (buy_cases (tc_category cfg) (recommended cfg (decisionFor w tokenInfo))
                (totalAdaValue p) (categoryValues p (tc_category cfg))
                (categoryValues p ada)) as Hcases.
  cbn zeta in Hcases. rewrite <- Heq in Hcases. unfold roomLeft in Hcases.
  destruct Hcases as [[_ E]|[(_ & _ & E)|(_ & _ & E)]].
  - rewrite E in Hge. lra.
  - rewrite E in Hge. lra.
  - rewrite E in Hge |- *. clear E Heq. revert Hge.
    set (rec := recommended cfg (decisionFor w tokenInfo)). clearbody rec.
    set (cap := targetRatios (tc_category cfg) * totalAdaValue p). clearbody cap.
    set (cur := categoryValues p (tc_category cfg)). clearbody cur.
    set (bal := categoryValues p ada). clearbody bal.
    bound_minmax.
Qed.

(** A wallet of 1000 ADA and 900 ADA worth of the one token, which the table
    configures as ai: ai is far above its target, yet the token is sized with
    the fallback config, in other, where there is room, and it is bought for
    the 40 ADA asked. *)
Lemma buys_within_balance_and_room_witness :
  let table := [mkTokenConfig "aa" "A" None ai (Some 10) (Some 200)] in
  let w :=
    mkWorld Throw
            (fun _ => Ok (mkResponse 200
                            (mkAddressInfo (Some 1000000000%Z)
                                           (Some [mkWalletAsset "aa" 900]))))
            (fun _ => Ok (mkResponse 200 [("aa", 1)]))
            (fun _ => Throw) (fun _ => Throw)
            (fun _ => Throw) (fun _ => Throw) (fun _ => Throw)
            (fun _ => Ok (mkLlmDecision true (Some buy) (9 # 10) 40))
            (fun _ _ => Throw) in
  let p := buildPortfolio table w (addressInfoOfIteration (Some "addr1qxy") w) in
  addressInfoOfIteration (Some "addr1qxy") w <> None /\
  In (CallDexSwap buy 40 "aa")
     (trace (loop table PREDEFINED_LIST (Some "addr1qxy") w)) /\
  getTokenInfo table "aa" = Some (fallbackConfig "aa") /\
  targetRatios ai * totalAdaValue p < categoryValues p ai /\
  40 <= categoryValues p ada - 2 /\
  categoryValues p other + 40 <= targetRatios other * totalAdaValue p.
Proof.
  intros table w p.
  assert (Hinfo : addressInfoOfIteration (Some "addr1qxy") w <> None)
    by (cbn; discriminate).
  assert (H : In (CallDexSwap buy 40 "aa")
                 (trace (loop table PREDEFINED_LIST (Some "addr1qxy") w))).
  { vm_compute. repeat (first [left; reflexivity | right]). }
  assert (Hcfg : getTokenInfo table "aa" = Some (fallbackConfig "aa")) by reflexivity.
  split; [exact Hinfo|]. split; [exact H|]. split; [exact Hcfg|].
  split; [vm_compute; reflexivity|].
  destruct (buys_within_balance_and_room table PREDEFINED_LIST (Some "addr1qxy") w
              40 "aa" Hinfo H) as (tokenInfo & cfg & _ & _ & Hcfg' & _ & Hbal & Hroom).
  split; [exact Hbal|].
  rewrite Hcfg in Hcfg'. injection Hcfg' as <-. exact Hroom.
Defined.

(** ** More on the sizer *)

(** Decide a goal with minima and maxima from the order facts at hand. *)
Ltac minmax_from_bounds :=
  repeat match goal with
  | H : (_ <= _)%Q |- _ => revert H
  | H : (_ < _)%Q |- _ => revert H
  | H : (_ == _)%Q |- _ => revert H
  end;
  bound_minmax.

(** A buy is monotone: recommending more, or holding more ADA, never sizes
    the buy smaller, and a higher current value of the category never sizes
    it larger. *)
Theorem buy_is_monotone
    (category : Category) (total : Q)
    (rec1 rec2 cur1 cur2 bal1 bal2 : Q) :
  rec1 <= rec2 -> cur2 <= cur1 -> bal1 <= bal2 ->
  adjustTradeForPortfolio buy category rec1 total cur1 bal1
  <= adjustTradeForPortfolio buy category rec2 total cur2 bal2.
Proof.
  intros Hrec Hcur Hbal.
  pose proof (buy_cases category rec1 total cur1 bal1) as H1.
  pose proof (buy_cases category rec2 total cur2 bal2) as H2.
  cbn zeta in H1, H2. unfold roomLeft in H1, H2.
  set (cap := targetRatios category * total) in *. clearbody cap.
  destruct H1 as [[R1 ->]|[(R1 & F1 & ->)|(R1 & F1 & ->)]];
    destruct H2 as [[R2 ->]|[(R2 & F2 & ->)|(R2 & F2 & ->)]];
    minmax_from_bounds.
Qed.

(** Recommending 50 instead of 20 ADA, all else equal. *)
Lemma buy_is_monotone_witness :
  20 <= 50 /\ 100 <= 100 /\ 500 <= 500 /\
  adjustTradeForPortfolio buy defi 20 1000 100 500
  <= adjustTradeForPortfolio buy defi 50 1000 100 500.
Proof.
  assert (H1 : 20 <= 50) by lra.
  assert (H2 : 100 <= 100) by lra.
  assert (H3 : 500 <= 500) by lra.
  split; [exact H1|]. split; [exact H2|]. split; [exact H3|].
  exact (buy_is_monotone defi 1000 20 50 100 100 500 500 H1 H2 H3).
Defined.

(** Sizing is idempotent: sizing the sized amount again, against the same
    portfolio, changes nothing. *)
Theorem sizing_is_idempotent
    (d : Direction) (category : Category)
    (recommendedAda total currentCategoryValue userAdaBalance : Q) :
  let r := adjustTradeForPortfolio d category recommendedAda total
                                   currentCategoryValue userAdaBalance in
  adjustTradeForPortfolio d category r total currentCategoryValue userAdaBalance == r.
Proof.
  cbn zeta. destruct d; [|reflexivity].
  pose proof (buy_cases category recommendedAda total currentCategoryValue
                userAdaBalance) as H1.
  cbn zeta in H1.
  set (r := adjustTradeForPortfolio buy category recommendedAda total
              currentCategoryValue userAdaBalance) in *.
  pose proof (buy_cases category r total currentCategoryValue userAdaBalance) as H2.
  cbn zeta in H2.
  set (r' := adjustTradeForPortfolio buy category r total
               currentCategoryValue userAdaBalance) in *.
  set (room := roomLeft category total currentCategoryValue) in *.
  clearbody r' room. clearbody r.
  destruct H1 as [[R1 E1]|[(R1 & F1 & E1)|(R1 & F1 & E1)]];
    destruct H2 as [[R2 E2]|[(R2 & F2 & E2)|(R2 & F2 & E2)]];
    rewrite E2; clear E2; rewrite E1 in *; clear E1 r;
    minmax_from_bounds.
Qed.

(** ** More on the valuation *)

Lemma sumQ_cons (x : Q) (l : list Q) : sumQ (x :: l) = x + sumQ l.
Proof. reflexivity. Qed.

Lemma sumQ_nil : sumQ [] = 0.
Proof. reflexivity. Qed.

Lemma sumQ_nonneg (l : list Q) : Forall (fun x => 0 <= x) l -> 0 <= sumQ l.
Proof.
  induction 1 as [|x l Hx _ IH]; [rewrite sumQ_nil|rewrite sumQ_cons]; lra.
Qed.

Lemma Category_eqb_eq (a b : Category) : Category_eqb a b = true <-> a = b.
Proof. destruct a, b; cbn; split; intro H; congruence. Qed.

Section ClosedForm.

Variable table : list TokenConfig.
Variable w : World.
Variable tokenPrices : list (string * Q).

Lemma valueAsset_total p asset :
  totalAdaValue (valueAsset table w tokenPrices p asset)
  == totalAdaValue p + contribution table w tokenPrices asset.
Proof.
  unfold valueAsset, contribution. destruct (Js.leb _ 0); cbn; ring.
Qed.

Lemma valueAsset_category p asset category :
  categoryValues (valueAsset table w tokenPrices p asset) category
  == categoryValues p category
     + (if Category_eqb (assetCategory table asset) category
        then contribution table w tokenPrices asset else 0).
Proof.
  unfold valueAsset, contribution.
  change (match getTokenConfig table (wa_unit asset) with
          | Some t => tc_category t
          | None => other
          end) with (assetCategory table asset).
  destruct (Js.leb _ 0).
  - destruct (Category_eqb (assetCategory table asset) category); ring.
  - cbn [categoryValues]. unfold add_to.
    destruct (assetCategory table asset), category; cbn [Category_eqb]; ring.
Qed.

Lemma fold_valueAsset_total assets :
  forall p,
    totalAdaValue (fold_left (valueAsset table w tokenPrices) assets p)
    == totalAdaValue p + sumQ (map (contribution table w tokenPrices) assets).
Proof.
  induction assets as [|asset assets IH]; intro p; cbn [fold_left map].
  - rewrite sumQ_nil. ring.
  - rewrite IH, valueAsset_total, sumQ_cons. ring.
Qed.

Lemma fold_valueAsset_category assets category :
  forall p,
    categoryValues (fold_left (valueAsset table w tokenPrices) assets p) category
    == categoryValues p category
       + sumQ (contributionsIn table w tokenPrices category assets).
Proof.
  unfold contributionsIn.
  induction assets as [|asset assets IH]; intro p; cbn [fold_left filter map].
  - rewrite sumQ_nil. ring.
  - rewrite IH, valueAsset_category.
    destruct (Category_eqb (assetCategory table asset) category);
      cbn [map]; rewrite ?sumQ_cons; ring.
Qed.

(** With a positive price, a non-negative quantity has a non-negative value. *)
Lemma contribution_nonneg asset :
  (0 <= wa_quantity asset)%Z -> 0 <= contribution table w tokenPrices asset.
Proof.
  intro Hq. unfold contribution.
  destruct (Js.leb _ 0) eqn:Hprice; [lra|].
  apply JsFacts.leb_false in Hprice. unfold valueInAda.
  set (price := Js.opt_or_num _ 0) in *. clearbody price.
  set (d := resolveDecimals _ _ _). clearbody d.
  assert (Hpow : 0 < 10 ^ d) by (apply Qpower_0_lt; lra).
  assert (Hnum : 0 <= inject_Z (wa_quantity asset)).
  { rewrite <- (Zle_Qle 0). exact Hq. }
  apply Qmult_le_0_compat; [|lra].
  apply Qle_shift_div_l; [exact Hpow|]. lra.
Qed.

End ClosedForm.

Lemma buildPortfolio_closed_form
    (table : list TokenConfig) (w : World) (info : AddressInfo) :
  let p := buildPortfolio table w (Some info) in
  let prices := walletPrices w info in
  totalAdaValue p
  == userAdaOf info + sumQ (map (contribution table w prices) (walletAssets info)) /\
  (forall category,
     categoryValues p category
     == (if Category_eqb category ada then userAdaOf info else 0)
        + sumQ (contributionsIn table w prices category (walletAssets info))).
Proof.
  cbn zeta. unfold buildPortfolio, walletPrices. split.
  - rewrite fold_valueAsset_total. cbn [totalAdaValue]. unfold userAdaOf. ring.
  - intro category. rewrite fold_valueAsset_category. reflexivity.
Qed.

(** No asset is counted in a category that no configured token has, unless
    the category is other. *)
Lemma no_asset_in_unconfigured_category
    (table : list TokenConfig) (category : Category) (assets : list WalletAsset) :
  category <> other ->
  (forall t, In t table -> tc_category t <> category) ->
  filter (fun asset => Category_eqb (assetCategory table asset) category) assets = [].
Proof.
  intros Hother Hno. induction assets as [|a l IH]; [reflexivity|].
  cbn [filter]. rewrite IH.
  destruct (Category_eqb (assetCategory table a) category) eqn:Ea; [|reflexivity].
  exfalso. apply Category_eqb_eq in Ea. unfold assetCategory, getTokenConfig in Ea.
  destruct (find _ table) as [t|] eqn:Ef.
  - apply find_some in Ef. exact (Hno t (proj1 Ef) Ea).
  - apply Hother. now symmetry.
Qed.

(** The portfolio in closed form.  The total is the wallet's ADA plus the
    contributions of its assets; the value of a category is the sum of the
    contributions of the assets counted in it, plus the wallet's ADA for the
    category ada.  An asset contributes its value when its price is positive
    and nothing otherwise; it is counted in the category of its TokenConfig,
    and in other when it has none. *)
Theorem portfolio_closed_form
    (table : list TokenConfig) (w : World) (info : AddressInfo) :
  let p := buildPortfolio table w (Some info) in
  let prices := walletPrices w info in
  totalAdaValue p
  == userAdaOf info + sumQ (map (contribution table w prices) (walletAssets info)) /\
  (forall category,
     categoryValues p category
     == (if Category_eqb category ada then userAdaOf info else 0)
        + sumQ (contributionsIn table w prices category (walletAssets info))).
Proof.
  cbn zeta. unfold buildPortfolio, walletPrices. split.
  - rewrite fold_valueAsset_total. cbn [totalAdaValue]. unfold userAdaOf. ring.
  - intro category. rewrite fold_valueAsset_category. reflexivity.
Qed.

(** A wallet without negative amounts is valued without negative amounts:
    the total and every category value are at least 0, whatever the prices
    and decimals the lookups answer. *)
Theorem portfolio_is_nonnegative
    (table : list TokenConfig) (w : World) (info : AddressInfo) :
  nonneg_wallet info ->
  let p := buildPortfolio table w (Some info) in
  0 <= totalAdaValue p /\ forall category, 0 <= categoryValues p category.
Proof.
  intros [Hada Hassets]. cbn zeta.
  destruct (buildPortfolio_closed_form table w info) as [Htotal Hcat]. cbn zeta in *.
  assert (Huser : 0 <= userAdaOf info).
  { unfold userAdaOf. apply Qle_shift_div_l; [lra|].
    rewrite Qmult_0_l. rewrite <- (Zle_Qle 0). exact Hada. }
  assert (Hall : forall l, Forall (fun a => (0 <= wa_quantity a)%Z) l ->
                   Forall (fun x => 0 <= x)
                          (map (contribution table w (walletPrices w info)) l)).
  { intros l Hl. induction Hl as [|a l Ha _ IH]; cbn; constructor.
    - now apply contribution_nonneg.
    - exact IH. }
  split.
  - rewrite Htotal. pose proof (sumQ_nonneg _ (Hall _ Hassets)). lra.
  - intro category. rewrite Hcat.
    assert (H : 0 <= sumQ (contributionsIn table w (walletPrices w info) category
                             (walletAssets info))).
    { apply sumQ_nonneg. unfold contributionsIn. apply Hall.
      apply Forall_forall. intros a Ha. apply filter_In in Ha.
      rewrite Forall_forall in Hassets. apply Hassets, Ha. }
    destruct (Category_eqb category ada); lra.
Qed.

(** 25 ADA and three million raw units of a token with 6 decimals at 2 ADA. *)
Lemma portfolio_is_nonnegative_witness :
  let table := [mkTokenConfig "aa" "A" (Some 6%Z) ai (Some 10) (Some 200)] in
  let w :=
    mkWorld Throw (fun _ => Throw)
            (fun _ => Ok (mkResponse 200 [("aa", 2)]))
            (fun _ => Throw) (fun _ => Throw) (fun _ => Throw) (fun _ => Throw)
            (fun _ => Throw) (fun _ => Throw) (fun _ _ => Throw) in
  let info := mkAddressInfo (Some 25000000%Z) (Some [mkWalletAsset "aa" 3000000]) in
  nonneg_wallet info /\
  totalAdaValue (buildPortfolio table w (Some info)) == 31 /\
  0 <= totalAdaValue (buildPortfolio table w (Some info)).
Proof.
  cbn zeta.
  set (table := [mkTokenConfig "aa" "A" (Some 6%Z) ai (Some 10) (Some 200)]).
  set (w := mkWorld _ _ _ _ _ _ _ _ _ _).
  set (info := mkAddressInfo (Some 25000000%Z) (Some [mkWalletAsset "aa" 3000000])).
  assert (Hw : nonneg_wallet info).
  { split; [cbn; lia|]. cbn. repeat constructor. cbn. lia. }
  split; [exact Hw|]. split; [reflexivity|].
  exact (proj1 (portfolio_is_nonnegative table w info Hw)).
Defined.

(** When no configured token is in the category ada, the ADA balance the
    sizer is given is exactly the wallet's lovelace divided by one million:
    no token value is mixed into it. *)
Theorem ada_balance_is_wallet_ada
    (table : list TokenConfig) (w : World) (info : AddressInfo) :
  (forall t, In t table -> tc_category t <> ada) ->
  categoryValues (buildPortfolio table w (Some info)) ada == userAdaOf info.
Proof.
  intro Hno.
  destruct (buildPortfolio_closed_form table w info) as [_ Hcat]. cbn zeta in Hcat.
  rewrite Hcat. cbn [Category_eqb]. unfold contributionsIn.
  rewrite no_asset_in_unconfigured_category by (discriminate || exact Hno).
  cbn [map]. rewrite sumQ_nil. ring.
Qed.

(** The shipped table has no token of category ada. *)
Lemma ada_balance_is_wallet_ada_witness :
  let w := offlineWorld (fun _ => Throw) (fun _ _ => Throw) in
  let info := mkAddressInfo (Some 25000000%Z) None in
  (forall t, In t TRADING_TOKENS -> tc_category t <> ada) /\
  categoryValues (buildPortfolio TRADING_TOKENS w (Some info)) ada == userAdaOf info.
Proof.
  cbn zeta.
  assert (Hno : forall t, In t TRADING_TOKENS -> tc_category t <> ada).
  { intros t Hin. cbn in Hin.
    repeat (destruct Hin as [<-|Hin]; [discriminate|]). destruct Hin. }
  split; [exact Hno|].
  exact (ada_balance_is_wallet_ada TRADING_TOKENS _ _ Hno).
Defined.

(** The target ratios add up to 1, so the rooms left of the categories of a
    valued portfolio add up to 0: a portfolio is never over target in every
    category, and some category always has room that is not negative. *)
Theorem some_category_has_room
    (table : list TokenConfig) (w : World) (addressInfo : option AddressInfo) :
  let p := buildPortfolio table w addressInfo in
  sumQ (map targetRatios all_categories) == 1 /\
  sumQ (map (fun c => roomLeft c (totalAdaValue p) (categoryValues p c)) all_categories)
  == 0 /\
  exists category, 0 <= roomLeft category (totalAdaValue p) (categoryValues p category).
Proof.
  cbn zeta. pose proof (buildPortfolio_balanced table w addressInfo) as Hbal.
  unfold balanced, sum_categories in Hbal.
  set (p := buildPortfolio table w addressInfo) in *.
  set (cv := categoryValues p) in *. set (t := totalAdaValue p) in *.
  clearbody cv t. cbn in Hbal.
  assert (Hsum : sumQ (map (fun c => roomLeft c t (cv c)) all_categories) == 0).
  { unfold roomLeft, targetRatios. cbn. lra. }
  split; [reflexivity|]. split; [exact Hsum|].
  unfold roomLeft, targetRatios in *. cbn in Hsum.
  destruct (Qlt_le_dec ((20 # 100) * t - cv ada) 0); [|now exists ada].
  destruct (Qlt_le_dec ((15 # 100) * t - cv stable) 0); [|now exists stable].
  destruct (Qlt_le_dec ((15 # 100) * t - cv defi) 0); [|now exists defi].
  destruct (Qlt_le_dec ((15 # 100) * t - cv ai) 0); [|now exists ai].
  destruct (Qlt_le_dec ((10 # 100) * t - cv gaming) 0); [|now exists gaming].
  destruct (Qlt_le_dec ((10 # 100) * t - cv meme_coins) 0); [|now exists meme_coins].
  destruct (Qlt_le_dec ((10 # 100) * t - cv depin) 0); [|now exists depin].
  exists other. lra.
Qed.

(** ** The printed breakdown *)

(** Two decimals are within half a hundredth of the number. *)
Lemma toFixed2_close (x : Q) : - (1 # 200) <= toFixed2 x - x <= 1 # 200.
Proof.
  unfold toFixed2.
  pose proof (Qfloor_le (Qabs x * 100 + (1 # 2))) as Hlo.
  pose proof (Qlt_floor (Qabs x * 100 + (1 # 2))) as Hhi.
  rewrite inject_Z_plus in Hhi.
  set (n := inject_Z (Qfloor (Qabs x * 100 + (1 # 2)))) in *. clearbody n.
  change (inject_Z 1) with 1 in Hhi.
  assert (Hdiv : n / 100 == n * (1 # 100)) by (field).
  destruct (Js.ltb x 0) eqn:Hneg.
  - apply JsFacts.ltb_true in Hneg.
    assert (Habs : Qabs x == - x) by (apply Qabs_neg; lra).
    rewrite Habs in Hlo, Hhi. rewrite Hdiv. lra.
  - apply JsFacts.ltb_false in Hneg.
    assert (Habs : Qabs x == x) by (apply Qabs_pos; exact Hneg).
    rewrite Habs in Hlo, Hhi. rewrite Hdiv. lra.
Qed.

(** The breakdown an iteration prints of its portfolio lists every category
    once, in a fixed order.  When the total is positive the printed
    percentages, each rounded to two decimals, add up to 100 within 0.04;
    when it is not (an empty or unknown wallet) every percentage is printed
    as 0 and nothing is divided by the total. *)
Theorem breakdown_percentages_add_up
    (table : list TokenConfig) (w : World) (addressInfo : option AddressInfo) :
  let p := buildPortfolio table w addressInfo in
  let printed := logPortfolioBreakdown (categoryValues p) (totalAdaValue p) in
  map (fun line => fst (fst line)) (fst printed) = all_categories /\
  (0 < totalAdaValue p ->
   - (4 # 100) <= sumQ (map snd (fst printed)) - 100 <= 4 # 100) /\
  (totalAdaValue p <= 0 ->
   forall line, In line (fst printed) -> snd line = 0).
Proof.
  cbn zeta. pose proof (buildPortfolio_balanced table w addressInfo) as Hbal.
  unfold balanced, sum_categories in Hbal. cbn in Hbal.
  set (p := buildPortfolio table w addressInfo) in *.
  set (cv := categoryValues p) in *. set (t := totalAdaValue p) in *.
  clearbody cv t. clear p.
  split; [reflexivity|]. split.
  - intro Hpos.
    assert (Ht : Js.ltb 0 t = true) by (now apply JsFacts.ltb_true).
    unfold logPortfolioBreakdown, breakdownPercentage.
    cbn [fst map snd]. rewrite Ht. rewrite !sumQ_cons, sumQ_nil.
    assert (Hsum : cv ada / t * 100 + cv stable / t * 100 + cv defi / t * 100
                   + cv ai / t * 100 + cv gaming / t * 100
                   + cv meme_coins / t * 100 + cv depin / t * 100
                   + cv other / t * 100 == 100).
    { transitivity ((cv ada + (cv stable + (cv defi + (cv ai + (cv gaming
                       + (cv meme_coins + (cv depin + (cv other + 0)))))))) / t * 100).
      - field. lra.
      - rewrite <- Hbal. field. lra. }
    pose proof (toFixed2_close (cv ada / t * 100)).
    pose proof (toFixed2_close (cv stable / t * 100)).
    pose proof (toFixed2_close (cv defi / t * 100)).
    pose proof (toFixed2_close (cv ai / t * 100)).
    pose proof (toFixed2_close (cv gaming / t * 100)).
    pose proof (toFixed2_close (cv meme_coins / t * 100)).
    pose proof (toFixed2_close (cv depin / t * 100)).
    pose proof (toFixed2_close (cv other / t * 100)).
    set (y1 := cv ada / t * 100) in *. set (y2 := cv stable / t * 100) in *.
    set (y3 := cv defi / t * 100) in *. set (y4 := cv ai / t * 100) in *.
    set (y5 := cv gaming / t * 100) in *. set (y6 := cv meme_coins / t * 100) in *.
    set (y7 := cv depin / t * 100) in *. set (y8 := cv other / t * 100) in *.
    clearbody y1 y2 y3 y4 y5 y6 y7 y8.
    set (z1 := toFixed2 y1) in *. set (z2 := toFixed2 y2) in *.
    set (z3 := toFixed2 y3) in *. set (z4 := toFixed2 y4) in *.
    set (z5 := toFixed2 y5) in *. set (z6 := toFixed2 y6) in *.
    set (z7 := toFixed2 y7) in *. set (z8 := toFixed2 y8) in *.
    clearbody z1 z2 z3 z4 z5 z6 z7 z8.
    lra.
  - intros Hle line Hin.
    assert (Ht : Js.ltb 0 t = false) by (now apply JsFacts.ltb_false).
    unfold logPortfolioBreakdown, breakdownPercentage in Hin.
    rewrite Ht in Hin. cbn in Hin.
    repeat (destruct Hin as [<-|Hin]; [reflexivity|]). destruct Hin.
Qed.

(** A wallet of 25 ADA and nothing else: 100.00 % of it is ada. *)
Lemma breakdown_percentages_add_up_witness :
  let w := offlineWorld (fun _ => Throw) (fun _ _ => Throw) in
  let p := buildPortfolio [] w (Some (mkAddressInfo (Some 25000000%Z) None)) in
  0 < totalAdaValue p /\
  - (4 # 100)
  <= sumQ (map snd (fst (logPortfolioBreakdown (categoryValues p) (totalAdaValue p))))
     - 100
  <= 4 # 100.
Proof.
  cbn zeta.
  assert (Hpos : 0 < totalAdaValue
                       (buildPortfolio []
                          (offlineWorld (fun _ => Throw) (fun _ _ => Throw))
                          (Some (mkAddressInfo (Some 25000000%Z) None))))
    by (vm_compute; reflexivity).
  split; [exact Hpos|].
  exact (proj1 (proj2 (breakdown_percentages_add_up [] _ _)) Hpos).
Defined.

(** ** The token universe *)

Section Universe.

Variable table : list TokenConfig.
Variable w : World.

(** The step of the loop that adds a top-volume token unless its unit is
    already listed. *)
Let addIfNew (acc : list TapToolsVolumeToken) (token : TapToolsVolumeToken) :=
  if existsb (fun t => String.eqb (vt_unit t) (vt_unit token)) acc
  then acc else acc ++ [token].

(** Filling in the prices changes no unit and no ticker. *)
Let fill (prices : list (string * Q)) (token : TapToolsVolumeToken) :=
  if Js.is_zero (vt_price token)
  then set_price token (Js.opt_or_num (Js.get prices (vt_unit token)) 0)
  else token.

Lemma fill_units prices l : map vt_unit (map (fill prices) l) = map vt_unit l.
Proof.
  rewrite map_map. apply map_ext. intro t. unfold fill.
  destruct (Js.is_zero (vt_price t)); reflexivity.
Qed.

Lemma existsb_unit_In (acc : list TapToolsVolumeToken) (u : string) :
  existsb (fun t => String.eqb (vt_unit t) u) acc = true <-> In u (map vt_unit acc).
Proof.
  rewrite existsb_exists, in_map_iff. split.
  - intros (t & Hin & E). apply String.eqb_eq in E. now exists t.
  - intros (t & E & Hin). exists t. split; [exact Hin|]. now apply String.eqb_eq.
Qed.

Lemma NoDup_snoc (us : list string) (u : string) :
  NoDup us -> ~ In u us -> NoDup (us ++ [u]).
Proof.
  induction 1 as [|x l Hx Hl IH]; intro Hnew; cbn.
  - constructor; [intros []|constructor].
  - constructor.
    + intro Hin. apply in_app_or in Hin. destruct Hin as [Hin|[<-|[]]].
      * contradiction.
      * apply Hnew. now left.
    + apply IH. intro Hin. apply Hnew. now right.
Qed.

(** Adding the top-volume tokens appends new units only. *)
Lemma fold_addIfNew (top : list TapToolsVolumeToken) :
  forall acc,
    exists extra,
      fold_left addIfNew top acc = acc ++ extra /\
      (forall t, In t extra -> In t top) /\
      (List.length extra <= List.length top)%nat /\
      (NoDup (map vt_unit acc) -> NoDup (map vt_unit (acc ++ extra))).
Proof.
  induction top as [|token top IH]; intro acc; cbn [fold_left].
  - exists []. rewrite app_nil_r. split; [reflexivity|].
    split; [intros t []|]. split; [cbn; lia|auto].
  - unfold addIfNew at 2. destruct (existsb _ acc) eqn:E.
    + destruct (IH acc) as (extra & Heq & Hsub & Hlen & Hnd).
      exists extra. split; [exact Heq|].
      split; [intros t Ht; right; now apply Hsub|].
      split; [cbn; lia|exact Hnd].
    + destruct (IH (acc ++ [token])) as (extra & Heq & Hsub & Hlen & Hnd).
      exists (token :: extra).
      split; [rewrite Heq, <- app_assoc; reflexivity|].
      split; [intros t [<-|Ht]; [now left|right; now apply Hsub]|].
      split; [cbn; lia|].
      intro Hacc.
      replace (acc ++ token :: extra) with ((acc ++ [token]) ++ extra)
        by (rewrite <- app_assoc; reflexivity).
      apply Hnd. rewrite map_app. cbn [map]. apply NoDup_snoc; [exact Hacc|].
      intro Hin. apply existsb_unit_In in Hin. congruence.
Qed.

Lemma taptoolsGetTopVolumeTokens_length (perPage : nat) :
  (List.length (taptoolsGetTopVolumeTokens w perPage) <= perPage)%nat.
Proof.
  unfold taptoolsGetTopVolumeTokens. destruct (http_topVolume w); cbn; [|lia].
  apply firstn_le_length.
Qed.

(** The units of the universe, whatever the prices. *)
Lemma getTopTokens_units (tokenSource : TokenSource) :
  exists extra,
    map vt_unit (getTopTokens table tokenSource w)
    = (if uses_predefined tokenSource then map tc_unit table else [])
      ++ map vt_unit extra /\
    (forall t, In t extra -> In t (taptoolsGetTopVolumeTokens w 10)) /\
    (List.length extra <= 10)%nat /\
    (uses_top_volume tokenSource = false -> extra = []) /\
    (NoDup (map tc_unit table) ->
     NoDup (map vt_unit (getTopTokens table tokenSource w))).
Proof.
  unfold getTopTokens, getAllTradingTokens.
  set (configured := if uses_predefined tokenSource then _ else _).
  assert (Hconf : map vt_unit configured
                  = if uses_predefined tokenSource then map tc_unit table else []).
  { unfold configured. destruct (uses_predefined tokenSource); [|reflexivity].
    rewrite map_map. reflexivity. }
  set (combined := if uses_top_volume tokenSource then _ else configured).
  assert (Hcomb : exists extra,
             combined = configured ++ extra /\
             (forall t, In t extra -> In t (taptoolsGetTopVolumeTokens w 10)) /\
             (List.length extra <= 10)%nat /\
             (uses_top_volume tokenSource = false -> extra = []) /\
             (NoDup (map vt_unit configured) -> NoDup (map vt_unit combined))).
  { unfold combined. destruct (uses_top_volume tokenSource).
    - destruct (fold_addIfNew (taptoolsGetTopVolumeTokens w 10) configured)
        as (extra & Heq & Hsub & Hlen & Hnd).
      exists extra. fold addIfNew. rewrite Heq.
      split; [reflexivity|]. split; [exact Hsub|].
      split; [pose proof (taptoolsGetTopVolumeTokens_length 10); lia|].
      split; [discriminate|exact Hnd].
    - exists []. rewrite app_nil_r.
      split; [reflexivity|]. split; [intros t []|].
      split; [cbn; lia|]. split; [reflexivity|auto]. }
  destruct Hcomb as (extra & Heq & Hsub & Hlen & Hoff & Hnd).
  assert (Hunits : map vt_unit
                     match map vt_unit (filter (fun t => Js.is_zero (vt_price t)) combined) with
                     | [] => combined
                     | _ :: _ =>
                         map (fun token =>
                                if Js.is_zero (vt_price token)
                                then set_price token
                                       (Js.opt_or_num
                                          (Js.get
                                             (taptoolsGetTokenPrices w
                                                (map vt_unit
                                                   (filter (fun t => Js.is_zero (vt_price t))
                                                      combined)))
                                             (vt_unit token)) 0)
                                else token) combined
                     end
                   = map vt_unit combined).
  { destruct (map vt_unit (filter _ combined)); [reflexivity|].
    apply (fill_units (taptoolsGetTokenPrices w (s :: l)) combined). }
  exists extra. rewrite Hunits.
  split; [rewrite Heq, map_app, Hconf; reflexivity|].
  split; [exact Hsub|]. split; [exact Hlen|]. split; [exact Hoff|].
  intro Htable. apply Hnd. rewrite Hconf.
  destruct (uses_predefined tokenSource); [exact Htable|constructor].
Qed.

End Universe.

(** The tokens an iteration evaluates: the configured tokens first, in the
    order of the table (when the source uses the table), then top-volume
    tokens, at most 10 of them and none when the source does not use them.
    When the units of the table are distinct no unit is evaluated twice: a
    top-volume token whose unit is already listed is left out. *)
Theorem universe_is_ordered_and_deduplicated
    (table : list TokenConfig) (tokenSource : TokenSource) (w : World) :
  NoDup (map tc_unit table) ->
  NoDup (map vt_unit (getTopTokens table tokenSource w)) /\
  exists extra,
    map vt_unit (getTopTokens table tokenSource w)
    = (if uses_predefined tokenSource then map tc_unit table else [])
      ++ map vt_unit extra /\
    (forall t, In t extra -> In t (taptoolsGetTopVolumeTokens w 10)) /\
    (List.length extra <= 10)%nat /\
    (uses_top_volume tokenSource = false -> extra = []).
Proof.
  intro Hnd.
  destruct (getTopTokens_units table w tokenSource)
    as (extra & Heq & Hsub & Hlen & Hoff & Hno).
  split; [now apply Hno|]. exists extra. repeat split; assumption.
Qed.

(** The shipped table with two top-volume tokens, one of them SNEK again. *)
Lemma universe_is_ordered_and_deduplicated_witness :
  let snek := "279c909f348e533da5808898f87f9a14bb2c3dfbbacccd631d927a3f534e454b" in
  let w :=
    mkWorld (Ok (mkResponse 200 [mkVolumeToken 1 "SNEK" snek 5;
                                 mkVolumeToken 2 "NEW" "ff00" 7]))
            (fun _ => Throw) (fun _ => Throw) (fun _ => Throw) (fun _ => Throw)
            (fun _ => Throw) (fun _ => Throw) (fun _ => Throw)
            (fun _ => Throw) (fun _ _ => Throw) in
  NoDup (map tc_unit TRADING_TOKENS) /\
  map vt_unit (getTopTokens TRADING_TOKENS COMBINED w)
  = map tc_unit TRADING_TOKENS ++ ["ff00"] /\
  NoDup (map vt_unit (getTopTokens TRADING_TOKENS COMBINED w)).
Proof.
  cbn zeta.
  assert (Hnd : NoDup (map tc_unit TRADING_TOKENS)).
  { cbn. repeat (constructor; [cbn; intuition discriminate|]). constructor. }
  split; [exact Hnd|]. split; [reflexivity|].
  exact (proj1 (universe_is_ordered_and_deduplicated TRADING_TOKENS COMBINED _ Hnd)).
Defined.

(** With the predefined list as the source, as shipped, the universe is the
    token table itself: every configured token once, in order, with volume 0
    and the price that one batch request for all units answered (0 for a unit
    without an answer, and for all of them when the request fails). *)
Theorem predefined_universe_is_the_table (table : list TokenConfig) (w : World) :
  getTopTokens table PREDEFINED_LIST w
  = map (fun t =>
           mkVolumeToken
             (Js.opt_or_num
                (Js.get (taptoolsGetTokenPrices w (map tc_unit table)) (tc_unit t)) 0)
             (tc_ticker t) (tc_unit t) 0)
        table.
Proof.
  unfold getTopTokens, getAllTradingTokens. cbn [uses_predefined uses_top_volume].
  set (mk := fun token => mkVolumeToken 0 (tc_ticker token) (tc_unit token) 0).
  assert (Hfilter : filter (fun t => Js.is_zero (vt_price t)) (map mk table)
                    = map mk table).
  { induction table as [|t l IH]; [reflexivity|]. cbn. now rewrite IH. }
  assert (Hunits : map vt_unit (map mk table) = map tc_unit table)
    by (rewrite map_map; reflexivity).
  rewrite Hfilter, Hunits.
  destruct (map tc_unit table) as [|u us] eqn:E.
  - destruct table; [reflexivity|discriminate E].
  - rewrite map_map. reflexivity.
Qed.

(** ** The token table *)

Lemma find_unique {A : Type} (key : A -> string) (l : list A) :
  NoDup (map key l) ->
  forall a, In a l -> find (fun x => String.eqb (key x) (key a)) l = Some a.
Proof.
  induction l as [|x l IH]; intros Hnd a Hin; [destruct Hin|].
  cbn [map] in Hnd. inversion Hnd as [|? ? Hx Hl]; subst. cbn [find].
  destruct (String.eqb (key x) (key a)) eqn:E.
  - apply String.eqb_eq in E. destruct Hin as [<-|Hin]; [reflexivity|].
    exfalso. apply Hx. rewrite E. now apply in_map.
  - destruct Hin as [<-|Hin]; [now rewrite String.eqb_refl in E|].
    now apply IH.
Qed.

(** Looking a configured token up by its unit, or by its ticker, gives that
    token back when the units, or the tickers, of the table are distinct; a
    lookup that finds a token finds one of the table with the key asked for,
    and a lookup finds nothing exactly when no token has the key. *)
Theorem token_lookup_round_trip (table : list TokenConfig) :
  (NoDup (map tc_unit table) ->
   forall t, In t table -> getTokenConfig table (tc_unit t) = Some t) /\
  (NoDup (map tc_ticker table) ->
   forall t, In t table -> getTokenConfigByTicker table (tc_ticker t) = Some t) /\
  (forall unit t,
     getTokenConfig table unit = Some t -> In t table /\ tc_unit t = unit) /\
  (forall unit,
     getTokenConfig table unit = None <-> ~ In unit (map tc_unit table)).
Proof.
  split; [|split; [|split]].
  - intros Hnd t Hin. apply (find_unique tc_unit table Hnd t Hin).
  - intros Hnd t Hin. apply (find_unique tc_ticker table Hnd t Hin).
  - intros unit t H. apply find_some in H. destruct H as [Hin E].
    apply String.eqb_eq in E. now split.
  - intro unit. unfold getTokenConfig. split.
    + intros H Hin. apply in_map_iff in Hin. destruct Hin as (t & E & Hin).
      apply (find_none _ _ H) in Hin. apply String.eqb_neq in Hin. contradiction.
    + intro Hno. destruct (find _ table) as [t|] eqn:E; [|reflexivity].
      exfalso. apply find_some in E. destruct E as [Hin E].
      apply String.eqb_eq in E. apply Hno. rewrite <- E. now apply in_map.
Qed.

(** The shipped table has distinct units and distinct tickers. *)
Lemma token_lookup_round_trip_witness :
  NoDup (map tc_unit TRADING_TOKENS) /\
  NoDup (map tc_ticker TRADING_TOKENS) /\
  getTokenConfigByTicker TRADING_TOKENS "SNEK"
  = getTokenConfig TRADING_TOKENS
      "279c909f348e533da5808898f87f9a14bb2c3dfbbacccd631d927a3f534e454b".
Proof.
  assert (Hu : NoDup (map tc_unit TRADING_TOKENS)).
  { cbn. repeat (constructor; [cbn; intuition discriminate|]). constructor. }
  assert (Ht : NoDup (map tc_ticker TRADING_TOKENS)).
  { cbn. repeat (constructor; [cbn; intuition discriminate|]). constructor. }
  split; [exact Hu|]. split; [exact Ht|].
  set (snek := mkTokenConfig
                 "279c909f348e533da5808898f87f9a14bb2c3dfbbacccd631d927a3f534e454b"
                 "SNEK" None meme_coins (Some 10) (Some 200)).
  assert (Hin : In snek TRADING_TOKENS) by (cbn; tauto).
  transitivity (Some snek).
  - exact (proj1 (proj2 (token_lookup_round_trip TRADING_TOKENS)) Ht snek Hin).
  - symmetry. exact (proj1 (token_lookup_round_trip TRADING_TOKENS) Hu snek Hin).
Defined.

(** The lists by category partition the table: a token is listed under a
    category exactly when it is in the table with that category, in table
    order, and the eight lists together are as long as the table. *)
Theorem tokens_by_category_partition (table : list TokenConfig) :
  (forall category t,
     In t (getTokensByCategory table category)
     <-> In t table /\ tc_category t = category) /\
  fold_right (fun category n =>
                (List.length (getTokensByCategory table category) + n)%nat)
             0%nat all_categories
  = List.length table.
Proof.
  split.
  - intros category t. unfold getTokensByCategory. rewrite filter_In.
    now rewrite Category_eqb_eq.
  - unfold getTokensByCategory, all_categories. cbn [fold_right].
    induction table as [|t l IH]; [reflexivity|].
    cbn [filter List.length]. rewrite <- IH.
    destruct (tc_category t); cbn [Category_eqb List.length]; lia.
Qed.

(** ** Which category a token is sized in *)

(** [getTokenInfo] looks the unit up among the tickers, so when no ticker of
    the table is also a unit of it, every configured token is sized with the
    fallback config: whatever its configured category, the sizer is called
    with category other, with the value and the 5 % target of other, and with
    a recommended size between 10 and 200. *)
Theorem configured_tokens_sized_as_other
    (table : list TokenConfig) (CARDANO_ADDRESS : option string) (w : World)
    (d : option Direction) (category : Category)
    (r total catValueNow userAdaBal : Q) :
  (forall t t', In t table -> In t' table -> tc_ticker t <> tc_unit t') ->
  In (CallSizer d category r total catValueNow userAdaBal)
     (trace (loop table PREDEFINED_LIST CARDANO_ADDRESS w)) ->
  let p := buildPortfolio table w (addressInfoOfIteration CARDANO_ADDRESS w) in
  category = other /\
  catValueNow = categoryValues p other /\
  targetRatios category == 5 # 100 /\
  10 <= r <= 200.
Proof.
  intros Hdisjoint H. cbn zeta. apply loop_event in H.
  destruct H as [H|[H|(tokenInfo & Hin & H)]]; try discriminate H.
  apply tokenStep_sizer in H.
  destruct H as (cfg & Hcfg & _ & _ & _ & _ & -> & -> & _ & -> & _).
  assert (Hunit : exists t', In t' table /\ vt_unit tokenInfo = tc_unit t').
  { destruct (getTopTokens_units table w PREDEFINED_LIST)
      as (extra & Heq & _ & _ & Hoff & _).
    rewrite (Hoff eq_refl) in Heq. cbn [uses_predefined map] in Heq.
    rewrite app_nil_r in Heq.
    assert (Hu : In (vt_unit tokenInfo) (map tc_unit table))
      by (rewrite <- Heq; now apply in_map).
    apply in_map_iff in Hu. destruct Hu as (t' & E & Ht'). now exists t'. }
  destruct Hunit as (t' & Ht' & Eu).
  assert (Efallback : cfg = fallbackConfig (vt_unit tokenInfo)).
  { rewrite getTokenInfo_of_no_ticker in Hcfg; [congruence|].
    intros t Ht. rewrite Eu. now apply Hdisjoint. }
  subst cfg. cbn [tc_category fallbackConfig].
  split; [reflexivity|]. split; [reflexivity|]. split; [reflexivity|].
  apply (recommended_clamped (fallbackConfig (vt_unit tokenInfo))).
  vm_compute. discriminate.
Qed.

(** The shipped table, a wallet of 1000 ADA, and a buy of TALOS, which is
    configured as ai. *)
Lemma configured_tokens_sized_as_other_witness :
  let w :=
    mkWorld Throw
            (fun _ => Ok (mkResponse 200 (mkAddressInfo (Some 1000000000%Z) None)))
            (fun _ => Throw) (fun _ => Throw) (fun _ => Throw)
            (fun _ => Throw) (fun _ => Throw) (fun _ => Throw)
            (fun _ => Ok (mkLlmDecision true (Some buy) (9 # 10) 40))
            (fun _ _ => Throw) in
  (forall t t', In t TRADING_TOKENS -> In t' TRADING_TOKENS ->
     tc_ticker t <> tc_unit t') /\
  In (CallSizer (Some buy) other 40 (1000000000 # 1000000) 0 (1000000000 # 1000000))
     (trace (loop TRADING_TOKENS PREDEFINED_LIST (Some "addr1qxy") w)) /\
  10 <= 40 <= 200.
Proof.
  cbn zeta. set (w := mkWorld _ _ _ _ _ _ _ _ _ _).
  assert (Hd : forall t t', In t TRADING_TOKENS -> In t' TRADING_TOKENS ->
                 tc_ticker t <> tc_unit t').
  { intros t t' Ht Ht'. cbn in Ht, Ht'.
    repeat (destruct Ht as [<-|Ht];
            [repeat (destruct Ht' as [<-|Ht']; [discriminate|]); destruct Ht'|]).
    destruct Ht. }
  assert (H : In (CallSizer (Some buy) other 40 (1000000000 # 1000000) 0
                            (1000000000 # 1000000))
                 (trace (loop TRADING_TOKENS PREDEFINED_LIST (Some "addr1qxy") w))).
  { vm_compute. right. left. reflexivity. }
  split; [exact Hd|]. split; [exact H|].
  exact (proj2 (proj2 (proj2 (configured_tokens_sized_as_other TRADING_TOKENS
                                (Some "addr1qxy") w _ _ _ _ _ _ Hd H)))).
Defined.

(** ** The classifier *)

Lemma prefix_app (sub post : string) : String.prefix sub (sub ++ post)%string = true.
Proof.
  induction sub as [|a sub IH]; cbn.
  - destruct post; reflexivity.
  - destruct (Ascii.ascii_dec a a) as [_|Hne]; [exact IH|now elim Hne].
Qed.

Lemma prefix_split (sub : string) :
  forall s, String.prefix sub s = true -> exists post, s = (sub ++ post)%string.
Proof.
  induction sub as [|a sub IH]; intros s H.
  - exists s. reflexivity.
  - destruct s as [|b s]; cbn in H; [discriminate H|].
    destruct (Ascii.ascii_dec a b) as [<-|_]; [|discriminate H].
    destruct (IH s H) as [post ->]. exists post. reflexivity.
Qed.

(** [includes] is containment: the string is some text, then [sub], then
    some text. *)
Lemma includes_spec (sub : string) :
  forall s,
    includes s sub = true
    <-> exists pre post, s = (pre ++ sub ++ post)%string.
Proof.
  induction s as [|c s IH].
  - cbn [includes]. destruct (String.prefix sub "") eqn:E.
    + split; [intros _|reflexivity].
      destruct (prefix_split sub _ E) as [post Hpost]. now exists ""%string, post.
    + split; [discriminate|]. intros (pre & post & H). exfalso.
      destruct pre; [|discriminate H]. cbn in H.
      rewrite H, prefix_app in E. discriminate E.
  - cbn [includes]. destruct (String.prefix sub (String c s)) eqn:E.
    + split; [intros _|reflexivity].
      destruct (prefix_split sub _ E) as [post Hpost]. now exists ""%string, post.
    + rewrite IH. split.
      * intros (pre & post & ->). now exists (String c pre), post.
      * intros (pre & post & H). destruct pre as [|c' pre].
        -- cbn in H. rewrite H, prefix_app in E. discriminate E.
        -- cbn in H. injection H as _ ->. now exists pre, post.
Qed.

Lemma some_included_spec (ids : list string) (unit : string) :
  some_included ids unit = true
  <-> exists id pre post, In id ids /\ unit = (pre ++ id ++ post)%string.
Proof.
  unfold some_included. rewrite existsb_exists. split.
  - intros (id & Hin & H). apply includes_spec in H.
    destruct H as (pre & post & ->). now exists id, pre, post.
  - intros (id & pre & post & Hin & ->). exists id. split; [exact Hin|].
    apply includes_spec. now exists pre, post.
Qed.

(** The classifier matches by containment: a unit is stable as soon as a
    stable policy id occurs anywhere in it (not only as its policy prefix),
    even when a defi id occurs too; it is defi when no stable id but a defi
    id occurs in it; it is other in every other case, so it is never one of
    the five other categories.  The template's classifier differs only in
    calling governance what the current one calls other. *)
Theorem classifier_matches_by_containment (policies : TokenPolicies) (unit : string) :
  (classifyToken policies unit = stable
   <-> exists id pre post,
         In id (policies_stable policies) /\ unit = (pre ++ id ++ post)%string) /\
  (classifyToken policies unit = defi
   <-> some_included (policies_stable policies) unit = false /\
       exists id pre post,
         In id (policies_defi policies) /\ unit = (pre ++ id ++ post)%string) /\
  (classifyToken policies unit = stable \/ classifyToken policies unit = defi \/
   classifyToken policies unit = other) /\
  withoutGovernance (Template.classifyToken policies unit)
  = classifyToken policies unit.
Proof.
  unfold classifyToken, Template.classifyToken.
  rewrite <- !some_included_spec.
  destruct (some_included (policies_stable policies) unit);
    destruct (some_included (policies_defi policies) unit);
    destruct (some_included (policies_governance policies) unit);
    cbn; repeat split; auto; try discriminate; intros []; discriminate.
Qed.

(** ** The decimals lookup *)

Lemma substring_split (n : nat) :
  forall s, (substring 0 n s ++ substring n (String.length s - n) s)%string = s.
Proof.
  induction n as [|n IH]; intro s.
  - rewrite Nat.sub_0_r. destruct s as [|c s]; [reflexivity|].
    cbn [substring String.length append].
    f_equal. clear c. induction s as [|c s IHs]; [reflexivity|].
    cbn. now rewrite IHs.
  - destruct s as [|c s]; [reflexivity|].
    cbn [substring String.length Nat.sub append]. f_equal. apply IH.
Qed.

(** The two decimals lookups, of the entry module and of the service, ask
    Iris with the same split of the unit, which loses nothing (the first 56
    characters as the policy id, the rest as the name), and return the same
    number: the decimals of the first match, and 0 when the request throws,
    when nothing matches, and when the first match has no decimals. *)
Theorem decimals_lookups_agree (w : World) (unit : string) :
  let policyId := Js.slice0 56 unit in
  let nameHex := substring 56 (String.length unit - 56) unit in
  (policyId ++ nameHex)%string = unit /\
  DexterService.getAssetDecimals w unit = getAssetDecimals w unit /\
  getAssetDecimals w unit
  = match iris_assets w policyId nameHex with
    | Ok (Some d :: _) => d
    | _ => 0%Z
    end.
Proof.
  cbn zeta. split; [apply substring_split|].
  unfold DexterService.getAssetDecimals, getAssetDecimals.
  destruct (iris_assets w _ _) as [[|[d|] l]|]; cbn; try (split; reflexivity).
  destruct (Z.eqb d 0) eqn:E; [|split; reflexivity].
  apply Z.eqb_eq in E. subst d. split; reflexivity.
Qed.

(** ** The two TapTools clients *)

Lemma data_or_body_or (r : Exc (Response Json)) (default : Json) :
  plain_answer r -> TapToolsService.data_or r default = body_or r default.
Proof.
  intro H. destruct r as [resp|]; [|reflexivity]. cbn.
  now rewrite (H resp eq_refl).
Qed.

Lemma data_or_body_or_compared (r : Exc (Response Json)) (default : Json) :
  same_but_for_status r default
    (TapToolsService.data_or r default) (body_or r default).
Proof.
  split; [apply data_or_body_or|]. split.
  - intros resp -> Hstatus. cbn. apply Z.eqb_neq in Hstatus.
    now rewrite Hstatus.
  - destruct r as [resp|]; cbn.
    + destruct (Z.eqb (status resp) 200) eqn:E; split.
      * intros _ resp' [= <-]. left. now apply Z.eqb_eq.
      * reflexivity.
      * intros H resp' [= <-]. now right.
      * intro H. destruct (H resp eq_refl) as [H200|Hdata]; [|exact Hdata].
        apply Z.eqb_neq in E. contradiction.
    + split; [intros _ resp H; discriminate H|reflexivity].
Qed.

(** The service and the entry module fetch alike: the same tokens, address
    info and prices for every answer, and, for each of the five market-data
    requests, the same data whenever the request throws or is answered with
    status 200.  On any other status the entry module falls back to its
    empty default while the service passes the body on, so the two results
    are equal exactly when the status is 200 or the body is that default. *)
Theorem taptools_clients_agree (w : World) (unit : string) :
  (forall perPage,
     TapToolsService.getTopVolumeTokens w perPage = taptoolsGetTopVolumeTokens w perPage) /\
  (forall address,
     TapToolsService.getAddressInfo w address = taptoolsGetAddressInfo w address) /\
  (forall units,
     TapToolsService.getTokenPrices w units = taptoolsGetTokenPrices w units) /\
  same_but_for_status (http_priceChg w unit) JEmptyObject
    (TapToolsService.getTokenPriceChg w unit) (taptoolsGetTokenPriceChg w unit) /\
  same_but_for_status (http_pools w unit) JEmptyArray
    (TapToolsService.getTokenPools w unit) (taptoolsGetTokenPools w unit) /\
  same_but_for_status (http_ohlcv w unit) JEmptyArray
    (TapToolsService.getTokenOhlcv w unit) (taptoolsGetTokenOhlcv w unit) /\
  same_but_for_status (http_tradingStats w unit) JEmptyObject
    (TapToolsService.getTokenTradingStats w unit) (taptoolsGetTokenTradingStats w unit) /\
  same_but_for_status (http_mcap w unit) JEmptyObject
    (TapToolsService.getTokenMcap w unit) (taptoolsGetTokenMcap w unit).
Proof.
  split; [reflexivity|]. split; [reflexivity|]. split; [reflexivity|].
  unfold TapToolsService.getTokenPriceChg, taptoolsGetTokenPriceChg,
    TapToolsService.getTokenPools, taptoolsGetTokenPools,
    TapToolsService.getTokenOhlcv, taptoolsGetTokenOhlcv,
    TapToolsService.getTokenTradingStats, taptoolsGetTokenTradingStats,
    TapToolsService.getTokenMcap, taptoolsGetTokenMcap.
  split; [apply data_or_body_or_compared|].
  split; [apply data_or_body_or_compared|].
  split; [apply data_or_body_or_compared|].
  split; apply data_or_body_or_compared.
Qed.

(** Pools answered with status 204 and a body, trading stats answered with
    status 204 and an empty object, market cap not answered. *)
Lemma taptools_clients_agree_witness :
  let w :=
    mkWorld Throw (fun _ => Throw) (fun _ => Throw) (fun _ => Throw)
            (fun _ => Ok (mkResponse 204 (JData "[1]")))
            (fun _ => Throw)
            (fun _ => Ok (mkResponse 204 JEmptyObject))
            (fun _ => Throw)
            (fun _ => Throw) (fun _ _ => Throw) in
  plain_answer (http_mcap w "aa") /\
  TapToolsService.getTokenMcap w "aa" = taptoolsGetTokenMcap w "aa" /\
  taptoolsGetTokenPools w "aa" = JEmptyArray /\
  TapToolsService.getTokenPools w "aa" = JData "[1]" /\
  TapToolsService.getTokenTradingStats w "aa" = taptoolsGetTokenTradingStats w "aa".
Proof.
  cbn zeta. set (w := mkWorld _ _ _ _ _ _ _ _ _ _).
  assert (Hplain : plain_answer (http_mcap w "aa")) by (intros resp E; discriminate E).
  split; [exact Hplain|].
  destruct (taptools_clients_agree w "aa")
    as (_ & _ & _ & _ & Hpools & _ & Hstats & Hmcap).
  split; [exact (proj1 Hmcap Hplain)|].
  destruct (proj1 (proj2 Hpools) (mkResponse 204 (JData "[1]")) eq_refl) as [H1 H2];
    [discriminate|].
  split; [exact H1|]. split; [exact H2|].
  apply (proj2 (proj2 Hstats)). intros resp [= <-]. now right.
Defined.

(** ** The swap executor *)

(** The head of the sort: the first pool, in the order of the answer, among
    those of the highest TVL. *)
Lemma sortByTvl_head (pools : list IrisLiquidityPool) :
  pools <> [] ->
  exists l1 p l2 rest,
    pools = l1 ++ p :: l2 /\
    sortByTvl pools = p :: rest /\
    (forall q, In q l1 -> (tvlOf q < tvlOf p)%Z) /\
    (forall q, In q l2 -> (tvlOf q <= tvlOf p)%Z).
Proof.
  induction pools as [|x l IH]; intro Hne; [contradiction|].
  destruct l as [|y l'].
  - exists [], x, [], []. cbn. repeat split; intros q [].
  - destruct IH as (l1 & p & l2 & rest & Heq & Hsort & Hbefore & Hafter);
      [discriminate|].
    cbn [sortByTvl fold_right] in Hsort |- *. rewrite Hsort. cbn [insertByTvl].
    destruct (tvlOf p <=? tvlOf x)%Z eqn:E.
    + apply Z.leb_le in E.
      exists [], x, (y :: l'), (p :: rest).
      split; [reflexivity|]. split; [reflexivity|]. split; [intros q []|].
      intros q Hq. rewrite Heq in Hq. apply in_app_or in Hq.
      destruct Hq as [Hq|[<-|Hq]].
      * specialize (Hbefore q Hq). lia.
      * exact E.
      * specialize (Hafter q Hq). lia.
    + apply Z.leb_gt in E.
      exists (x :: l1), p, l2, (insertByTvl x rest).
      split; [rewrite Heq; reflexivity|]. split; [reflexivity|].
      split; [|exact Hafter].
      intros q [<-|Hq]; [exact E|now apply Hbefore].
Qed.

Lemma sortByTvl_nil (pools : list IrisLiquidityPool) :
  sortByTvl pools = [] -> pools = [].
Proof.
  destruct pools as [|x l]; [reflexivity|]. intro H. exfalso.
  destruct (sortByTvl_head (x :: l)) as (_ & p & _ & rest & _ & E & _);
    [discriminate|]. rewrite E in H. discriminate H.
Qed.

(** The pool the executor trades in.  When Iris answers with pools, the pool
    found is the one of the highest TVL, the first of them in the answer's
    order when several share it; when Iris answers with no pool, none is
    found; when the query throws, the search throws. *)
Theorem best_pool_is_found
    (SundaeSwapV1_identifier : string)
    (irisPools : string -> Exc (list IrisLiquidityPool)) (unit : string) :
  let found := findDexPoolForToken SundaeSwapV1_identifier irisPools unit in
  (irisPools unit = Throw -> found = Throw) /\
  (irisPools unit = Ok [] -> found = Ok None) /\
  (forall pools,
     irisPools unit = Ok pools -> pools <> [] ->
     exists l1 p l2,
       pools = l1 ++ p :: l2 /\
       found = Ok (Some (toDexterLiquidityPool SundaeSwapV1_identifier p)) /\
       (forall q, In q l1 -> (tvlOf q < tvlOf p)%Z) /\
       (forall q, In q l2 -> (tvlOf q <= tvlOf p)%Z)).
Proof.
  cbn zeta. unfold findDexPoolForToken. split; [|split].
  - now intros ->.
  - now intros ->.
  - intros pools -> Hne.
    destruct (sortByTvl_head pools Hne) as (l1 & p & l2 & rest & Heq & Hsort & H1 & H2).
    exists l1, p, l2. rewrite Hsort. cbn [map]. repeat split; assumption.
Qed.

(** Three pools of TVL 5, 9 and 9: the first of the two with 9 is found. *)
Lemma best_pool_is_found_witness :
  let pool name tvl :=
    mkIrisLiquidityPool "Minswap" IrisLovelace (IrisAsset "aa" "bb" None)
      (Some (mkIrisPoolState None None (Some tvl) None None)) "addr" "order" name None in
  let pools := [pool "p5" 5%Z; pool "p9" 9%Z; pool "q9" 9%Z] in
  let irisPools := fun _ : string => Ok pools in
  irisPools "aabb" = Ok pools /\
  pools <> [] /\
  findDexPoolForToken "SundaeSwapV1" irisPools "aabb"
  = Ok (Some (toDexterLiquidityPool "SundaeSwapV1" (pool "p9" 9%Z))) /\
  exists l1 p l2,
    pools = l1 ++ p :: l2 /\
    findDexPoolForToken "SundaeSwapV1" irisPools "aabb"
    = Ok (Some (toDexterLiquidityPool "SundaeSwapV1" p)) /\
    (forall q, In q l1 -> (tvlOf q < tvlOf p)%Z) /\
    (forall q, In q l2 -> (tvlOf q <= tvlOf p)%Z).
Proof.
  cbn zeta. split; [reflexivity|]. split; [discriminate|]. split; [reflexivity|].
  refine (proj2 (proj2 (best_pool_is_found "SundaeSwapV1" _ "aabb")) _ eq_refl _).
  discriminate.
Defined.

(** ** Binary64 rounding *)

Module Binary64.

Import Js.

Lemma two_pow_pos (e : Z) : 0 < 2 ^ e.
Proof. apply Qpower_0_lt. reflexivity. Qed.

Lemma two_pow_inject (e : Z) : (0 <= e)%Z -> 2 ^ e == inject_Z (2 ^ e).
Proof. intro H. now rewrite Zpower_Qpower. Qed.

Lemma two_pow_succ (e : Z) : 2 ^ (e + 1) == 2 * 2 ^ e.
Proof. rewrite Qpower_plus by discriminate. rewrite Qpower_1_r. ring. Qed.

Lemma inject_Z_pos (z : Z) : (0 < z)%Z -> 0 < inject_Z z.
Proof. intro H. unfold Qlt. cbn. lia. Qed.

(** A fraction between the powers of two that bound its numerator and its
    denominator. *)
Lemma Qmake_log2_bounds (n : Z) (d : positive) :
  (0 < n)%Z ->
  let e := (Z.log2 n - Z.log2 (Zpos d))%Z in
  2 ^ (e - 1) <= n # d /\ n # d < 2 ^ (e + 1).
Proof.
  intros Hn e.
  destruct (Z.log2_spec n Hn) as [Hn1 Hn2].
  destruct (Z.log2_spec (Zpos d) eq_refl) as [Hd1 Hd2].
  pose proof (Z.log2_nonneg n) as Ha. pose proof (Z.log2_nonneg (Zpos d)) as Hb.
  set (a := Z.log2 n) in *. set (b := Z.log2 (Zpos d)) in *.
  assert (Hx : n # d == inject_Z n / inject_Z (Zpos d)) by apply Qmake_Qdiv.
  assert (Hdpos : 0 < inject_Z (Zpos d)) by reflexivity.
  assert (Hlo : 2 ^ (e - 1) == inject_Z (2 ^ a) / inject_Z (2 ^ Z.succ b)).
  { replace (e - 1)%Z with (a - Z.succ b)%Z by (unfold e; lia).
    rewrite Qpower_minus by discriminate.
    rewrite !two_pow_inject by lia. reflexivity. }
  assert (Hhi : 2 ^ (e + 1) == inject_Z (2 ^ Z.succ a) / inject_Z (2 ^ b)).
  { replace (e + 1)%Z with (Z.succ a - b)%Z by (unfold e; lia).
    rewrite Qpower_minus by discriminate.
    rewrite !two_pow_inject by lia. reflexivity. }
  assert (Hpa : (0 < 2 ^ a)%Z) by (apply Z.pow_pos_nonneg; lia).
  assert (Hpb : (0 < 2 ^ b)%Z) by (apply Z.pow_pos_nonneg; lia).
  assert (Hpsb : (0 < 2 ^ Z.succ b)%Z) by (apply Z.pow_pos_nonneg; lia).
  split.
  - rewrite Hlo, Hx.
    apply Qle_shift_div_l; [exact Hdpos|].
    unfold Qdiv. rewrite <- Qmult_assoc, (Qmult_comm (/ _)), Qmult_assoc.
    apply Qle_shift_div_r; [now apply inject_Z_pos|].
    rewrite <- !inject_Z_mult, <- Zle_Qle. nia.
  - rewrite Hhi, Hx.
    apply Qlt_shift_div_r; [exact Hdpos|].
    unfold Qdiv. rewrite <- Qmult_assoc, (Qmult_comm (/ _)), Qmult_assoc.
    apply Qlt_shift_div_l; [now apply inject_Z_pos|].
    rewrite <- !inject_Z_mult, <- Zlt_Qlt. nia.
Qed.

Lemma ilog2_spec (x : Q) : 0 < x -> 2 ^ ilog2 x <= x /\ x < 2 ^ (ilog2 x + 1).
Proof.
  intro Hx. unfold ilog2.
  assert (Hn : (0 < Qnum x)%Z).
  { destruct x as [n d]. unfold Qlt in Hx. cbn in *. lia. }
  pose proof (Qmake_log2_bounds (Qnum x) (Qden x) Hn) as H. cbn zeta in H.
  assert (E : Qnum x # Qden x = x) by (destruct x; reflexivity).
  rewrite E in H. destruct H as [Hlo Hhi].
  set (e := (Z.log2 (Qnum x) - Z.log2 (Z.pos (Qden x)))%Z) in *.
  destruct (Qle_bool (2 ^ e) x) eqn:T.
  - apply Qle_bool_iff in T. split; assumption.
  - split; [exact Hlo|].
    replace (e - 1 + 1)%Z with e by lia.
    apply Qnot_le_lt. intro H. apply Qle_bool_iff in H. congruence.
Qed.

Lemma roundHalfEven_floor (m : Q) :
  (Qfloor m <= roundHalfEven m <= Qfloor m + 1)%Z.
Proof.
  unfold roundHalfEven.
  destruct (Qcompare _ _); [destruct (Z.even _)| |]; lia.
Qed.

Lemma roundHalfEven_close (m : Q) :
  m - (1 # 2) <= inject_Z (roundHalfEven m) <= m + (1 # 2).
Proof.
  unfold roundHalfEven.
  pose proof (Qfloor_le m) as Hlo. pose proof (Qlt_floor m) as Hhi.
  rewrite inject_Z_plus in Hhi. change (inject_Z 1) with 1 in Hhi.
  destruct (Qcompare (m - inject_Z (Qfloor m)) (1 # 2)) eqn:C.
  - rewrite <- Qeq_alt in C.
    destruct (Z.even _); [|rewrite inject_Z_plus; change (inject_Z 1) with 1];
      split; lra.
  - rewrite <- Qlt_alt in C. split; lra.
  - rewrite <- Qgt_alt in C. rewrite inject_Z_plus. change (inject_Z 1) with 1.
    split; lra.
Qed.

Lemma roundHalfEven_integer (m : Q) (k : Z) :
  m == inject_Z k -> roundHalfEven m = k.
Proof.
  intro H. unfold roundHalfEven.
  assert (Hf : Qfloor m = k) by (rewrite H; apply Qfloor_Z).
  rewrite Hf.
  assert (C : Qcompare (m - inject_Z k) (1 # 2) = Lt).
  { rewrite <- Qlt_alt. rewrite H. lra. }
  now rewrite C.
Qed.

Lemma Qabs_of_pos (x : Q) : 0 < x -> Qabs x = x.
Proof.
  destruct x as [[|p|p] d]; intro H; try reflexivity; discriminate H.
Qed.

Lemma round64_pos (x : Q) :
  0 < x ->
  round64 x
  = let r := inject_Z (roundHalfEven (x / 2 ^ lastPlace x)) * 2 ^ lastPlace x in
    if Qle_bool (2 ^ 1024) (Qabs r) then None else Some r.
Proof.
  intro H. unfold round64, ulp.
  rewrite (Qabs_of_pos x H).
  destruct (Qeq_bool x 0) eqn:E; [|reflexivity].
  apply Qeq_bool_iff in E. lra.
Qed.

Lemma round64_pos_some (x r : Q) :
  0 < x -> round64 x = Some r ->
  r = inject_Z (roundHalfEven (x / 2 ^ lastPlace x)) * 2 ^ lastPlace x.
Proof.
  intros H. rewrite (round64_pos x H). cbn zeta.
  destruct (Qle_bool _ _); [discriminate|]. now intros [= <-].
Qed.

(** The last place as a fraction of 1: when it is not positive, its inverse is
    an integer. *)
Lemma lastPlace_inverse (l : Z) :
  (l <= 0)%Z -> 2 ^ l * inject_Z (2 ^ (- l)) == 1.
Proof.
  intro H. rewrite <- two_pow_inject by lia.
  rewrite <- Qpower_plus by discriminate.
  replace (l + - l)%Z with 0%Z by lia. reflexivity.
Qed.

(** Rounding never goes below an integer of at most 53 bits that the number
    is not below. *)
Lemma round64_ge_integer (c : Z) (x r : Q) :
  (0 < c < 2 ^ 53)%Z -> inject_Z c <= x -> round64 x = Some r -> inject_Z c <= r.
Proof.
  intros [Hc0 Hc53] Hcx Hr.
  assert (Hx : 0 < x).
  { apply Qlt_le_trans with (inject_Z c); [now apply inject_Z_pos|exact Hcx]. }
  rewrite (round64_pos_some x r Hx Hr).
  pose proof (two_pow_pos (lastPlace x)) as Hu.
  set (u := 2 ^ lastPlace x) in *.
  pose proof (roundHalfEven_floor (x / u)) as [Hfl _].
  set (n := roundHalfEven (x / u)) in *.
  destruct (Z_le_gt_dec (lastPlace x) 0) as [Hl|Hl].
  - pose proof (lastPlace_inverse _ Hl) as HK. fold u in HK.
    set (K := (2 ^ (- lastPlace x))%Z) in *.
    assert (Hm : inject_Z (c * K) <= x / u).
    { apply Qle_shift_div_l; [exact Hu|].
      rewrite inject_Z_mult.
      setoid_replace (inject_Z c * inject_Z K * u)
        with (inject_Z c * (u * inject_Z K)) by ring.
      rewrite HK. lra. }
    apply Qfloor_resp_le in Hm. rewrite Qfloor_Z in Hm.
    assert (Hn : inject_Z (c * K) <= inject_Z n) by (rewrite <- Zle_Qle; lia).
    rewrite inject_Z_mult in Hn.
    setoid_replace (inject_Z c) with (inject_Z c * inject_Z K * u)
      by (setoid_replace (inject_Z c * inject_Z K * u)
            with (inject_Z c * (u * inject_Z K)) by ring; rewrite HK; ring).
    apply Qmult_le_compat_r; [exact Hn|lra].
  - assert (He : lastPlace x = (ilog2 x - 52)%Z) by (unfold lastPlace in *; lia).
    destruct (ilog2_spec x Hx) as [Hlo _].
    assert (Hm : inject_Z (2 ^ 52) <= x / u).
    { apply Qle_shift_div_l; [exact Hu|].
      rewrite <- two_pow_inject by lia. unfold u.
      rewrite <- Qpower_plus by discriminate.
      replace (52 + lastPlace x)%Z with (ilog2 x) by lia. exact Hlo. }
    apply Qfloor_resp_le in Hm. rewrite Qfloor_Z in Hm.
    assert (Hn : inject_Z (2 ^ 52) <= inject_Z n) by (rewrite <- Zle_Qle; lia).
    apply Qle_trans with (inject_Z (2 ^ 52) * u).
    + apply Qle_trans with (inject_Z (2 ^ 53)); [rewrite <- Zle_Qle; lia|].
      rewrite <- !two_pow_inject by lia. unfold u.
      rewrite <- Qpower_plus by discriminate.
      apply Qpower_le_compat_l; [lia|lra].
    + apply Qmult_le_compat_r; [exact Hn|lra].
Qed.

(** An integer of at most 53 bits is a binary64 number: rounding keeps it. *)
Lemma round64_integer (k : Z) (x : Q) :
  (0 < k < 2 ^ 53)%Z -> x == inject_Z k ->
  exists r, round64 x = Some r /\ r == inject_Z k.
Proof.
  intros [Hk0 Hk53] Hxk.
  assert (Hx : 0 < x) by (rewrite Hxk; now apply inject_Z_pos).
  destruct (ilog2_spec x Hx) as [Hlo _].
  assert (He : (ilog2 x < 53)%Z).
  { apply (Qpower_lt_compat_l_inv 2); [|lra].
    apply Qle_lt_trans with x; [exact Hlo|].
    rewrite Hxk, two_pow_inject by lia. rewrite <- Zlt_Qlt. exact Hk53. }
  assert (Hl : (lastPlace x <= 0)%Z) by (unfold lastPlace; lia).
  pose proof (lastPlace_inverse _ Hl) as HK.
  pose proof (two_pow_pos (lastPlace x)) as Hu.
  rewrite (round64_pos x Hx). cbn zeta.
  set (u := 2 ^ lastPlace x) in *. set (K := (2 ^ (- lastPlace x))%Z) in *.
  assert (Hr : inject_Z (k * K) * u == inject_Z k).
  { rewrite inject_Z_mult.
    setoid_replace (inject_Z k * inject_Z K * u)
      with (inject_Z k * (u * inject_Z K)) by ring.
    rewrite HK. ring. }
  assert (Hm : x / u == inject_Z (k * K)).
  { rewrite Hxk, <- Hr. field. lra. }
  rewrite (roundHalfEven_integer _ _ Hm).
  assert (Hover : Qle_bool (2 ^ 1024) (Qabs (inject_Z (k * K) * u)) = false).
  { destruct (Qle_bool _ _) eqn:T; [|reflexivity].
    apply Qle_bool_iff in T. rewrite Hr in T.
    rewrite Qabs_pos in T by (apply Qlt_le_weak; now apply inject_Z_pos).
    assert (H53 : inject_Z k < 2 ^ 53).
    { rewrite two_pow_inject by lia. rewrite <- Zlt_Qlt. exact Hk53. }
    assert (H1024 : (2:Q) ^ 53 <= 2 ^ 1024) by (apply Qpower_le_compat_l; [lia|lra]).
    lra. }
  rewrite Hover. eexists. split; [reflexivity|exact Hr].
Qed.

(** From 2^-1022 on, rounding moves a number by at most one part in 2^53. *)
Lemma round64_relative (x r : Q) :
  1 <= x -> round64 x = Some r -> Qabs (r - x) <= x * (1 # 9007199254740992).
Proof.
  intros H1 Hr.
  assert (Hx : 0 < x) by lra.
  rewrite (round64_pos_some x r Hx Hr).
  destruct (ilog2_spec x Hx) as [Hlo Hhi].
  assert (He : (0 <= ilog2 x)%Z).
  { assert (H : (-1 < ilog2 x)%Z); [|lia].
    replace (-1)%Z with (0 - 1)%Z by lia.
    assert (H' : (0 < ilog2 x + 1)%Z); [|lia].
    apply (Qpower_lt_compat_l_inv 2); [|lra].
    change (2 ^ 0) with 1. lra. }
  assert (Hl : lastPlace x = (ilog2 x - 52)%Z) by (unfold lastPlace; lia).
  pose proof (two_pow_pos (lastPlace x)) as Hu.
  assert (Hux : 2 ^ lastPlace x * (1 # 2) <= x * (1 # 9007199254740992)).
  { rewrite Hl. rewrite Qpower_minus by discriminate.
    assert (H52 : (2:Q) ^ 52 == inject_Z (2 ^ 52)) by (apply two_pow_inject; lia).
    rewrite H52.
    setoid_replace (2 ^ ilog2 x / inject_Z (2 ^ 52) * (1 # 2))
      with (2 ^ ilog2 x * (1 # 9007199254740992)) by (vm_compute (inject_Z _); vm_compute (1 # 9007199254740992); field).
    apply Qmult_le_compat_r; [exact Hlo|discriminate]. }
  set (u := 2 ^ lastPlace x) in *.
  pose proof (roundHalfEven_close (x / u)) as [Hn1 Hn2].
  set (n := inject_Z (roundHalfEven (x / u))) in *.
  assert (Hxu : x == x / u * u) by (field; lra).
  apply Qabs_Qle_condition. split.
  - apply Qle_trans with (- (u * (1 # 2))); [lra|].
    setoid_replace (n * u - x) with ((n - x / u) * u) by (field; lra).
    setoid_replace (- (u * (1 # 2))) with ((- (1 # 2)) * u) by ring.
    apply Qmult_le_compat_r; lra.
  - apply Qle_trans with (u * (1 # 2)); [|lra].
    setoid_replace (n * u - x) with ((n - x / u) * u) by (field; lra).
    setoid_replace (u * (1 # 2)) with ((1 # 2) * u) by ring.
    apply Qmult_le_compat_r; lra.
Qed.

(** The product with one million of an amount of at least 1: at least one
    million, and within one part in 2^51 of the exact product. *)
Lemma mul64_million_bounds (q p : Q) :
  1 <= q -> mul64 q 1000000 = Some p ->
  1000000 <= p /\
  Qabs (p - q * 1000000) <= q * 1000000 * (1 # 2251799813685248).
Proof.
  intros Hq. unfold mul64.
  destruct (round64 q) as [a|] eqn:Ea; [|discriminate].
  destruct (round64_integer 1000000 1000000) as (b & Eb & Hb);
    [split; reflexivity|reflexivity|].
  rewrite Eb. change (inject_Z 1000000) with 1000000 in Hb. intro Ep.
  assert (Ha : 1 <= a).
  { apply (round64_ge_integer 1 q a); [split; reflexivity|exact Hq|exact Ea]. }
  assert (Hab : 1000000 <= a * b) by (rewrite Hb; lra).
  split.
  - apply (round64_ge_integer 1000000 (a * b) p);
      [split; reflexivity|exact Hab|exact Ep].
  - pose proof (round64_relative q a Hq Ea) as H1.
    assert (Hab1 : 1 <= a * b) by lra.
    pose proof (round64_relative (a * b) p Hab1 Ep) as H2.
    rewrite Hb in H2.
    apply Qabs_Qle_condition in H1. apply Qabs_Qle_condition in H2.
    apply Qabs_Qle_condition. split; lra.
Qed.

(** A whole number of ADA below 2^53 lovelace has its exact product. *)
Lemma mul64_whole_ada (n : Z) (q : Q) :
  (0 < n)%Z -> (n * 1000000 < 2 ^ 53)%Z -> q == inject_Z n ->
  exists p, mul64 q 1000000 = Some p /\ p == inject_Z (n * 1000000).
Proof.
  intros Hn Hbig Hq. unfold mul64.
  destruct (round64_integer n q) as (a & Ea & Ha); [lia|exact Hq|].
  destruct (round64_integer 1000000 1000000) as (b & Eb & Hb);
    [split; reflexivity|reflexivity|].
  rewrite Ea, Eb.
  apply round64_integer; [lia|].
  rewrite Ha, Hb, inject_Z_mult. reflexivity.
Qed.

End Binary64.

(** ** The swap executor *)

Lemma toBigInt_ok (x : Q) (n : Z) : toBigInt x = Ok n -> inject_Z n == x.
Proof.
  unfold toBigInt. pose proof (Qred_correct x) as Hred.
  destruct (Qred x) as [num den]. cbn [Qden Qnum].
  destruct (Pos.eqb den 1) eqn:E; [|discriminate].
  apply Pos.eqb_eq in E. subst den. intro H. injection H as <-. exact Hred.
Qed.

Lemma toBigInt_whole (x : Q) (n : Z) : inject_Z n == x -> toBigInt x = Ok n.
Proof.
  intro H. symmetry in H. unfold toBigInt. rewrite (Qred_complete _ _ H).
  rewrite Qcanon.Qred_identity; [reflexivity|]. cbn. apply Z.gcd_1_r.
Qed.

(** The conversion to lovelace succeeds exactly when the binary64 product is
    a whole number, and gives that number. *)
Lemma lovelaceOf_ok (quantityAda : Q) (lovelace : Z) :
  lovelaceOf quantityAda = Ok lovelace
  <-> exists product,
        Js.mul64 quantityAda 1000000 = Some product /\ inject_Z lovelace == product.
Proof.
  unfold lovelaceOf. split.
  - destruct (Js.mul64 quantityAda 1000000) as [product|]; [|discriminate].
    intro H. exists product. split; [reflexivity|now apply toBigInt_ok].
  - intros (product & -> & H). now apply toBigInt_whole.
Qed.

(** The lovelace of an amount of at least 1 ADA: at least one million, and
    within one part in 2^51 of the exact product. *)
Lemma lovelaceOf_bounds (quantityAda : Q) (lovelace : Z) :
  1 <= quantityAda -> lovelaceOf quantityAda = Ok lovelace ->
  (1000000 <= lovelace)%Z /\
  Qabs (inject_Z lovelace - quantityAda * 1000000)
  <= quantityAda * 1000000 * (1 # 2251799813685248).
Proof.
  intros Hq H. apply lovelaceOf_ok in H. destruct H as (product & Hp & Hn).
  destruct (Binary64.mul64_million_bounds _ _ Hq Hp) as [Hge Hclose].
  split.
  - rewrite Zle_Qle, Hn. exact Hge.
  - rewrite Hn. exact Hclose.
Qed.

(** What a submitted request is made of. *)
Lemma executeDexSwap_submit
    (SundaeSwapV1_identifier : string)
    (irisPools : string -> Exc (list IrisLiquidityPool)) (w : World)
    (d : Direction) (quantityAda : Q) (unit : string) (request : SwapRequest) :
  In (Submit request)
     (executeDexSwap SundaeSwapV1_identifier irisPools w d quantityAda unit) ->
  exists pool lovelace,
    findDexPoolForToken SundaeSwapV1_identifier irisPools unit = Ok (Some pool) /\
    lovelaceOf quantityAda = Ok lovelace /\
    request = mkSwapRequest pool 2 (sideOf d lovelace).
Proof.
  unfold executeDexSwap.
  destruct (findDexPoolForToken _ _ unit) as [[pool|]|];
    [destruct (lovelaceOf _) as [n|]| |]; intros [H|[]]; try discriminate H.
  injection H as <-. exists pool, n. repeat split.
Qed.

(** The executor ends in exactly one of three ways and never throws.  It
    submits a request exactly when a pool is found and the binary64 product
    of quantityAda and one million is a whole number; the request is then for
    the pool found, with 2 % slippage, paying that many lovelace in for a buy
    and asking them out for a sell.  When the product is no whole number
    nothing is submitted: the conversion throws and the executor logs the
    error.  A whole number of ADA (below 2^53 lovelace) is always submitted,
    with exactly its lovelace; and whatever is submitted for an amount of at
    least 1 ADA is at least one million lovelace and within one part in 2^51
    of the exact product. *)
Theorem executor_submits_whole_lovelace
    (SundaeSwapV1_identifier : string)
    (irisPools : string -> Exc (list IrisLiquidityPool)) (w : World)
    (d : Direction) (quantityAda : Q) (unit : string) :
  let run := executeDexSwap SundaeSwapV1_identifier irisPools w d quantityAda unit in
  (exists outcome, run = [outcome]) /\
  (forall request,
     In (Submit request) run
     <-> exists pool product lovelace,
           findDexPoolForToken SundaeSwapV1_identifier irisPools unit = Ok (Some pool) /\
           Js.mul64 quantityAda 1000000 = Some product /\
           inject_Z lovelace == product /\
           request = mkSwapRequest pool 2 (sideOf d lovelace)) /\
  (forall pool,
     findDexPoolForToken SundaeSwapV1_identifier irisPools unit = Ok (Some pool) ->
     (forall product lovelace,
        Js.mul64 quantityAda 1000000 = Some product -> ~ inject_Z lovelace == product) ->
     run = [LogSwapError unit]) /\
  (forall pool n,
     findDexPoolForToken SundaeSwapV1_identifier irisPools unit = Ok (Some pool) ->
     (0 < n)%Z -> (n * 1000000 < 2 ^ 53)%Z -> quantityAda == inject_Z n ->
     run = [Submit (mkSwapRequest pool 2 (sideOf d (n * 1000000)))]) /\
  (forall pool lovelace,
     1 <= quantityAda ->
     In (Submit (mkSwapRequest pool 2 (sideOf d lovelace))) run ->
     (1000000 <= lovelace)%Z /\
     Qabs (inject_Z lovelace - quantityAda * 1000000)
     <= quantityAda * 1000000 * (1 # 2251799813685248)).
Proof.
  cbn zeta. split; [|split; [|split; [|split]]].
  - unfold executeDexSwap.
    destruct (findDexPoolForToken _ _ unit) as [[pool|]|];
      [destruct (lovelaceOf _) as [n|]| |]; eexists; reflexivity.
  - intro request. split.
    + intro H. apply executeDexSwap_submit in H.
      destruct H as (pool & n & Hfind & Hn & ->).
      apply lovelaceOf_ok in Hn. destruct Hn as (product & Hp & Hn).
      exists pool, product, n. repeat split; assumption.
    + intros (pool & product & n & Hfind & Hp & Hn & ->). unfold executeDexSwap.
      assert (Hl : lovelaceOf quantityAda = Ok n)
        by (apply lovelaceOf_ok; exists product; split; assumption).
      rewrite Hfind, Hl. left. destruct d; reflexivity.
  - intros pool Hfind Hno. unfold executeDexSwap. rewrite Hfind.
    destruct (lovelaceOf quantityAda) as [n|] eqn:E; [|reflexivity].
    exfalso. apply lovelaceOf_ok in E. destruct E as (product & Hp & Hn).
    exact (Hno product n Hp Hn).
  - intros pool n Hfind Hn Hbig Hq. unfold executeDexSwap. rewrite Hfind.
    destruct (Binary64.mul64_whole_ada n quantityAda Hn Hbig Hq) as (p & Hp & Hpn).
    assert (Hl : lovelaceOf quantityAda = Ok (n * 1000000)%Z).
    { apply lovelaceOf_ok. exists p. split; [exact Hp|now symmetry]. }
    rewrite Hl. destruct d; reflexivity.
  - intros pool n Hq H. apply executeDexSwap_submit in H.
    destruct H as (pool' & n' & _ & Hn' & Heq).
    assert (n = n') by (destruct d; cbn in Heq; congruence). subst n'.
    now apply lovelaceOf_bounds.
Qed.

(** One pool known to Iris: a buy of 12.5 ADA is submitted for 12500000
    lovelace, and a buy of 16.1 ADA is not submitted, because the binary64
    product 16.1 * 1000000 is 16100000.000000002. *)
Lemma executor_submits_whole_lovelace_witness :
  let pool :=
    mkIrisLiquidityPool "SundaeSwap" IrisLovelace (IrisAsset "aa" "bb" (Some 6%Z))
      (Some (mkIrisPoolState (Some 10%Z) (Some 20%Z) (Some 5%Z) None None))
      "addr" "order" "p1" None in
  let irisPools := fun _ : string => Ok [pool] in
  let w := offlineWorld (fun _ => Throw) (fun _ _ => Throw) in
  executeDexSwap "SundaeSwapV1" irisPools w buy (125 # 10) "aabb"
  = [Submit (mkSwapRequest (toDexterLiquidityPool "SundaeSwapV1" pool) 2
                           (SwapInLovelace 12500000))] /\
  option_map Qred (Js.mul64 (161 # 10) 1000000)
  = Some (8643621683200001 # 536870912) /\
  executeDexSwap "SundaeSwapV1" irisPools w buy (161 # 10) "aabb"
  = [LogSwapError "aabb"] /\
  executeDexSwap "SundaeSwapV1" irisPools w sell 16 "aabb"
  = [Submit (mkSwapRequest (toDexterLiquidityPool "SundaeSwapV1" pool) 2
                           (SwapOutLovelace 16000000))].
Proof.
  intros pool irisPools w.
  split; [vm_compute; reflexivity|]. split; [vm_compute; reflexivity|].
  split; [vm_compute; reflexivity|].
  apply (proj1 (proj2 (proj2 (proj2 (executor_submits_whole_lovelace
                                       "SundaeSwapV1" irisPools w sell 16 "aabb"))))
               (toDexterLiquidityPool "SundaeSwapV1" pool) 16%Z);
    reflexivity.
Defined.

Lemma swapCalls_In (events : list Event) (d : Direction) (q : Q) (unit : string) :
  In (d, q, unit) (swapCalls events) <-> In (CallDexSwap d q unit) events.
Proof.
  unfold swapCalls. rewrite in_flat_map. split.
  - intros (e & Hin & H). destruct e; cbn in H; try contradiction.
    destruct H as [H|[]]. injection H as <- <- <-. exact Hin.
  - intro H. exists (CallDexSwap d q unit). split; [exact H|now left].
Qed.

(** With the shipped token table, whatever an iteration submits to the DEX
    comes from a swap call of that iteration: it is for the pool found for
    the call's unit, with 2 % slippage and the side of the call's direction,
    and its amount is the lovelace of the call's ADA amount, at least one
    million and within one part in 2^51 of the exact product. *)
Theorem submissions_at_least_one_ada
    (SundaeSwapV1_identifier : string)
    (irisPools : string -> Exc (list IrisLiquidityPool))
    (tokenSource : TokenSource) (CARDANO_ADDRESS : option string) (w : World)
    (request : SwapRequest) :
  In (Submit request)
     (submissions SundaeSwapV1_identifier irisPools TRADING_TOKENS tokenSource
                  CARDANO_ADDRESS w) ->
  exists d quantityAda unit lovelace,
    In (CallDexSwap d quantityAda unit)
       (trace (loop TRADING_TOKENS tokenSource CARDANO_ADDRESS w)) /\
    findDexPoolForToken SundaeSwapV1_identifier irisPools unit
    = Ok (Some (sr_pool request)) /\
    sr_side request = sideOf d lovelace /\
    sr_slippagePercent request = 2 /\
    lovelaceOf quantityAda = Ok lovelace /\
    Qabs (inject_Z lovelace - quantityAda * 1000000)
    <= quantityAda * 1000000 * (1 # 2251799813685248) /\
    (1000000 <= lovelace)%Z.
Proof.
  unfold submissions. intro H. apply in_flat_map in H.
  destruct H as ([[d q] unit] & Hcall & Hsub).
  apply swapCalls_In in Hcall.
  apply executeDexSwap_submit in Hsub.
  destruct Hsub as (pool & n & Hfind & Hn & ->).
  assert (Hq : 1 <= q)
    by (apply (swap_at_least_1_of_sizes TRADING_TOKENS tokenSource CARDANO_ADDRESS w
                 d q unit eq_refl Hcall)).
  destruct (lovelaceOf_bounds q n Hq Hn) as [Hge Hclose].
  exists d, q, unit, n. cbn [sr_pool sr_side sr_slippagePercent].
  repeat split; assumption.
Qed.

(** The shipped table without address: SNEK is bought for 100 ADA, that is
    for 100000000 lovelace. *)
Lemma submissions_at_least_one_ada_witness :
  let pool :=
    mkIrisLiquidityPool "Minswap" IrisLovelace (IrisAsset "aa" "bb" None) None
                        "addr" "order" "p1" None in
  let irisPools := fun _ : string => Ok [pool] in
  let w := offlineWorld (fun _ => Ok (mkLlmDecision true (Some buy) (9 # 10) 100))
                        (fun _ _ => Throw) in
  let request :=
    mkSwapRequest (toDexterLiquidityPool "SundaeSwapV1" pool) 2
                  (SwapInLovelace 100000000) in
  In (Submit request)
     (submissions "SundaeSwapV1" irisPools TRADING_TOKENS PREDEFINED_LIST None w) /\
  exists d quantityAda unit lovelace,
    In (CallDexSwap d quantityAda unit)
       (trace (loop TRADING_TOKENS PREDEFINED_LIST None w)) /\
    findDexPoolForToken "SundaeSwapV1" irisPools unit = Ok (Some (sr_pool request)) /\
    sr_side request = sideOf d lovelace /\
    sr_slippagePercent request = 2 /\
    lovelaceOf quantityAda = Ok lovelace /\
    Qabs (inject_Z lovelace - quantityAda * 1000000)
    <= quantityAda * 1000000 * (1 # 2251799813685248) /\
    (1000000 <= lovelace)%Z.
Proof.
  cbn zeta.
  match goal with |- ?A /\ _ => assert (H : A) end.
  { vm_compute. left. reflexivity. }
  split; [exact H|].
  exact (submissions_at_least_one_ada _ _ _ _ _ _ H).
Defined.

(** ** The service's executor *)

Lemma mapExc_undefined (pools : list IrisLiquidityPool) :
  pools <> [] ->
  DexterService.mapExc
    (DexterService.toDexterLiquidityPool DexterService.this_undefined) pools
  = Throw.
Proof. destruct pools; [contradiction|reflexivity]. Qed.

(** [DexterService] never finds a pool, and so never submits a swap.  Its
    pool search hands the method [toDexterLiquidityPool] to [map] without its
    receiver, and the method reads [this]: the search throws as soon as Iris
    answers with a pool, and returns null when Iris answers with none.
    [executeSwap] catches the exception and logs it. *)
Theorem service_never_submits
    (irisPools : string -> Exc (list IrisLiquidityPool)) (unit : string) :
  (forall pools,
     irisPools unit = Ok pools -> pools <> [] ->
     DexterService.findPoolForToken irisPools unit = Throw) /\
  (irisPools unit = Ok [] -> DexterService.findPoolForToken irisPools unit = Ok None) /\
  (irisPools unit = Throw -> DexterService.findPoolForToken irisPools unit = Throw) /\
  (forall pool, DexterService.findPoolForToken irisPools unit <> Ok (Some pool)) /\
  (forall w d quantityAda,
     DexterService.executeSwap irisPools w d quantityAda unit = [LogSwapError unit] \/
     DexterService.executeSwap irisPools w d quantityAda unit = [LogNoPool unit]).
Proof.
  assert (Hcases : forall pools,
            irisPools unit = Ok pools -> pools <> [] ->
            DexterService.findPoolForToken irisPools unit = Throw).
  { intros pools Hp Hne. unfold DexterService.findPoolForToken. rewrite Hp.
    rewrite mapExc_undefined; [reflexivity|].
    intro H. apply Hne. now apply sortByTvl_nil. }
  assert (Hnil : irisPools unit = Ok [] ->
                 DexterService.findPoolForToken irisPools unit = Ok None).
  { intro Hp. unfold DexterService.findPoolForToken. rewrite Hp. reflexivity. }
  assert (Hthrow : irisPools unit = Throw ->
                   DexterService.findPoolForToken irisPools unit = Throw).
  { intro Hp. unfold DexterService.findPoolForToken. rewrite Hp. reflexivity. }
  assert (Hnever : forall pool,
            DexterService.findPoolForToken irisPools unit <> Ok (Some pool)).
  { intros pool H. destruct (irisPools unit) as [[|x l]|] eqn:E.
    - rewrite Hnil in H by reflexivity. discriminate H.
    - rewrite (Hcases (x :: l)) in H by (reflexivity || discriminate).
      discriminate H.
    - rewrite Hthrow in H by reflexivity. discriminate H. }
  split; [exact Hcases|]. split; [exact Hnil|]. split; [exact Hthrow|].
  split; [exact Hnever|].
  intros w d quantityAda. unfold DexterService.executeSwap.
  destruct (DexterService.findPoolForToken irisPools unit) as [[pool|]|] eqn:E.
  - exfalso. exact (Hnever pool eq_refl).
  - now right.
  - now left.
Qed.

(** Iris knows two pools of the token; the entry module finds the better
    one, the service throws. *)
Lemma service_never_submits_witness :
  let pool identifier tvl :=
    mkIrisLiquidityPool "Minswap" IrisLovelace (IrisAsset "aa" "bb" None)
      (Some (mkIrisPoolState None None (Some tvl) None None))
      "addr" "order" identifier None in
  let irisPools := fun _ : string => Ok [pool "p5" 5%Z; pool "p9" 9%Z] in
  let w := offlineWorld (fun _ => Throw) (fun _ _ => Throw) in
  findDexPoolForToken "SundaeSwapV1" irisPools "aabb"
  = Ok (Some (toDexterLiquidityPool "SundaeSwapV1" (pool "p9" 9%Z))) /\
  DexterService.findPoolForToken irisPools "aabb" = Throw /\
  DexterService.executeSwap irisPools w buy 100 "aabb" = [LogSwapError "aabb"].
Proof.
  cbn zeta. split; [reflexivity|]. split; [|reflexivity].
  refine (proj1 (service_never_submits _ "aabb") _ eq_refl _). discriminate.
Defined.

(** ** One swap per token *)

Lemma swapCalls_app (a b : list Event) :
  swapCalls (a ++ b) = swapCalls a ++ swapCalls b.
Proof. apply flat_map_app. Qed.

(** The swap calls of the loop over the tokens: no more than tokens, for
    units of the tokens, and without a repeated unit when the tokens have
    none. *)
Lemma forEach_swapCalls (table : list TokenConfig) (w : World)
    (addressInfo : option AddressInfo) (p : Portfolio)
    (tokens : list TapToolsVolumeToken) :
  let calls := swapCalls (trace (forEach (tokenStep table w addressInfo p) tokens)) in
  (List.length calls <= List.length tokens)%nat /\
  (forall unit, In unit (map snd calls) -> In unit (map vt_unit tokens)) /\
  (NoDup (map vt_unit tokens) -> NoDup (map snd calls)).
Proof.
  induction tokens as [|t ts IH]; cbn zeta.
  - cbn. repeat split; [lia|tauto|constructor].
  - cbn [forEach]. rewrite trace_bind, swapCalls_app.
    set (rest := swapCalls
                   match snd (tokenStep table w addressInfo p t) with
                   | Ok _ => trace (forEach (tokenStep table w addressInfo p) ts)
                   | Throw => []
                   end).
    assert (Hrest : (List.length rest <= List.length ts)%nat /\
                    (forall unit, In unit (map snd rest) -> In unit (map vt_unit ts)) /\
                    (NoDup (map vt_unit ts) -> NoDup (map snd rest))).
    { subst rest. destruct (snd (tokenStep table w addressInfo p t)).
      - exact IH.
      - cbn. repeat split; [lia|tauto|constructor]. }
    destruct Hrest as (Hlen & Hin & Hnd).
    destruct (tokenStep_swapCalls table w addressInfo p t) as [->|(d & q & ->)].
    + cbn [app List.length map]. split; [lia|]. split.
      * intros unit H. right. now apply Hin.
      * intro H. apply Hnd. now inversion H.
    + cbn [app List.length map snd]. split; [lia|]. split.
      * intros unit [H|H]; [now left|right; now apply Hin].
      * intro H. inversion H as [|x l Hnotin Hts]; subst.
        constructor; [|now apply Hnd].
        intro Hu. apply Hnotin. now apply Hin.
Qed.

(** In one iteration the swap executor is called at most once per token of
    the iteration's list, and only for units of that list; when the table of
    configured tokens lists no unit twice, no unit is swapped twice in the
    iteration, whatever the token source, the answers of TapTools and the
    decisions are. *)
Theorem one_swap_per_token
    (table : list TokenConfig) (tokenSource : TokenSource)
    (CARDANO_ADDRESS : option string) (w : World) :
  let calls := swapCalls (trace (loop table tokenSource CARDANO_ADDRESS w)) in
  let tokens := getTopTokens table tokenSource w in
  (List.length calls <= List.length tokens)%nat /\
  (forall unit, In unit (map snd calls) -> In unit (map vt_unit tokens)) /\
  (NoDup (map tc_unit table) -> NoDup (map snd calls)).
Proof.
  cbn zeta. rewrite loop_unfold.
  pose proof (forEach_swapCalls table w (addressInfoOfIteration CARDANO_ADDRESS w)
                (buildPortfolio table w (addressInfoOfIteration CARDANO_ADDRESS w))
                (getTopTokens table tokenSource w)) as H.
  cbn zeta in H.
  assert (Hnd : NoDup (map tc_unit table) ->
                NoDup (map vt_unit (getTopTokens table tokenSource w))).
  { intro Htable.
    destruct (getTopTokens_units table w tokenSource)
      as (extra & _ & _ & _ & _ & Hno).
    now apply Hno. }
  destruct (getTopTokens table tokenSource w) as [|t ts] eqn:E.
  - cbn. repeat split; [lia|tauto|constructor].
  - set (body := forEach _ (t :: ts)) in *.
    assert (Hsame : swapCalls (trace (try_catch body (emit LogMainLoopError)))
                    = swapCalls (trace body)).
    { destruct body as [events [[]|]]; cbn [try_catch emit trace fst].
      - reflexivity.
      - rewrite swapCalls_app. cbn. apply app_nil_r. }
    rewrite Hsame. destruct H as (Hlen & Hin & Hno).
    split; [exact Hlen|]. split; [exact Hin|].
    intro Htable. apply Hno, Hnd, Htable.
Qed.

(** The shipped table with one more top-volume token, every decision a buy
    of 100 ADA: each of the tokens is swapped once. *)
Lemma one_swap_per_token_witness :
  let w :=
    mkWorld (Ok (mkResponse 200 [mkVolumeToken 2 "NEW" "ff00" 7]))
            (fun _ => Throw) (fun _ => Throw) (fun _ => Throw) (fun _ => Throw)
            (fun _ => Throw) (fun _ => Throw) (fun _ => Throw)
            (fun _ => Ok (mkLlmDecision true (Some buy) (9 # 10) 100))
            (fun _ _ => Throw) in
  let calls := swapCalls (trace (loop TRADING_TOKENS COMBINED None w)) in
  let tokens := getTopTokens TRADING_TOKENS COMBINED w in
  NoDup (map tc_unit TRADING_TOKENS) /\
  List.length calls = List.length tokens /\
  ((List.length calls <= List.length tokens)%nat /\
   (forall unit, In unit (map snd calls) -> In unit (map vt_unit tokens)) /\
   NoDup (map snd calls)).
Proof.
  cbn zeta.
  assert (Htable : NoDup (map tc_unit TRADING_TOKENS)).
  { apply (NoDup_count_occ' string_dec). intros x Hx.
    cbn in Hx. repeat (destruct Hx as [<-|Hx]; [vm_compute; reflexivity|]).
    destruct Hx. }
  split; [exact Htable|]. split; [vm_compute; reflexivity|].
  pose proof (one_swap_per_token TRADING_TOKENS COMBINED None
                (mkWorld (Ok (mkResponse 200 [mkVolumeToken 2 "NEW" "ff00" 7]))
                   (fun _ => Throw) (fun _ => Throw) (fun _ => Throw) (fun _ => Throw)
                   (fun _ => Throw) (fun _ => Throw) (fun _ => Throw)
                   (fun _ => Ok (mkLlmDecision true (Some buy) (9 # 10) 100))
                   (fun _ _ => Throw))) as H.
  cbn zeta in H. destruct H as (Hlen & Hin & Hno).
  split; [exact Hlen|]. split; [exact Hin|]. exact (Hno Htable).
Defined.
